(** * Job-application workflow: the supervisor, the stages and the feedback loop

    A shallow embedding of [backend/agents]: the workflow state of
    [state.py], the supervisor of [supervisor_agent.py], the four agents
    ([scraper_agent.py], [matcher_agent.py], [resume_tailor_agent.py],
    [learning_agent.py]), the graph of [workflow.py] and the helpers of
    [base_agent.py].

    Conventions.
    - The state is the Python dict [JobApplicationState]: a record with one
      field per key.  [None] in an [option] field stands for a key that is
      missing.  For the keys that the code reads with [state.get(key)] and
      no default ([current_job], [current_job_id], [base_resume],
      [tailored_resume], [approval_status], [application_status],
      [workflow_start_time]) it stands for a stored [None] as well: the
      code cannot tell the two apart.  Where the code reads a key with a
      default, or through a helper that tests [key in state], a stored
      [None] is not a missing key: the keys that come from outside an
      agent are [slot]s, a stored [None] under [errors] or
      [agent_decisions] is a [Loose] dict, and a stored [None] under
      [current_step] or [next_action], to which the code assigns strings
      only, is not modelled.
    - Floats are exact rationals ([Q]) where the code compares or clamps
      them; [==] is equality of their values.  The arithmetic of
      [adjust_threshold] is given on binary64 floats as well
      ([adjust_threshold_binary64]): there [0.7 - 0.05] is not [0.65].
    - [datetime.utcnow()] is a clock reading [now : Time] handed to every
      function that reads the clock; a reading is kept as its ISO-8601
      text, so [isoformat()] is the identity.
    - [self.log(...)] writes to the logger only and is left out. *)

From Stdlib Require Import QArith Qminmax DecimalString Lia Lqa Sorted.
From Stdlib Require Import PrimFloat.
From stdpp Require Import base option list strings gmap.
Close Scope Q_scope.
#[global] Set Warnings "-inexact-float".

(** ** Python values *)

(** A dict key that [state.get(key, default)] reads: the key may be
    missing (the default is used), may hold [None] (JSON [null] in a saved
    snapshot), or may hold a value. *)
Inductive slot (A : Type) : Type :=
  | Absent
  | Null
  | Held (a : A).
Arguments Absent {A}.
Arguments Null {A}.
Arguments Held {A} a.

(** [d.get(key, default)] seen from the caller: [None] is Python's [None]. *)
Definition slot_get {A} (x : slot A) (default : A) : option A :=
  match x with
  | Absent => Some default
  | Null => None
  | Held a => Some a
  end.

Inductive Exn : Type :=
  | TypeError (msg : string)
  | AttributeError (msg : string)
  | KeyError (msg : string)
  | IndexError (msg : string)
  | GraphRecursionError (msg : string).

(** [str(e)] *)
Definition exn_str (e : Exn) : string :=
  match e with
  | TypeError m | AttributeError m | IndexError m
  | GraphRecursionError m => m
  | KeyError k => "'" +:+ k +:+ "'"
  end.

Inductive result (A : Type) : Type :=
  | Ok (a : A)
  | Raise (e : Exn).
Arguments Ok {A} a.
Arguments Raise {A} e.

(** [len(x)] where [x] came out of [slot_get]. *)
Definition py_len {A} (x : option (list A)) : result nat :=
  match x with
  | Some l => Ok (length l)
  | None => Raise (TypeError "object of type 'NoneType' has no len()")
  end.

(** [for j in x] where [x] came out of [slot_get]. *)
Definition py_iter {A} (x : option (list A)) : result (list A) :=
  match x with
  | Some l => Ok l
  | None => Raise (TypeError "'NoneType' object is not iterable")
  end.

(** [x[0]] where [x] came out of [slot_get]. *)
Definition py_first {A} (x : option (list A)) : result A :=
  match x with
  | Some (a :: _) => Ok a
  | Some [] => Raise (IndexError "list index out of range")
  | None => Raise (TypeError "'NoneType' object is not subscriptable")
  end.

(** [x == v] for an [Optional[str]] and a string literal. *)
Definition str_is (x : option string) (v : string) : bool :=
  match x with
  | Some s => String.eqb s v
  | None => false
  end.

(** [str(n)] for a non-negative int. *)
Definition str_nat (n : nat) : string :=
  NilEmpty.string_of_uint (Nat.to_uint n).

(** [repr] of a list of strings, as an f-string prints it (for strings
    without quotes or escapes). *)
Definition repr_strs (l : list string) : string :=
  "[" +:+ String.concat ", " (map (λ k, "'" +:+ k +:+ "'") l) +:+ "]".

(** Truthiness of an [Optional[str]]. *)
Definition truthy_str (x : option string) : bool :=
  match x with
  | Some s => negb (bool_decide (s = ""))
  | None => false
  end.

(** [max(a, b)] and [min(a, b)] of the builtins: the first argument is kept
    unless the second is strictly larger (smaller). *)
Definition py_max (a b : Q) : Q := if Qlt_le_dec a b then b else a.
Definition py_min (a b : Q) : Q := if Qlt_le_dec b a then b else a.

(** The same two builtins on the interpreter's floats (IEEE 754 binary64;
    a decimal literal stands for the float nearest to it, as in Python,
    and [+] and [-] round to nearest). *)
Definition py_max_binary64 (a b : float) : float :=
  if (a <? b)%float then b else a.
Definition py_min_binary64 (a b : float) : float :=
  if (b <? a)%float then b else a.

Definition Time := string.

(** ** state.py *)

(** A job is a dict of attributes; [job.get("id")] is [j !! "id"]. *)
Abbreviation Job := (gmap string string).

Definition job_get_id (j : Job) : option string := j !! "id".

(** Truthiness of an [Optional[Dict]]: [None] and the empty dict are falsy. *)
Definition truthy_job (x : option Job) : bool :=
  match x with
  | Some j => negb (bool_decide (j = ∅))
  | None => false
  end.

(** The keys of [user_preferences] that the agents read. *)
Record Prefs : Type := mkPrefs {
  agent_status : option string;
  keywords : option (list string);
  location : option string;
  job_type : option string;
}.

(** An entry of [state["agent_decisions"]]. *)
Record Decision : Type := mkDecision {
  agent : string;
  decision : string;
  reasoning : string;
  success : bool;
  timestamp : Time;
}.

(** An entry of [state["errors"]]. *)
Record ErrorEntry : Type := mkErrorEntry {
  error : string;
  error_timestamp : Time;
  step : string;
}.

Record ScrapingStats : Type := mkScrapingStats {
  total_scraped : nat;
  indeed_count : nat;
  linkedin_count : nat;
  glassdoor_count : nat;
  stats_timestamp : Time;
}.

(** The dict built by [LearningAgent._analyze_workflow]; on an exception it
    is [{"error": str(e)}].  The keys [workflow_duration],
    [agent_performance] and [common_errors] are reports that no function
    reads back and are left out. *)
Record WorkflowAnalysis : Type := mkWorkflowAnalysis {
  wa_scraped_jobs : nat;
  wa_matched_jobs : nat;
  wa_match_rate : Q;
  wa_errors_count : nat;
  wa_decisions_count : nat;
  wa_recommendations : list string;
}.

Inductive Insights : Type :=
  | InsightsError (msg : string)
  | InsightsOk (a : WorkflowAnalysis).

(** One of the per-agent dicts of [strategy_adjustments]. *)
Record Adjustment : Type := mkAdjustment {
  action : option string;
  new_threshold : option Q;
  adj_reasoning : option string;
}.

Record Adjustments : Type := mkAdjustments {
  adj_scraper : Adjustment;
  adj_matcher : Adjustment;
  adj_resume_tailor : Adjustment;
  adj_timestamp : Time;
}.

(** [JobApplicationState].  The keys [user_id], [approval_request_id],
    [approval_sent_at], [user_feedback], [application_id],
    [application_result] and [feedback_loop_id] are neither read nor
    written by the agents and are left out.  The keys that come from
    outside an agent and are used as a dict or a list after
    [state.get(key, default)] are slots: a stored [None] gets past the
    default and makes the use raise.  [errors] and [agent_decisions] are
    lists whenever present: [create_initial_state], [add_error] and
    [add_agent_decision] are their only writers; a dict from outside that
    holds [None] under one of them is a [Loose]. *)
Record JobApplicationState : Type := mkState {
  user_preferences : slot Prefs;
  current_step : option string;
  workflow_start_time : option Time;
  errors : option (list ErrorEntry);
  scraped_jobs : slot (list Job);
  scraping_stats : option ScrapingStats;
  matched_jobs : slot (list Job);
  matching_scores : option (gmap (option string) Q);
  matching_reasoning : option (gmap (option string) string);
  current_job : option Job;
  current_job_id : option string;
  base_resume : option string;
  tailored_resume : option string;
  resume_changes : option (list string);
  tailoring_reasoning : option string;
  approval_status : option string;
  application_status : option string;
  learning_insights : option (gmap string Insights);
  strategy_adjustments : option Adjustments;
  agent_decisions : option (list Decision);
  metrics : slot (gmap string Q);
  next_action : option string;
}.

(** [state[key] = v], one definition per key that is assigned somewhere. *)
Definition set_current_step (v : option string) (s : JobApplicationState) :=
  mkState (user_preferences s) v (workflow_start_time s) (errors s)
    (scraped_jobs s) (scraping_stats s) (matched_jobs s) (matching_scores s)
    (matching_reasoning s) (current_job s) (current_job_id s) (base_resume s)
    (tailored_resume s) (resume_changes s) (tailoring_reasoning s)
    (approval_status s) (application_status s) (learning_insights s)
    (strategy_adjustments s) (agent_decisions s) (metrics s) (next_action s).

Definition set_errors (v : option (list ErrorEntry)) (s : JobApplicationState) :=
  mkState (user_preferences s) (current_step s) (workflow_start_time s) v
    (scraped_jobs s) (scraping_stats s) (matched_jobs s) (matching_scores s)
    (matching_reasoning s) (current_job s) (current_job_id s) (base_resume s)
    (tailored_resume s) (resume_changes s) (tailoring_reasoning s)
    (approval_status s) (application_status s) (learning_insights s)
    (strategy_adjustments s) (agent_decisions s) (metrics s) (next_action s).

Definition set_scraped_jobs (v : slot (list Job)) (s : JobApplicationState) :=
  mkState (user_preferences s) (current_step s) (workflow_start_time s)
    (errors s) v (scraping_stats s) (matched_jobs s) (matching_scores s)
    (matching_reasoning s) (current_job s) (current_job_id s) (base_resume s)
    (tailored_resume s) (resume_changes s) (tailoring_reasoning s)
    (approval_status s) (application_status s) (learning_insights s)
    (strategy_adjustments s) (agent_decisions s) (metrics s) (next_action s).

Definition set_scraping_stats (v : option ScrapingStats) (s : JobApplicationState) :=
  mkState (user_preferences s) (current_step s) (workflow_start_time s)
    (errors s) (scraped_jobs s) v (matched_jobs s) (matching_scores s)
    (matching_reasoning s) (current_job s) (current_job_id s) (base_resume s)
    (tailored_resume s) (resume_changes s) (tailoring_reasoning s)
    (approval_status s) (application_status s) (learning_insights s)
    (strategy_adjustments s) (agent_decisions s) (metrics s) (next_action s).

Definition set_matched_jobs (v : slot (list Job)) (s : JobApplicationState) :=
  mkState (user_preferences s) (current_step s) (workflow_start_time s)
    (errors s) (scraped_jobs s) (scraping_stats s) v (matching_scores s)
    (matching_reasoning s) (current_job s) (current_job_id s) (base_resume s)
    (tailored_resume s) (resume_changes s) (tailoring_reasoning s)
    (approval_status s) (application_status s) (learning_insights s)
    (strategy_adjustments s) (agent_decisions s) (metrics s) (next_action s).

Definition set_matching_scores (v : option (gmap (option string) Q))
    (s : JobApplicationState) :=
  mkState (user_preferences s) (current_step s) (workflow_start_time s)
    (errors s) (scraped_jobs s) (scraping_stats s) (matched_jobs s) v
    (matching_reasoning s) (current_job s) (current_job_id s) (base_resume s)
    (tailored_resume s) (resume_changes s) (tailoring_reasoning s)
    (approval_status s) (application_status s) (learning_insights s)
    (strategy_adjustments s) (agent_decisions s) (metrics s) (next_action s).

Definition set_matching_reasoning (v : option (gmap (option string) string))
    (s : JobApplicationState) :=
  mkState (user_preferences s) (current_step s) (workflow_start_time s)
    (errors s) (scraped_jobs s) (scraping_stats s) (matched_jobs s)
    (matching_scores s) v (current_job s) (current_job_id s) (base_resume s)
    (tailored_resume s) (resume_changes s) (tailoring_reasoning s)
    (approval_status s) (application_status s) (learning_insights s)
    (strategy_adjustments s) (agent_decisions s) (metrics s) (next_action s).

Definition set_current_job (v : option Job) (s : JobApplicationState) :=
  mkState (user_preferences s) (current_step s) (workflow_start_time s)
    (errors s) (scraped_jobs s) (scraping_stats s) (matched_jobs s)
    (matching_scores s) (matching_reasoning s) v (current_job_id s)
    (base_resume s) (tailored_resume s) (resume_changes s)
    (tailoring_reasoning s) (approval_status s) (application_status s)
    (learning_insights s) (strategy_adjustments s) (agent_decisions s)
    (metrics s) (next_action s).

Definition set_current_job_id (v : option string) (s : JobApplicationState) :=
  mkState (user_preferences s) (current_step s) (workflow_start_time s)
    (errors s) (scraped_jobs s) (scraping_stats s) (matched_jobs s)
    (matching_scores s) (matching_reasoning s) (current_job s) v
    (base_resume s) (tailored_resume s) (resume_changes s)
    (tailoring_reasoning s) (approval_status s) (application_status s)
    (learning_insights s) (strategy_adjustments s) (agent_decisions s)
    (metrics s) (next_action s).

Definition set_base_resume (v : option string) (s : JobApplicationState) :=
  mkState (user_preferences s) (current_step s) (workflow_start_time s)
    (errors s) (scraped_jobs s) (scraping_stats s) (matched_jobs s)
    (matching_scores s) (matching_reasoning s) (current_job s)
    (current_job_id s) v (tailored_resume s) (resume_changes s)
    (tailoring_reasoning s) (approval_status s) (application_status s)
    (learning_insights s) (strategy_adjustments s) (agent_decisions s)
    (metrics s) (next_action s).

Definition set_tailored_resume (v : option string) (s : JobApplicationState) :=
  mkState (user_preferences s) (current_step s) (workflow_start_time s)
    (errors s) (scraped_jobs s) (scraping_stats s) (matched_jobs s)
    (matching_scores s) (matching_reasoning s) (current_job s)
    (current_job_id s) (base_resume s) v (resume_changes s)
    (tailoring_reasoning s) (approval_status s) (application_status s)
    (learning_insights s) (strategy_adjustments s) (agent_decisions s)
    (metrics s) (next_action s).

Definition set_resume_changes (v : option (list string)) (s : JobApplicationState) :=
  mkState (user_preferences s) (current_step s) (workflow_start_time s)
    (errors s) (scraped_jobs s) (scraping_stats s) (matched_jobs s)
    (matching_scores s) (matching_reasoning s) (current_job s)
    (current_job_id s) (base_resume s) (tailored_resume s) v
    (tailoring_reasoning s) (approval_status s) (application_status s)
    (learning_insights s) (strategy_adjustments s) (agent_decisions s)
    (metrics s) (next_action s).

Definition set_tailoring_reasoning (v : option string) (s : JobApplicationState) :=
  mkState (user_preferences s) (current_step s) (workflow_start_time s)
    (errors s) (scraped_jobs s) (scraping_stats s) (matched_jobs s)
    (matching_scores s) (matching_reasoning s) (current_job s)
    (current_job_id s) (base_resume s) (tailored_resume s) (resume_changes s)
    v (approval_status s) (application_status s) (learning_insights s)
    (strategy_adjustments s) (agent_decisions s) (metrics s) (next_action s).

Definition set_approval_status (v : option string) (s : JobApplicationState) :=
  mkState (user_preferences s) (current_step s) (workflow_start_time s)
    (errors s) (scraped_jobs s) (scraping_stats s) (matched_jobs s)
    (matching_scores s) (matching_reasoning s) (current_job s)
    (current_job_id s) (base_resume s) (tailored_resume s) (resume_changes s)
    (tailoring_reasoning s) v (application_status s) (learning_insights s)
    (strategy_adjustments s) (agent_decisions s) (metrics s) (next_action s).

Definition set_application_status (v : option string) (s : JobApplicationState) :=
  mkState (user_preferences s) (current_step s) (workflow_start_time s)
    (errors s) (scraped_jobs s) (scraping_stats s) (matched_jobs s)
    (matching_scores s) (matching_reasoning s) (current_job s)
    (current_job_id s) (base_resume s) (tailored_resume s) (resume_changes s)
    (tailoring_reasoning s) (approval_status s) v (learning_insights s)
    (strategy_adjustments s) (agent_decisions s) (metrics s) (next_action s).

Definition set_learning_insights (v : option (gmap string Insights))
    (s : JobApplicationState) :=
  mkState (user_preferences s) (current_step s) (workflow_start_time s)
    (errors s) (scraped_jobs s) (scraping_stats s) (matched_jobs s)
    (matching_scores s) (matching_reasoning s) (current_job s)
    (current_job_id s) (base_resume s) (tailored_resume s) (resume_changes s)
    (tailoring_reasoning s) (approval_status s) (application_status s) v
    (strategy_adjustments s) (agent_decisions s) (metrics s) (next_action s).

Definition set_strategy_adjustments (v : option Adjustments)
    (s : JobApplicationState) :=
  mkState (user_preferences s) (current_step s) (workflow_start_time s)
    (errors s) (scraped_jobs s) (scraping_stats s) (matched_jobs s)
    (matching_scores s) (matching_reasoning s) (current_job s)
    (current_job_id s) (base_resume s) (tailored_resume s) (resume_changes s)
    (tailoring_reasoning s) (approval_status s) (application_status s)
    (learning_insights s) v (agent_decisions s) (metrics s) (next_action s).

Definition set_agent_decisions (v : option (list Decision))
    (s : JobApplicationState) :=
  mkState (user_preferences s) (current_step s) (workflow_start_time s)
    (errors s) (scraped_jobs s) (scraping_stats s) (matched_jobs s)
    (matching_scores s) (matching_reasoning s) (current_job s)
    (current_job_id s) (base_resume s) (tailored_resume s) (resume_changes s)
    (tailoring_reasoning s) (approval_status s) (application_status s)
    (learning_insights s) (strategy_adjustments s) v (metrics s)
    (next_action s).

Definition set_metrics (v : slot (gmap string Q)) (s : JobApplicationState) :=
  mkState (user_preferences s) (current_step s) (workflow_start_time s)
    (errors s) (scraped_jobs s) (scraping_stats s) (matched_jobs s)
    (matching_scores s) (matching_reasoning s) (current_job s)
    (current_job_id s) (base_resume s) (tailored_resume s) (resume_changes s)
    (tailoring_reasoning s) (approval_status s) (application_status s)
    (learning_insights s) (strategy_adjustments s) (agent_decisions s) v
    (next_action s).

Definition set_next_action (v : option string) (s : JobApplicationState) :=
  mkState (user_preferences s) (current_step s) (workflow_start_time s)
    (errors s) (scraped_jobs s) (scraping_stats s) (matched_jobs s)
    (matching_scores s) (matching_reasoning s) (current_job s)
    (current_job_id s) (base_resume s) (tailored_resume s) (resume_changes s)
    (tailoring_reasoning s) (approval_status s) (application_status s)
    (learning_insights s) (strategy_adjustments s) (agent_decisions s)
    (metrics s) v.

Definition create_initial_state (now : Time) (prefs : slot Prefs)
    : JobApplicationState :=
  {| user_preferences := prefs;
     current_step := Some "scrape";
     workflow_start_time := Some now;
     errors := Some [];
     scraped_jobs := Held [];
     scraping_stats := None;
     matched_jobs := Held [];
     matching_scores := Some ∅;
     matching_reasoning := Some ∅;
     current_job := None;
     current_job_id := None;
     base_resume := None;
     tailored_resume := None;
     resume_changes := None;
     tailoring_reasoning := None;
     approval_status := None;
     application_status := None;
     learning_insights := Some ∅;
     strategy_adjustments := None;
     agent_decisions := Some [];
     metrics := Held ∅;
     next_action := Some "scrape" |}.

(** [add_agent_decision(state, agent, decision, reasoning, success)] *)
Definition add_agent_decision (now : Time) (ag dec why : string) (ok : bool)
    (s : JobApplicationState) : JobApplicationState :=
  set_agent_decisions
    (Some (default [] (agent_decisions s) ++ [mkDecision ag dec why ok now])) s.

(** [add_error(state, error)] *)
Definition add_error (now : Time) (msg : string) (s : JobApplicationState)
    : JobApplicationState :=
  set_errors
    (Some (default [] (errors s)
           ++ [mkErrorEntry msg now (default "unknown" (current_step s))])) s.

(** [update_metrics(state, metric_name, value)]: item assignment on [None]
    raises. *)
Definition update_metrics (name : string) (value : Q) (s : JobApplicationState)
    : result JobApplicationState :=
  match metrics s with
  | Absent => Ok (set_metrics (Held (<[name := value]> ∅)) s)
  | Held m => Ok (set_metrics (Held (<[name := value]> m)) s)
  | Null =>
      Raise (TypeError "'NoneType' object does not support item assignment")
  end.

(** ** A stored [None] under [errors] or [agent_decisions]

    [JobApplicationState] types these two keys as the TypedDict does: a
    list, or the key is missing.  A dict that a caller hands over can also
    hold [None] there, and the helpers above do not take that for a missing
    key: the [in] test finds the key, no list is created, and [append] is
    called on [None].  [Loose] is such a dict: the typed state, where a flag
    says that the key holds [None] (the typed state then has the key
    missing). *)
Record Loose : Type := mkLoose {
  typed : JobApplicationState;
  errors_none : bool;
  decisions_none : bool;
}.

Definition with_typed (s : JobApplicationState) (d : Loose) : Loose :=
  mkLoose s (errors_none d) (decisions_none d).

Definition none_has_no_append : Exn :=
  AttributeError "'NoneType' object has no attribute 'append'".

(** [add_agent_decision] and [add_error] on such a dict. *)
Definition add_agent_decision_loose (now : Time) (ag dec why : string)
    (ok : bool) (d : Loose) : result Loose :=
  if decisions_none d then Raise none_has_no_append
  else Ok (with_typed (add_agent_decision now ag dec why ok (typed d)) d).

Definition add_error_loose (now : Time) (msg : string) (d : Loose)
    : result Loose :=
  if errors_none d then Raise none_has_no_append
  else Ok (with_typed (add_error now msg (typed d)) d).

(** ** Mutation and exceptions

    The agents mutate the state dict in place and may raise part-way: a
    computation returns its outcome together with the state as it stands
    at that point. *)
Definition M (A : Type) : Type :=
  JobApplicationState -> result A * JobApplicationState.

#[global] Instance M_ret : MRet M := fun A a s => (Ok a, s).
#[global] Instance M_bind : MBind M := fun A B k m s =>
  match m s with
  | (Ok a, s') => k a s'
  | (Raise e, s') => (Raise e, s')
  end.

Definition get : M JobApplicationState := fun s => (Ok s, s).
Definition modify (f : JobApplicationState -> JobApplicationState) : M unit :=
  fun s => (Ok tt, f s).
Definition lift {A} (r : result A) : M A := fun s => (r, s).
Definition attempt (f : JobApplicationState -> result JobApplicationState)
    : M unit :=
  fun s => match f s with
           | Ok s' => (Ok tt, s')
           | Raise e => (Raise e, s)
           end.

(** [try: body; return state / except Exception as e: handler; return state] *)
Definition try_except (body : M unit)
    (handler : Exn -> JobApplicationState -> JobApplicationState)
    (s : JobApplicationState) : JobApplicationState :=
  match body s with
  | (Ok _, s') => s'
  | (Raise e, s') => handler e s'
  end.

(** ** supervisor_agent.py *)
Module SupervisorAgent.

Definition _decide_after_scrape : M string :=
  s ← get;
  n ← lift (py_len (slot_get (scraped_jobs s) []));
  if (n =? 0)%nat then mret "stop" else mret "match".

Definition _decide_after_match : M string :=
  s ← get;
  let matched := slot_get (matched_jobs s) [] in
  n ← lift (py_len matched);
  if (n =? 0)%nat then mret "learn"
  else
    (if truthy_job (current_job s) then mret tt
     else
       j ← lift (py_first matched);
       modify (set_current_job (Some j));;
       modify (set_current_job_id (job_get_id j)));;
    mret "tailor".

Definition _decide_after_tailor : M string :=
  s ← get;
  if truthy_str (tailored_resume s) then mret "approve" else mret "match".

Definition _decide_after_approval : M string :=
  s ← get;
  if str_is (approval_status s) "approved" then mret "apply"
  else if str_is (approval_status s) "rejected" then mret "learn"
  else if str_is (approval_status s) "expired" then mret "match"
  else mret "wait".

Definition _decide_after_apply : M string :=
  s ← get;
  js ← lift (py_iter (slot_get (matched_jobs s) []));
  let remaining_jobs :=
    filter (λ j, job_get_id j ≠ current_job_id s) js in
  modify (set_matched_jobs (Held remaining_jobs));;
  modify (set_current_job None);;
  modify (set_current_job_id None);;
  if (0 <? length remaining_jobs)%nat then mret "match" else mret "learn".

Definition _decide_after_learn : M string := mret "stop".

(** [state["next_action"] = next_action] followed by the
    [add_agent_decision] call. *)
Definition record_decision (now : Time) (next step : string)
    (s : JobApplicationState) : JobApplicationState :=
  add_agent_decision now "supervisor" ("next_action=" +:+ next)
    ("Based on current_step=" +:+ step) true (set_next_action (Some next) s).

(** The [try] block of [execute]. *)
Definition decide (now : Time) : M unit :=
  s ← get;
  let step := default "scrape" (current_step s) in
  next ← (if String.eqb step "scrape" then _decide_after_scrape
          else if String.eqb step "match" then _decide_after_match
          else if String.eqb step "tailor" then _decide_after_tailor
          else if String.eqb step "approve" then _decide_after_approval
          else if String.eqb step "apply" then _decide_after_apply
          else if String.eqb step "learn" then _decide_after_learn
          else mret "scrape");
  modify (record_decision now next step).

Definition on_error (now : Time) (e : Exn) (s : JobApplicationState)
    : JobApplicationState :=
  set_next_action (Some "stop")
    (add_error now ("Supervisor error: " +:+ exn_str e) s).

Definition execute (now : Time) : JobApplicationState -> JobApplicationState :=
  try_except (decide now) (on_error now).

(** The [try] block of [execute] on a dict whose [errors] or
    [agent_decisions] key may hold [None]: the branch for the step, the
    assignment of [next_action], the [add_agent_decision] call.  It
    returns the dict as it stands when the block ends or raises. *)
Definition try_block (now : Time) (d : Loose) : result unit * Loose :=
  let s := typed d in
  let step := default "scrape" (current_step s) in
  match (if String.eqb step "scrape" then _decide_after_scrape
         else if String.eqb step "match" then _decide_after_match
         else if String.eqb step "tailor" then _decide_after_tailor
         else if String.eqb step "approve" then _decide_after_approval
         else if String.eqb step "apply" then _decide_after_apply
         else if String.eqb step "learn" then _decide_after_learn
         else mret "scrape") s with
  | (Raise e, s1) => (Raise e, with_typed s1 d)
  | (Ok next, s1) =>
      let d1 := with_typed (set_next_action (Some next) s1) d in
      match add_agent_decision_loose now "supervisor"
              ("next_action=" +:+ next) ("Based on current_step=" +:+ step)
              true d1 with
      | Ok d2 => (Ok tt, d2)
      | Raise e => (Raise e, d1)
      end
  end.

(** [execute] on such a dict: nothing catches what the [except] clause
    itself raises. *)
Definition execute_loose (now : Time) (d : Loose) : result Loose :=
  match try_block now d with
  | (Ok _, d') => Ok d'
  | (Raise e, d1) =>
      match add_error_loose now ("Supervisor error: " +:+ exn_str e) d1 with
      | Ok d2 => Ok (with_typed (set_next_action (Some "stop") (typed d2)) d2)
      | Raise e' => Raise e'
      end
  end.

Definition should_continue_workflow (s : JobApplicationState) : result bool :=
  if (10 <? length (default [] (errors s)))%nat then Ok false
  else
    match slot_get (user_preferences s)
            (mkPrefs None None None None) with
    | None =>
        Raise (AttributeError "'NoneType' object has no attribute 'get'")
    | Some prefs =>
        if str_is (agent_status prefs) "paused" then Ok false else Ok true
    end.

End SupervisorAgent.

(** ** scraper_agent.py *)
Module ScraperAgent.

(** [x or fallback] for a string read with [prefs.get(key, "")]. *)
Definition str_or (x : option string) (fallback : string) : string :=
  match x with
  | Some s => if bool_decide (s = "") then fallback else s
  | None => fallback
  end.

(** One entry of the mock list of [_scrape_indeed] ([i] printed as [si]). *)
Definition mock_job (now : Time) (kws : list string) (loc jt : option string)
    (si : string) : Job :=
  let kw := match kws with k :: _ => k | [] => "Python" end in
  list_to_map
    [("id", "indeed_" +:+ si);
     ("title", "Software Engineer - " +:+ kw);
     ("company", "Tech Company " +:+ si);
     ("location", str_or loc "Remote");
     ("description",
      "We are looking for a talented software engineer with experience in "
      +:+ kw +:+ ". Must have 3+ years of experience.");
     ("salary_range", "$80,000 - $120,000");
     ("job_type", str_or jt "Full-time");
     ("posted_date", now);
     ("url", "https://www.indeed.com/viewjob?jk=mock" +:+ si);
     ("source", "indeed");
     ("scraped_at", now)].

(** [_scrape_indeed]: the mock list, [i] in [range(1, 6)]. *)
Definition _scrape_indeed (now : Time) (kws : list string)
    (loc jt : option string) : list Job :=
  map (λ i, mock_job now kws loc jt (str_nat i)) (seq 1 5).

(** The [try] block of [execute]. *)
Definition body (now : Time) : M unit :=
  s ← get;
  prefs ← lift
    (match slot_get (user_preferences s) (mkPrefs None None None None) with
     | Some p => Ok p
     | None =>
         Raise (AttributeError "'NoneType' object has no attribute 'get'")
     end);
  let kws := default [] (keywords prefs) in
  let indeed_jobs := _scrape_indeed now kws (location prefs) (job_type prefs) in
  let all_jobs := [] ++ indeed_jobs in
  modify (set_scraped_jobs (Held all_jobs));;
  modify (set_scraping_stats
            (Some (mkScrapingStats (length all_jobs) (length indeed_jobs)
                     0 0 now)));;
  modify (set_current_step (Some "match"));;
  modify (add_agent_decision now "scraper"
            ("scraped_" +:+ str_nat (length all_jobs) +:+ "_jobs")
            ("Scraped from Indeed using keywords: " +:+ repr_strs kws) true);;
  attempt (update_metrics "jobs_scraped"
             (inject_Z (Z.of_nat (length all_jobs)))).

Definition on_error (now : Time) (e : Exn) (s : JobApplicationState)
    : JobApplicationState :=
  set_current_step (Some "match")
    (add_error now ("Scraper error: " +:+ exn_str e) s).

Definition execute (now : Time) : JobApplicationState -> JobApplicationState :=
  try_except (body now) (on_error now).

(** Truthiness of [job.get(field)]: a missing key and the empty string are
    falsy. *)
Definition truthy_field (job : Job) (field : string) : bool :=
  truthy_str (job !! field).

Definition required_fields : list string :=
  ["title"; "company"; "description"; "url"].

(** [validate_job_posting] *)
Definition validate_job_posting (job : Job) : bool :=
  forallb (truthy_field job) required_fields.

(** One turn of the loop of [deduplicate_jobs], on
    [(seen_urls, unique_jobs)]. *)
Definition dedup_step (acc : gset string * list Job) (job : Job)
    : gset string * list Job :=
  let '(seen_urls, unique_jobs) := acc in
  match job !! "url" with
  | Some url =>
      if negb (bool_decide (url = "")) && bool_decide (url ∉ seen_urls)
      then ({[url]} ∪ seen_urls, unique_jobs ++ [job])
      else acc
  | None => acc
  end.

(** [deduplicate_jobs] *)
Definition deduplicate_jobs (jobs : list Job) : list Job :=
  (foldl dedup_step (∅, []) jobs).2.

End ScraperAgent.

(** ** matcher_agent.py *)
Module MatcherAgent.

(** The agent object: its one mutable attribute. *)
Record Agent : Type := mkAgent { min_score_threshold : Q }.

(** [settings.MIN_MATCH_SCORE_THRESHOLD] *)
Definition MIN_MATCH_SCORE_THRESHOLD : Q := (70 # 100)%Q.

Definition init : Agent := mkAgent MIN_MATCH_SCORE_THRESHOLD.

(** [score >= threshold] *)
Definition ge_threshold (score thr : Q) : bool := Qle_bool thr score.

(** [matching_scores[j.get("id")]]: every matched job had its id entered
    in the dict by the loop, so the lookup finds it. *)
Definition score_of (scores : gmap (option string) Q) (j : Job) : Q :=
  default 0%Q (scores !! job_get_id j).

(** [list.sort(key=..., reverse=True)]: descending by key, and stable:
    jobs with equal keys keep their order. *)
Fixpoint insert_desc (key : Job -> Q) (x : Job) (l : list Job) : list Job :=
  match l with
  | [] => [x]
  | y :: l' =>
      if Qlt_le_dec (key x) (key y) then y :: insert_desc key x l'
      else x :: l
  end.

Definition sort_desc (key : Job -> Q) (l : list Job) : list Job :=
  foldr (insert_desc key) [] l.

Section Execute.
(** [_calculate_match_score(job, user_preferences)] asks the LLM; it
    returns [(0.0, "Error: ...")] on any exception of its own.  The
    [n]-th call of a run answers [calculate_match_score n job prefs]. *)
Variable calculate_match_score : nat -> Job -> slot Prefs -> Q * string.
(** [str(x)] of a float, as an f-string prints it. *)
Variable repr_float : Q -> string.

(** The [for job in scraped_jobs] loop, from call number [n] on:
    the matched jobs in order, the scores and the reasoning. *)
Fixpoint match_loop (thr : Q) (prefs : slot Prefs) (n : nat)
    (jobs : list Job)
    (acc : list Job * gmap (option string) Q * gmap (option string) string)
    : list Job * gmap (option string) Q * gmap (option string) string :=
  match jobs with
  | [] => acc
  | job :: rest =>
      let '(matched, scores, reasons) := acc in
      let job_id := job_get_id job in
      let '(score, why) := calculate_match_score n job prefs in
      let scores := <[job_id := score]> scores in
      let reasons := <[job_id := why]> reasons in
      let matched :=
        if ge_threshold score thr then matched ++ [job] else matched in
      match_loop thr prefs (S n) rest (matched, scores, reasons)
  end.

(** The [try] block of [execute], past the guard on an empty list. *)
Definition body_matching (self : Agent) (now : Time)
    (jobs : list Job) : M unit :=
  s ← get;
  let thr := min_score_threshold self in
  let '(matched, scores, reasons) :=
    match_loop thr (user_preferences s) 0 jobs ([], ∅, ∅) in
  let matched := sort_desc (score_of scores) matched in
  modify (set_matched_jobs (Held matched));;
  modify (set_matching_scores (Some scores));;
  modify (set_matching_reasoning (Some reasons));;
  modify (set_current_step (Some "tailor"));;
  modify (add_agent_decision now "matcher"
            ("matched_" +:+ str_nat (length matched) +:+ "_of_"
             +:+ str_nat (length jobs) +:+ "_jobs")
            ("Filtered jobs with score >= " +:+ repr_float thr) true);;
  attempt (update_metrics "jobs_matched"
             (inject_Z (Z.of_nat (length matched))));;
  attempt (update_metrics "match_rate"
             (Z.of_nat (length matched) # Pos.of_nat (length jobs))%Q).

Definition body (self : Agent) (now : Time) : M unit :=
  s ← get;
  match slot_get (scraped_jobs s) [] with
  | None | Some [] => modify (set_current_step (Some "learn"))
  | Some jobs => body_matching self now jobs
  end.

Definition on_error (now : Time) (e : Exn) (s : JobApplicationState)
    : JobApplicationState :=
  set_current_step (Some "learn")
    (add_error now ("Matcher error: " +:+ exn_str e) s).

Definition execute (self : Agent) (now : Time)
    : JobApplicationState -> JobApplicationState :=
  try_except (body self now) (on_error now).
End Execute.

(** [adjust_threshold]: an exception is logged and the threshold is left
    as it was. *)
Definition adjust_threshold (self : Agent) (s : JobApplicationState) : Agent :=
  match py_len (slot_get (matched_jobs s) []) with
  | Raise _ => self
  | Ok matched_count =>
      if (matched_count =? 0)%nat then
        mkAgent (py_max (5 # 10) (min_score_threshold self - (5 # 100)))%Q
      else if (20 <? matched_count)%nat then
        mkAgent (py_min (9 # 10) (min_score_threshold self + (5 # 100)))%Q
      else self
  end.

(** [adjust_threshold] as the interpreter computes it: the threshold is a
    binary64 float, and so are [0.05], [0.5] and [0.9]. *)
Definition adjust_threshold_binary64 (min_score_threshold : float)
    (s : JobApplicationState) : float :=
  match py_len (slot_get (matched_jobs s) []) with
  | Raise _ => min_score_threshold
  | Ok matched_count =>
      if (matched_count =? 0)%nat then
        py_max_binary64 0.5 (min_score_threshold - 0.05)%float
      else if (20 <? matched_count)%nat then
        py_min_binary64 0.9 (min_score_threshold + 0.05)%float
      else min_score_threshold
  end.

Section MatchScore.
(** The text of the prompt for a job and the preferences read from it. *)
Variable prompt_text : Job -> Prefs -> string.
(** [BaseAgent.invoke_llm], which passes on every exception of the LLM
    client; the [n]-th call of a run answers [invoke_llm n prompt]. *)
Variable invoke_llm : nat -> string -> result string.
(** [_parse_llm_response] has a fallback for every exception of its own. *)
Variable _parse_llm_response : string -> Q * string.

(** [_build_matching_prompt]: it reads the preferences with
    [user_preferences.get(...)]. *)
Definition _build_matching_prompt (job : Job) (prefs : slot Prefs)
    : result string :=
  match slot_get prefs (mkPrefs None None None None) with
  | Some p => Ok (prompt_text job p)
  | None => Raise (AttributeError "'NoneType' object has no attribute 'get'")
  end.

(** [_calculate_match_score] *)
Definition _calculate_match_score (n : nat) (job : Job) (prefs : slot Prefs)
    : Q * string :=
  match _build_matching_prompt job prefs with
  | Raise e => (0%Q, "Error: " +:+ exn_str e)
  | Ok prompt =>
      match invoke_llm n prompt with
      | Raise e => (0%Q, "Error: " +:+ exn_str e)
      | Ok response => _parse_llm_response response
      end
  end.
End MatchScore.

End MatcherAgent.

(** ** resume_tailor_agent.py *)
Module ResumeTailorAgent.

Section Execute.
(** [_tailor_resume(base_resume, job, user_preferences)] asks the LLM
    and returns [(tailored_resume, changes, reasoning)]; on any exception
    of its own it returns the base resume unchanged. *)
Variable _tailor_resume :
  string -> Job -> slot Prefs -> string * list string * string.

(** The [try] block of [execute], past the two guards. *)
Definition body_tailoring (now : Time) (job : Job) (resume : string)
    : M unit :=
  s ← get;
  let '(tailored, changes, why) :=
    _tailor_resume resume job (user_preferences s) in
  modify (set_tailored_resume (Some tailored));;
  modify (set_resume_changes (Some changes));;
  modify (set_tailoring_reasoning (Some why));;
  modify (set_current_step (Some "approve"));;
  modify (add_agent_decision now "resume_tailor"
            ("tailored_resume_for_" +:+ default "None" (job_get_id job))
            why true);;
  s' ← get;
  tailored_so_far ← lift
    (match slot_get (metrics s') ∅ with
     | Some m => Ok (default 0%Q (m !! "resumes_tailored"))
     | None =>
         Raise (AttributeError "'NoneType' object has no attribute 'get'")
     end);
  attempt (update_metrics "resumes_tailored" (tailored_so_far + 1)%Q).

Definition body (now : Time) : M unit :=
  s ← get;
  if truthy_job (current_job s) then
    if truthy_str (base_resume s) then
      body_tailoring now (default ∅ (current_job s))
        (default "" (base_resume s))
    else
      modify (add_error now "No base resume available for tailoring");;
      modify (set_current_step (Some "match"))
  else modify (set_current_step (Some "approve")).

Definition on_error (now : Time) (e : Exn) (s : JobApplicationState)
    : JobApplicationState :=
  set_current_step (Some "match")
    (add_error now ("Resume tailor error: " +:+ exn_str e) s).

Definition execute (now : Time)
    : JobApplicationState -> JobApplicationState :=
  try_except (body now) (on_error now).
End Execute.

Section TailorResume.
(** The text of [_build_tailoring_prompt(base_resume, job, ...)]; it does
    not read the preferences. *)
Variable prompt_text : string -> Job -> string.
Variable invoke_llm : string -> result string.
(** [_parse_tailoring_response] has a fallback for every exception of its
    own. *)
Variable _parse_tailoring_response :
  string -> string * list string * string.

(** [_tailor_resume] *)
Definition _tailor_resume (base_resume : string) (job : Job)
    (prefs : slot Prefs) : string * list string * string :=
  match invoke_llm (prompt_text base_resume job) with
  | Ok response => _parse_tailoring_response response
  | Raise e => (base_resume, [], "Error: " +:+ exn_str e)
  end.
End TailorResume.

End ResumeTailorAgent.

(** ** learning_agent.py *)
Module LearningAgent.

Definition Qltb (a b : Q) : bool := negb (Qle_bool b a).

(** [matched_count / scraped_count if scraped_count > 0 else 0] *)
Definition rate (matched_count scraped_count : nat) : Q :=
  if (0 <? scraped_count)%nat
  then (Z.of_nat matched_count # Pos.of_nat scraped_count)%Q
  else 0%Q.

(** [_analyze_workflow]: any exception inside is turned into
    [{"error": str(e)}]. *)
Definition _analyze_workflow (s : JobApplicationState) : Insights :=
  match py_len (slot_get (scraped_jobs s) []) with
  | Raise e => InsightsError (exn_str e)
  | Ok scraped_count =>
      match py_len (slot_get (matched_jobs s) []) with
      | Raise e => InsightsError (exn_str e)
      | Ok matched_count =>
          let errs := default [] (errors s) in
          let decisions := default [] (agent_decisions s) in
          let match_rate := rate matched_count scraped_count in
          let rec1 :=
            if Qltb match_rate (1 # 10) then
              ["Match rate is very low. Consider lowering match threshold or adjusting keywords."]
            else if Qltb (8 # 10) match_rate then
              ["Match rate is very high. Consider raising match threshold to be more selective."]
            else [] in
          let rec2 :=
            if (5 <? length errs)%nat then
              ["Multiple errors detected. Review scraping and matching logic."]
            else [] in
          InsightsOk
            (mkWorkflowAnalysis scraped_count matched_count match_rate
               (length errs) (length decisions) (rec1 ++ rec2))
      end
  end.

(** [insights.get("match_rate", 0)] *)
Definition insights_match_rate (i : Insights) : Q :=
  match i with
  | InsightsOk a => wa_match_rate a
  | InsightsError _ => 0%Q
  end.

Definition no_adjustment : Adjustment := mkAdjustment None None None.

Definition _generate_strategy_adjustments (now : Time) (i : Insights)
    : Adjustments :=
  let match_rate := insights_match_rate i in
  let scraper :=
    if Qltb match_rate (1 # 10) then
      mkAdjustment (Some "broaden_search") None
        (Some "Low match rate suggests search is too narrow")
    else no_adjustment in
  let matcher :=
    if Qltb (8 # 10) match_rate then
      mkAdjustment (Some "raise_threshold") (Some (75 # 100)%Q)
        (Some "High match rate suggests we can be more selective")
    else if Qltb match_rate (1 # 10) then
      mkAdjustment (Some "lower_threshold") (Some (60 # 100)%Q)
        (Some "Low match rate suggests threshold is too strict")
    else no_adjustment in
  mkAdjustments scraper matcher no_adjustment now.

(** The [try] block of [execute]; [len(adjustments)] is the four keys of
    the dict. *)
Definition body (now : Time) : M unit :=
  s ← get;
  let insights := _analyze_workflow s in
  li ← lift
    (match learning_insights s with
     | Some li => Ok li
     | None => Raise (KeyError "learning_insights")
     end);
  modify (set_learning_insights
            (Some (<["workflow_analysis" := insights]> li)));;
  let adjustments := _generate_strategy_adjustments now insights in
  modify (set_strategy_adjustments (Some adjustments));;
  modify (set_current_step (Some "complete"));;
  modify (add_agent_decision now "learning" "workflow_analysis_complete"
            ("Generated " +:+ str_nat 4 +:+ " strategy adjustments") true).

Definition on_error (now : Time) (e : Exn) (s : JobApplicationState)
    : JobApplicationState :=
  set_current_step (Some "complete")
    (add_error now ("Learning error: " +:+ exn_str e) s).

Definition execute (now : Time) : JobApplicationState -> JobApplicationState :=
  try_except (body now) (on_error now).

(** One of the dicts of [_analyze_agent_performance]. *)
Record AgentStats : Type := mkAgentStats {
  st_total : nat;
  st_success : nat;
  st_failures : nat;
}.

(** One turn of the loop of [_analyze_agent_performance]. *)
Definition tally (agent_stats : gmap string AgentStats) (d : Decision)
    : gmap string AgentStats :=
  let st := default (mkAgentStats 0 0 0) (agent_stats !! agent d) in
  <[agent d :=
      if success d
      then mkAgentStats (S (st_total st)) (S (st_success st)) (st_failures st)
      else mkAgentStats (S (st_total st)) (st_success st) (S (st_failures st))]>
    agent_stats.

(** [_analyze_agent_performance] *)
Definition _analyze_agent_performance (s : JobApplicationState)
    : gmap string AgentStats :=
  foldl tally ∅ (default [] (agent_decisions s)).

(** [error_msg[:50]] (characters are bytes: ASCII text). *)
Definition error_type (e : ErrorEntry) : string :=
  String.substring 0 50 (error e).

(** [error_counts[error_type] += 1] on a dict, which keeps its keys in the
    order they were first entered in. *)
Fixpoint bump (k : string) (counts : list (string * nat))
    : list (string * nat) :=
  match counts with
  | [] => [(k, 1)]
  | (k', n) :: rest =>
      if String.eqb k' k then (k', S n) :: rest else (k', n) :: bump k rest
  end.

Definition count_errors (errs : list ErrorEntry) : list (string * nat) :=
  foldl (fun counts e => bump (error_type e) counts) [] errs.

(** [sorted(items, key=lambda x: x[1], reverse=True)]: descending by
    count, and stable. *)
Fixpoint insert_by_count (x : string * nat) (l : list (string * nat))
    : list (string * nat) :=
  match l with
  | [] => [x]
  | y :: l' =>
      if (x.2 <? y.2)%nat then y :: insert_by_count x l' else x :: l
  end.

Definition sort_by_count (l : list (string * nat)) : list (string * nat) :=
  foldr insert_by_count [] l.

(** [_identify_common_errors] *)
Definition _identify_common_errors (errs : list ErrorEntry) : list string :=
  match errs with
  | [] => []
  | _ => (take 3 (sort_by_count (count_errors errs))).*1
  end.

Section Sentiment.
Variable invoke_llm : string -> result string.
(** The text of the prompt for a feedback. *)
Variable prompt_text : string -> string.
(** [response.strip().lower()] *)
Variable strip_lower : string -> string.

(** [_analyze_feedback_sentiment] *)
Definition _analyze_feedback_sentiment (feedback : string) : string :=
  match invoke_llm (prompt_text feedback) with
  | Ok response =>
      let sentiment := strip_lower response in
      if bool_decide (sentiment ∈ ["positive"; "negative"; "neutral"])
      then sentiment
      else "neutral"
  | Raise _ => "neutral"
  end.
End Sentiment.

End LearningAgent.

(** ** workflow.py *)
Module JobApplicationWorkflow.

Inductive Node : Type :=
  | scrape | match_ | tailor | approve | apply_ | learn | supervisor.

(** Where the graph goes after a node: [END], a node, or no such edge. *)
Inductive Target : Type :=
  | END
  | To (n : Node)
  | NoEdge (key : string).

(** The mapping handed to [add_conditional_edges]. *)
Definition edge_of (next : string) : Target :=
  if String.eqb next "scrape" then To scrape
  else if String.eqb next "match" then To match_
  else if String.eqb next "tailor" then To tailor
  else if String.eqb next "approve" then To approve
  else if String.eqb next "apply" then To apply_
  else if String.eqb next "learn" then To learn
  else if String.eqb next "stop" then END
  else if String.eqb next "wait" then END
  else NoEdge next.

(** [_route_next_step] *)
Definition _route_next_step (s : JobApplicationState) : string :=
  default "stop" (next_action s).

Definition _approve_node (s : JobApplicationState) : JobApplicationState :=
  set_current_step (Some "wait") (set_approval_status (Some "pending") s).

Definition _apply_node (s : JobApplicationState) : JobApplicationState :=
  set_current_step (Some "learn")
    (set_application_status (Some "submitted") s).

Section Graph.
Variable calculate_match_score : nat -> Job -> slot Prefs -> Q * string.
Variable repr_float : Q -> string.
Variable _tailor_resume :
  string -> Job -> slot Prefs -> string * list string * string.
(** The workflow's [MatcherAgent] instance. *)
Variable matcher : MatcherAgent.Agent.

Definition run_node (n : Node) (now : Time) (s : JobApplicationState)
    : JobApplicationState :=
  match n with
  | scrape => ScraperAgent.execute now s
  | match_ =>
      MatcherAgent.execute calculate_match_score repr_float matcher now s
  | tailor => ResumeTailorAgent.execute _tailor_resume now s
  | approve => _approve_node s
  | apply_ => _apply_node s
  | learn => LearningAgent.execute now s
  | supervisor => SupervisorAgent.execute now s
  end.

(** The [try] block of the agent behind a node; the approval and the
    application nodes are plain assignments with no [try]. *)
Definition stage_body (n : Node) (now : Time) : option (M unit) :=
  match n with
  | scrape => Some (ScraperAgent.body now)
  | match_ =>
      Some (MatcherAgent.body calculate_match_score repr_float matcher now)
  | tailor => Some (ResumeTailorAgent.body _tailor_resume now)
  | learn => Some (LearningAgent.body now)
  | approve | apply_ | supervisor => None
  end.

(** The text that the agent's [except] clause puts before [str(e)], and
    the step it falls back to. *)
Definition stage_error_prefix (n : Node) : string :=
  match n with
  | scrape => "Scraper error: "
  | match_ => "Matcher error: "
  | tailor => "Resume tailor error: "
  | learn => "Learning error: "
  | approve | apply_ | supervisor => ""
  end.

Definition stage_fallback (n : Node) : string :=
  match n with
  | scrape => "match"
  | match_ => "learn"
  | tailor => "match"
  | learn => "complete"
  | approve | apply_ | supervisor => ""
  end.

(** The [except] clause of the agent behind a node, on a dict whose
    [errors] key may hold [None]:
    [add_error(state, prefix + str(e)); state["current_step"] = fallback]. *)
Definition stage_handler (n : Node) (now : Time) (e : Exn) (d : Loose)
    : result Loose :=
  match add_error_loose now (stage_error_prefix n +:+ exn_str e) d with
  | Ok d' =>
      Ok (with_typed
            (set_current_step (Some (stage_fallback n)) (typed d')) d')
  | Raise e' => Raise e'
  end.

(** The edges: every agent node leads to the supervisor, the supervisor
    to the node that [_route_next_step] names. *)
Definition successor (n : Node) (s : JobApplicationState) : Target :=
  match n with
  | supervisor => edge_of (_route_next_step s)
  | _ => To supervisor
  end.

(** The compiled graph run from node [n]: at most [limit] nodes are
    executed (the recursion limit of the graph engine), the [k]-th at
    clock reading [clock k].  The nodes executed so far are returned
    with the outcome. *)
Fixpoint run_from (limit : nat) (clock : nat -> Time) (k : nat) (n : Node)
    (s : JobApplicationState) (visited : list Node)
    : result JobApplicationState * list Node :=
  match limit with
  | O =>
      (Raise (GraphRecursionError "Recursion limit reached"), visited)
  | S limit' =>
      let s' := run_node n (clock k) s in
      let visited := visited ++ [n] in
      match successor n s' with
      | END => (Ok s', visited)
      | To n' => run_from limit' clock (S k) n' s' visited
      | NoEdge key => (Raise (KeyError key), visited)
      end
  end.

(** [graph.set_entry_point("scrape")] *)
Definition entry_point : Node := scrape.

(** [self.workflow.ainvoke(state)] *)
Definition ainvoke (limit : nat) (clock : nat -> Time)
    (s : JobApplicationState) : result JobApplicationState * list Node :=
  run_from limit clock 0 entry_point s [].

(** [run(user_id, user_preferences)] *)
Definition run (limit : nat) (clock : nat -> Time) (prefs : slot Prefs)
    : result JobApplicationState * list Node :=
  ainvoke limit (λ k, clock (S k)) (create_initial_state (clock 0%nat) prefs).

(** [resume_workflow(state)] *)
Definition resume_workflow (limit : nat) (clock : nat -> Time)
    (s : JobApplicationState) : result JobApplicationState * list Node :=
  ainvoke limit clock s.
End Graph.

End JobApplicationWorkflow.

(** ** base_agent.py *)
Module BaseAgent.

(** [add_to_memory]: the agent's [memory] list before and after. *)
Definition add_to_memory (memory : list string) (item : string)
    : list string :=
  let memory := memory ++ [item] in
  if (10 <? length memory)%nat
  then drop (length memory - 10) memory
  else memory.

(** [_wait_before_retry]: the seconds slept. *)
Definition _wait_before_retry (attempt : nat) : nat := 2 ^ attempt.

(** The loop of [retry_on_failure] over the attempts left.  The [k]-th call
    of [func] answers [func k].  The outcome comes with the seconds slept,
    in order; the value is [None] when the loop ends without a call. *)
Fixpoint retry_loop {A} (func : nat -> result A) (max_retries : nat)
    (attempts : list nat) (slept : list nat)
    : result (option A) * list nat :=
  match attempts with
  | [] => (Ok None, slept)
  | attempt :: rest =>
      match func attempt with
      | Ok a => (Ok (Some a), slept)
      | Raise e =>
          if (attempt =? max_retries - 1)%nat then (Raise e, slept)
          else retry_loop func max_retries rest
                 (slept ++ [_wait_before_retry attempt])
      end
  end.

(** [retry_on_failure(func, max_retries)] *)
Definition retry_on_failure {A} (func : nat -> result A) (max_retries : nat)
    : result (option A) * list nat :=
  retry_loop func max_retries (seq 0 max_retries) [].

End BaseAgent.

(** ** Vocabulary of the statements *)

(** The steps that [SupervisorAgent.execute] has a branch for. *)
Definition known_step (x : string) : Prop :=
  x = "scrape" \/ x = "match" \/ x = "tailor" \/ x = "approve" \/
  x = "apply" \/ x = "learn".

(** The keys that the supervisor never assigns. *)
Definition untouched_by_router (s s' : JobApplicationState) : Prop :=
  user_preferences s' = user_preferences s /\
  current_step s' = current_step s /\
  workflow_start_time s' = workflow_start_time s /\
  scraped_jobs s' = scraped_jobs s /\
  scraping_stats s' = scraping_stats s /\
  matching_scores s' = matching_scores s /\
  matching_reasoning s' = matching_reasoning s /\
  base_resume s' = base_resume s /\
  tailored_resume s' = tailored_resume s /\
  resume_changes s' = resume_changes s /\
  tailoring_reasoning s' = tailoring_reasoning s /\
  approval_status s' = approval_status s /\
  application_status s' = application_status s /\
  learning_insights s' = learning_insights s /\
  strategy_adjustments s' = strategy_adjustments s /\
  metrics s' = metrics s.

(** The supervisor took a decision at [s]: [next_action] names it, one
    entry for it is appended to the history, the errors are as they were. *)
Definition decision_recorded (now : Time) (s s' : JobApplicationState) : Prop :=
  exists next,
    next_action s' = Some next /\
    agent_decisions s' =
      Some (default [] (agent_decisions s)
            ++ [mkDecision "supervisor" ("next_action=" +:+ next)
                  ("Based on current_step="
                   +:+ default "scrape" (current_step s))
                  true now]) /\
    errors s' = errors s.

(** [s'] has the errors of [s] and one more. *)
Definition one_more_error (s s' : JobApplicationState) : Prop :=
  exists entry, errors s' = Some (default [] (errors s) ++ [entry]).

(** The length of the decision history. *)
Definition decisions_made (s : JobApplicationState) : nat :=
  length (default [] (agent_decisions s)).



(** Descending order of the sort key, and the jobs of one key value. *)
Definition desc (key : Job -> Q) (a b : Job) : Prop := (key b <= key a)%Q.

Definition with_key (key : Job -> Q) (v : Q) (l : list Job) : list Job :=
  List.filter (fun j => Qeq_bool (key j) v) l.

(** ** Sample runs *)
Module Examples.

Definition now0 : Time := "2025-01-15T09:00:00".
Definition now1 : Time := "2025-01-15T09:00:05".

Definition prefs0 : Prefs :=
  mkPrefs None (Some ["Python"]) (Some "Remote") (Some "Full-time").

(** The five jobs of the mock scraper. *)
Definition jobs5 : list Job :=
  ScraperAgent._scrape_indeed now0 ["Python"] (Some "Remote") (Some "Full-time").

Definition job (i : nat) : Job :=
  ScraperAgent.mock_job now0 ["Python"] (Some "Remote") (Some "Full-time")
    (str_nat i).

(** A fresh run: nothing scraped yet. *)
Definition fresh : JobApplicationState :=
  create_initial_state now0 (Held prefs0).

(** Five jobs scraped, eleven errors on record. *)
Definition over_budget : JobApplicationState :=
  set_errors (Some (repeat (mkErrorEntry "Scraper error: timeout" now0 "scrape") 11))
    (set_scraped_jobs (Held jobs5) fresh).

(** Two matched jobs, the first one awaiting an approval that [status]
    describes. *)
Definition at_gate (status : string) : JobApplicationState :=
  set_approval_status (Some status)
    (set_tailored_resume (Some "tailored resume")
       (set_current_job_id (Some "indeed_1")
          (set_current_job (Some (job 1))
             (set_matched_jobs (Held [job 1; job 3])
                (set_scraped_jobs (Held jobs5)
                   (set_current_step (Some "approve") fresh)))))).

(** The application for job 1 has just been sent. *)
Definition applied : JobApplicationState :=
  set_current_step (Some "apply")
    (set_application_status (Some "submitted") (at_gate "approved")).

(** A state whose [scraped_jobs] key holds [None]. *)
Definition null_jobs : JobApplicationState :=
  set_scraped_jobs Null fresh.

(** A caller that passed [None] for the preferences. *)
Definition null_prefs : JobApplicationState :=
  create_initial_state now0 Null.

(** Five jobs scraped, none scored yet. *)
Definition scraped5 : JobApplicationState :=
  set_current_step (Some "match") (set_scraped_jobs (Held jobs5) fresh).

(** The LLM scores the five jobs 0.9, 0.3, 0.75, 0.6 and 0.1. *)
Definition scores_A (n : nat) (_ : Job) (_ : slot Prefs) : Q * string :=
  (nth n [9 # 10; 3 # 10; 75 # 100; 6 # 10; 1 # 10]%Q 0%Q, "scored by the LLM").

Definition repr0 (_ : Q) : string := "0.7".

Definition tailor0 (resume : string) (_ : Job) (_ : slot Prefs)
    : string * list string * string :=
  (resume +:+ " (tailored)", ["Reordered the skills"],
   "Resume tailored to match job requirements").

(** Ten jobs scraped, none matched. *)
Definition rejected_all : JobApplicationState :=
  set_matched_jobs (Held [])
    (set_scraped_jobs (Held (map job (seq 1 10))) fresh).

(** Twenty jobs scraped, one matched. *)
Definition one_of_twenty : JobApplicationState :=
  set_matched_jobs (Held [job 1])
    (set_scraped_jobs (Held (map job (seq 1 20))) fresh).

(** A run that stopped on ["wait"]: job 1 tailored, approval pending. *)
Definition base_resume0 : string := "base resume".

Definition suspended : JobApplicationState :=
  set_next_action (Some "wait")
    (set_base_resume (Some base_resume0) (at_gate "pending")).

(** The supervisor's answer to the expired approval of job 1, and the
    matcher's next pass over the five jobs. *)
Definition after_expiry : JobApplicationState :=
  SupervisorAgent.execute now1 (at_gate "expired").

Definition rescored : JobApplicationState :=
  MatcherAgent.execute scores_A repr0 MatcherAgent.init now1 after_expiry.

(** [resume_workflow] of the sample workflow, the engine's limit at 25. *)
Definition resumed (s : JobApplicationState)
    : result JobApplicationState * list JobApplicationWorkflow.Node :=
  JobApplicationWorkflow.resume_workflow scores_A repr0 tailor0
    MatcherAgent.init 25 (fun _ => now1) s.

(** The state that a run ended in (the state it started from if the
    engine gave up). *)
Definition final_state (r : result JobApplicationState
                            * list JobApplicationWorkflow.Node)
    (start : JobApplicationState) : JobApplicationState :=
  match r.1 with
  | Ok s => s
  | Raise _ => start
  end.

(** The run ended on [END], not on an exception. *)
Definition ended (r : result JobApplicationState
                      * list JobApplicationWorkflow.Node) : bool :=
  match r.1 with
  | Ok _ => true
  | Raise _ => false
  end.

Definition resumed_once : JobApplicationState :=
  final_state (resumed suspended) suspended.

Definition resumed_twice : JobApplicationState :=
  final_state (resumed resumed_once) resumed_once.


Definition get_of_none : Exn :=
  AttributeError "'NoneType' object has no attribute 'get'".

End Examples.

(** ** Vocabulary of the statements about the helpers and the graph *)

(** The urls of a list of jobs, in order; a job without the key has none. *)
Definition job_urls (jobs : list Job) : list string :=
  omap (fun j : Job => j !! "url") jobs.

(** What the loop of [deduplicate_jobs] maintains on
    [(seen_urls, unique_jobs)] after it has gone through [jobs]. *)
Definition dedup_invariant (jobs : list Job) (acc : gset string * list Job)
    : Prop :=
  acc.1 = list_to_set (job_urls acc.2) /\
  sublist acc.2 jobs /\
  NoDup (job_urls acc.2) /\
  Forall (fun j => ScraperAgent.truthy_field j "url" = true) acc.2 /\
  (forall j, j ∈ jobs -> ScraperAgent.truthy_field j "url" = true ->
     exists j', j' ∈ acc.2 /\ j' !! "url" = j !! "url").

(** The ids of a list of jobs, in order. *)
Definition job_ids (jobs : list Job) : list (option string) :=
  job_get_id <$> jobs.

(** The recorded score of a job reaches the threshold. *)
Definition over_threshold (scores : gmap (option string) Q) (thr : Q) (j : Job)
    : bool :=
  MatcherAgent.ge_threshold (MatcherAgent.score_of scores j) thr.

(** [not scraped_jobs]: the key is missing, or holds [None] or []. *)
Definition no_scraped_jobs (s : JobApplicationState) : Prop :=
  match slot_get (scraped_jobs s) [] with
  | Some (_ :: _) => False
  | _ => True
  end.

(** [state.get("matched_jobs", [])] is the empty list. *)
Definition nothing_matched (s : JobApplicationState) : Prop :=
  slot_get (matched_jobs s) [] = Some [].

(** [x is None] for a key of the state. *)
Definition is_null {A} (x : slot A) : bool :=
  match x with Null => true | _ => false end.

(** The supervisor's answer at the match step, as a function of
    [matched_jobs], and its answer at the approval step, as a function of
    [approval_status]. *)
Definition route_at_match (s : JobApplicationState) : string :=
  match matched_jobs s with
  | Null => "stop"
  | Absent | Held [] => "learn"
  | Held (_ :: _) => "tailor"
  end.

Definition route_at_approve (s : JobApplicationState) : string :=
  if str_is (approval_status s) "approved" then "apply"
  else if str_is (approval_status s) "rejected" then "learn"
  else if str_is (approval_status s) "expired" then "match"
  else "wait".

(** A log ([errors], [agent_decisions]) that was only appended to. *)
Definition grows {A} (before after : option (list A)) : Prop :=
  default [] before `prefix_of` default [] after.

Definition history_kept (s s' : JobApplicationState) : Prop :=
  grows (errors s) (errors s') /\
  grows (agent_decisions s) (agent_decisions s').

(** The keys of the mapping handed to [add_conditional_edges]. *)
Definition known_action (a : string) : Prop :=
  a ∈ ["scrape"; "match"; "tailor"; "approve"; "apply"; "learn"; "stop";
       "wait"].

(** The graph engine gave up. *)
Definition limit_reached : result JobApplicationState :=
  Raise (GraphRecursionError "Recursion limit reached").

(** The decisions of one agent, and the stats that a list of decisions adds
    up to ([None]: the agent has no entry). *)
Definition decisions_of (a : string) (ds : list Decision) : list Decision :=
  List.filter (fun d => String.eqb (agent d) a) ds.

Definition stats_of (ds : list Decision) : option LearningAgent.AgentStats :=
  match ds with
  | [] => None
  | _ =>
      Some (LearningAgent.mkAgentStats (length ds)
              (length (List.filter success ds))
              (length (List.filter (fun d => negb (success d)) ds)))
  end.

(** How many of [errs] have the error type [t]. *)
Definition occurrences (t : string) (errs : list ErrorEntry) : nat :=
  length
    (List.filter (fun e => String.eqb (LearningAgent.error_type e) t) errs).

(** [error_counts.get(k, 0)] *)
Fixpoint count_of (k : string) (counts : list (string * nat)) : nat :=
  match counts with
  | [] => 0
  | (k', n) :: rest => if String.eqb k' k then n else count_of k rest
  end.

Definition by_count_desc (x y : string * nat) : Prop := y.2 <= x.2.

(** [l[-n:]] for a positive [n]. *)
Definition last_items {A} (n : nat) (l : list A) : list A :=
  drop (length l - n) l.

(** The seconds slept before each of the retries that follow [k] failed
    attempts. *)
Definition waits (k : nat) : list nat :=
  BaseAgent._wait_before_retry <$> seq 0 k.

(** Matched jobs are never there without scraped jobs: [matched_jobs] is a
    list, and it is empty wherever [scraped_jobs] is. *)
Definition matched_where_scraped (s : JobApplicationState) : Prop :=
  match slot_get (matched_jobs s) [] with
  | None => False
  | Some [] => True
  | Some (_ :: _) => exists j l, scraped_jobs s = Held (j :: l)
  end.

Section Reachable.
Variable calculate_match_score : nat -> Job -> slot Prefs -> Q * string.
Variable repr_float : Q -> string.
Variable _tailor_resume :
  string -> Job -> slot Prefs -> string * list string * string.

(** The states of a run.  A run starts on a state that
    [create_initial_state] built; every node of the graph, whatever the
    matcher's threshold at the time, takes a state of a run to a state of
    a run; and between two runs [approval_status] and [base_resume] are
    written from outside. *)
Inductive in_a_run : JobApplicationState -> Prop :=
  | run_starts now prefs : in_a_run (create_initial_state now prefs)
  | node_runs matcher n now s :
      in_a_run s ->
      in_a_run (JobApplicationWorkflow.run_node calculate_match_score
                  repr_float _tailor_resume matcher n now s)
  | gate_answers status s : in_a_run s -> in_a_run (set_approval_status status s)
  | resume_uploaded resume s : in_a_run s -> in_a_run (set_base_resume resume s).
End Reachable.

(** The number of entries in the two logs of the state. *)
Definition log_size (s : JobApplicationState) : nat :=
  decisions_made s + length (default [] (errors s)).

(** A run that waits for an approval: the approval is pending, there is a
    current job and a list of matched jobs with a job in it, and a base
    resume and the metrics are on file. *)
Definition suspended_pending (s : JobApplicationState) : Prop :=
  approval_status s = Some "pending" /\
  truthy_job (current_job s) = true /\
  truthy_str (base_resume s) = true /\
  match matched_jobs s with Held (_ :: _) => True | _ => False end /\
  metrics s <> Null.

(** ** Sample inputs for the helpers *)
Module Samples.

(** An LLM client that is down. *)
Definition connection_error : Exn := KeyError "GROQ_API_KEY".

Definition llm_down (_ : nat) (_ : string) : result string :=
  Raise connection_error.

Definition llm_down_once (_ : string) : result string :=
  Raise connection_error.

Definition matching_prompt (_ : Job) (_ : Prefs) : string :=
  "Rate this job for the candidate".

Definition tailoring_prompt (_ : string) (_ : Job) : string :=
  "Tailor this resume for the job".

Definition parse_score (_ : string) : Q * string :=
  ((5 # 10)%Q, "Unable to parse LLM response").

Definition parse_resume (response : string) : string * list string * string :=
  (response, ["Resume customized for job"],
   "Resume tailored to match job requirements").

(** A call that fails twice and then answers. *)
Definition flaky (k : nat) : result string :=
  if (k <? 2)%nat then Raise connection_error else Ok "answer".

(** A call that fails every time. *)
Definition failing (_ : nat) : result string := Raise connection_error.

(** The sample job 1 is current, a base resume is on file. *)
Definition ready_to_tailor : JobApplicationState :=
  set_current_step (Some "tailor") Examples.suspended.

(** Jobs 1 and 3 matched in an earlier pass, none of them current yet. *)
Definition matched_unassigned : JobApplicationState :=
  set_matched_jobs (Held [Examples.job 1; Examples.job 3])
    (set_scraped_jobs (Held Examples.jobs5) Examples.fresh).



End Samples.

(** * Properties *)

Ltac unfold_m :=
  unfold mbind, M_bind, mret, M_ret, get, modify, lift, attempt in *.

(** An equation between closed terms, settled by evaluating both sides. *)
Ltac by_evaluation :=
  match goal with
  | |- ?a = ?b => vm_cast_no_check (@eq_refl _ b)
  end.

(** ** The supervisor, branch by branch *)
Section SupervisorFacts.
Import SupervisorAgent.

Lemma decide_scrape now s :
  default "scrape" (current_step s) = "scrape" ->
  decide now s =
    match scraped_jobs s with
    | Null => (Raise (TypeError "object of type 'NoneType' has no len()"), s)
    | Absent | Held [] => (Ok tt, record_decision now "stop" "scrape" s)
    | Held (_ :: _) => (Ok tt, record_decision now "match" "scrape" s)
    end.
Proof.
  intros Hs. unfold decide, _decide_after_scrape. unfold_m. rewrite Hs. simpl.
  destruct (scraped_jobs s) as [| |[|j l]]; reflexivity.
Qed.

Lemma decide_match now s :
  current_step s = Some "match" ->
  decide now s =
    match matched_jobs s with
    | Null => (Raise (TypeError "object of type 'NoneType' has no len()"), s)
    | Absent | Held [] => (Ok tt, record_decision now "learn" "match" s)
    | Held (j :: _) =>
        if truthy_job (current_job s)
        then (Ok tt, record_decision now "tailor" "match" s)
        else (Ok tt, record_decision now "tailor" "match"
                       (set_current_job_id (job_get_id j)
                          (set_current_job (Some j) s)))
    end.
Proof.
  intros Hs. unfold decide, _decide_after_match. unfold_m. rewrite Hs. simpl.
  destruct (matched_jobs s) as [| |[|j l]]; try reflexivity. simpl.
  destruct (truthy_job (current_job s)); reflexivity.
Qed.

Lemma decide_tailor now s :
  current_step s = Some "tailor" ->
  decide now s =
    (Ok tt, record_decision now
              (if truthy_str (tailored_resume s) then "approve" else "match")
              "tailor" s).
Proof.
  intros Hs. unfold decide, _decide_after_tailor. unfold_m. rewrite Hs. simpl.
  destruct (truthy_str (tailored_resume s)); reflexivity.
Qed.

Lemma decide_approve now s :
  current_step s = Some "approve" ->
  decide now s =
    (Ok tt, record_decision now
              (if str_is (approval_status s) "approved" then "apply"
               else if str_is (approval_status s) "rejected" then "learn"
               else if str_is (approval_status s) "expired" then "match"
               else "wait")
              "approve" s).
Proof.
  intros Hs. unfold decide, _decide_after_approval. unfold_m. rewrite Hs. simpl.
  repeat (destruct (str_is (approval_status s) _); [reflexivity|]).
  reflexivity.
Qed.

Lemma decide_apply now s :
  current_step s = Some "apply" ->
  decide now s =
    match slot_get (matched_jobs s) [] with
    | None => (Raise (TypeError "'NoneType' object is not iterable"), s)
    | Some js =>
        let remaining := filter (λ j, job_get_id j ≠ current_job_id s) js in
        (Ok tt, record_decision now
                  (if (0 <? length remaining)%nat then "match" else "learn")
                  "apply"
                  (set_current_job_id None
                     (set_current_job None
                        (set_matched_jobs (Held remaining) s))))
    end.
Proof.
  intros Hs. unfold decide, _decide_after_apply. unfold_m. rewrite Hs. simpl.
  destruct (matched_jobs s) as [| |js]; simpl; try reflexivity.
  destruct (0 <? _)%nat; reflexivity.
Qed.

Lemma decide_learn now s :
  current_step s = Some "learn" ->
  decide now s = (Ok tt, record_decision now "stop" "learn" s).
Proof.
  intros Hs. unfold decide, _decide_after_learn. unfold_m. rewrite Hs.
  reflexivity.
Qed.

Lemma decide_other now s x :
  current_step s = Some x -> ~ known_step x ->
  decide now s = (Ok tt, record_decision now "scrape" x s).
Proof.
  intros Hs Hx. unfold decide. unfold_m. rewrite Hs. simpl.
  repeat match goal with
  | |- context [String.eqb x ?v] =>
      destruct (String.eqb_spec x v) as [->|_];
        [exfalso; apply Hx; unfold known_step; tauto|]
  end. reflexivity.
Qed.

Lemma step_cases (s : JobApplicationState) :
  default "scrape" (current_step s) = "scrape" \/
  current_step s = Some "match" \/ current_step s = Some "tailor" \/
  current_step s = Some "approve" \/ current_step s = Some "apply" \/
  current_step s = Some "learn" \/
  exists x, current_step s = Some x /\ ~ known_step x.
Proof.
  destruct (current_step s) as [x|]; [|left; reflexivity].
  destruct (String.eqb_spec x "scrape") as [->|?]; [left; reflexivity|].
  destruct (String.eqb_spec x "match") as [->|?]; [tauto|].
  destruct (String.eqb_spec x "tailor") as [->|?]; [tauto|].
  destruct (String.eqb_spec x "approve") as [->|?]; [tauto|].
  destruct (String.eqb_spec x "apply") as [->|?]; [tauto|].
  destruct (String.eqb_spec x "learn") as [->|?]; [tauto|].
  do 6 right. exists x. split; [reflexivity|]. unfold known_step. tauto.
Qed.
End SupervisorFacts.

Ltac by_step s H :=
  let x := fresh "x" in
  let Hx := fresh "Hx" in
  destruct (step_cases s) as [H|[H|[H|[H|[H|[H|(x & H & Hx)]]]]]];
  unfold SupervisorAgent.execute, try_except;
  [ rewrite !(decide_scrape _ s H)
  | rewrite !(decide_match _ s H)
  | rewrite !(decide_tailor _ s H)
  | rewrite !(decide_approve _ s H)
  | rewrite !(decide_apply _ s H)
  | rewrite !(decide_learn _ s H)
  | rewrite !(decide_other _ s x H Hx) ].

(** ** What the supervisor reads and writes *)
Section SupervisorFrame.
Import SupervisorAgent.

Lemma execute_untouched now s : untouched_by_router s (execute now s).
Proof.
  by_step s H; unfold untouched_by_router.
  - destruct (scraped_jobs s) as [| |[|j l]] eqn:E; simpl; rewrite ?E; tauto.
  - destruct (matched_jobs s) as [| |[|j l]]; try destruct (truthy_job _);
      simpl; tauto.
  - simpl; tauto.
  - simpl; tauto.
  - destruct (matched_jobs s) as [| |l]; simpl; tauto.
  - simpl; tauto.
  - simpl; tauto.
Qed.

Lemma next_action_ignores_clock now now' s :
  next_action (execute now' s) = next_action (execute now s).
Proof.
  by_step s H; try reflexivity.
  - destruct (scraped_jobs s) as [| |[|j l]]; reflexivity.
  - destruct (matched_jobs s) as [| |[|j l]]; try destruct (truthy_job _);
      reflexivity.
  - destruct (matched_jobs s) as [| |l]; reflexivity.
Qed.

Lemma next_action_ignores_errors now s errs :
  next_action (execute now (set_errors errs s)) = next_action (execute now s).
Proof.
  by_step s H.
  - rewrite (decide_scrape now (set_errors errs s)) by exact H. simpl.
    destruct (scraped_jobs s) as [| |[|j l]]; reflexivity.
  - rewrite (decide_match now (set_errors errs s)) by exact H. simpl.
    destruct (matched_jobs s) as [| |[|j l]]; try reflexivity.
    destruct (truthy_job _); reflexivity.
  - rewrite (decide_tailor now (set_errors errs s)) by exact H. reflexivity.
  - rewrite (decide_approve now (set_errors errs s)) by exact H. reflexivity.
  - rewrite (decide_apply now (set_errors errs s)) by exact H. simpl.
    destruct (matched_jobs s) as [| |l]; reflexivity.
  - rewrite (decide_learn now (set_errors errs s)) by exact H. reflexivity.
  - rewrite (decide_other now (set_errors errs s) x) by assumption.
    reflexivity.
Qed.

Ltac recorded H :=
  left; eexists; split; [reflexivity|split; [|reflexivity]];
  simpl; rewrite ?H; reflexivity.

Lemma execute_outcome now s :
  decision_recorded now s (execute now s) \/
  exists e, decide now s = (Raise e, s) /\ execute now s = on_error now e s.
Proof.
  by_step s H; unfold decision_recorded; try recorded H.
  - destruct (scraped_jobs s) as [| |[|j l]]; try recorded H.
    right. eexists; split; reflexivity.
  - destruct (matched_jobs s) as [| |[|j l]]; try destruct (truthy_job _);
      try recorded H.
    right. eexists; split; reflexivity.
  - destruct (matched_jobs s) as [| |l]; try recorded H.
    right. eexists; split; reflexivity.
Qed.



Lemma expired_gate_keeps_candidate now s :
  current_step s = Some "approve" -> approval_status s = Some "expired" ->
  execute now s = record_decision now "match" "approve" s.
Proof.
  intros H E. unfold execute, try_except.
  rewrite (decide_approve now s H), E. reflexivity.
Qed.

Lemma current_job_is_sticky s r s' :
  truthy_job (current_job s) = true ->
  _decide_after_match s = (r, s') -> s' = s.
Proof.
  intros T. unfold _decide_after_match. unfold_m. rewrite T.
  destruct (matched_jobs s) as [| |[|j l]]; simpl; intros [= <- <-];
    reflexivity.
Qed.
End SupervisorFrame.

(** The budget check as written: more than ten errors, and the answer is
    [False] whatever else the state holds. *)
Lemma should_continue_stops_over_budget s :
  10 < length (default [] (errors s)) ->
  SupervisorAgent.should_continue_workflow s = Ok false.
Proof.
  intros H. unfold SupervisorAgent.should_continue_workflow.
  destruct (Nat.ltb_spec 10 (length (default [] (errors s)))); [reflexivity|].
  lia.
Qed.

(** C3.  The supervisor's decision does not depend on the recorded errors:
    replacing the [errors] list by any other leaves [next_action] as it
    was.  With eleven errors on record and five scraped jobs,
    [should_continue_workflow] answers [False], yet [execute] decides
    ["match"], not ["stop"]. *)
Theorem error_budget_not_consulted :
  (forall now s errs,
     next_action (SupervisorAgent.execute now (set_errors errs s))
     = next_action (SupervisorAgent.execute now s)) /\
  length (default [] (errors Examples.over_budget)) = 11 /\
  SupervisorAgent.should_continue_workflow Examples.over_budget = Ok false /\
  next_action (SupervisorAgent.execute Examples.now1 Examples.over_budget)
    = Some "match".
Proof.
  split; [exact next_action_ignores_errors|]. repeat split; reflexivity.
Qed.

(** ** A failing decision *)
Section LooseFacts.
Import SupervisorAgent.

(** On a dict whose two logs are lists (or missing), the loose [execute]
    is the typed one. *)
Lemma try_block_typed now d :
  decisions_none d = false ->
  try_block now d = ((decide now (typed d)).1,
                     with_typed (decide now (typed d)).2 d).
Proof.
  intros Hd. unfold try_block, decide, add_agent_decision_loose,
    record_decision. unfold_m.
  cbv beta iota. cbn [typed fst snd].
  match goal with
  | |- context [match ?b (typed d) with _ => _ end] =>
      destruct (b (typed d)) as [[next|e] s1]
  end; simpl; [|reflexivity].
  rewrite Hd. reflexivity.
Qed.

Lemma execute_loose_typed now d :
  errors_none d = false -> decisions_none d = false ->
  execute_loose now d = Ok (with_typed (execute now (typed d)) d).
Proof.
  intros He Hd. unfold execute_loose, execute, try_except.
  rewrite (try_block_typed now d Hd).
  destruct (decide now (typed d)) as [[[]|e] s1]; simpl; [reflexivity|].
  unfold add_error_loose, on_error. simpl. rewrite He. reflexivity.
Qed.

End LooseFacts.




(** C6, as stated, fails: behind the scrape node, with matched jobs from
    an earlier pass and no current job, the supervisor makes the first
    matched job the current one. *)
Lemma router_picks_a_candidate :
  let s := ScraperAgent.execute Examples.now1 Samples.matched_unassigned in
  current_step s = Some "match" /\
  current_job s = None /\ current_job_id s = None /\
  current_job (SupervisorAgent.execute Examples.now1 s)
    = Some (Examples.job 1) /\
  current_job_id (SupervisorAgent.execute Examples.now1 s) = Some "indeed_1" /\
  current_job (SupervisorAgent.execute Examples.now1 s) <> current_job s /\
  current_job_id (SupervisorAgent.execute Examples.now1 s)
    <> current_job_id s.
Proof.
  intros s. subst s.
  split; [by_evaluation|]. split; [by_evaluation|]. split; [by_evaluation|].
  assert (E1 : current_job
                 (SupervisorAgent.execute Examples.now1
                    (ScraperAgent.execute Examples.now1
                       Samples.matched_unassigned))
               = Some (Examples.job 1)) by by_evaluation.
  assert (E2 : current_job_id
                 (SupervisorAgent.execute Examples.now1
                    (ScraperAgent.execute Examples.now1
                       Samples.matched_unassigned))
               = Some "indeed_1") by by_evaluation.
  assert (E3 : current_job (ScraperAgent.execute Examples.now1
                              Samples.matched_unassigned) = None)
    by by_evaluation.
  assert (E4 : current_job_id (ScraperAgent.execute Examples.now1
                                 Samples.matched_unassigned) = None)
    by by_evaluation.
  split; [exact E1|]. split; [exact E2|].
  rewrite E1, E2, E3, E4. split; discriminate.
Qed.

(** C6, amended.  [execute] is a function of the state and the clock, and
    its decision does not depend on the clock.  It assigns [next_action]
    and appends one entry to the decision history (or, when the decision
    logic raises, appends one error and decides ["stop"]).  Beyond that it
    writes the candidate keys, in two branches.  At the match step, with a
    matched job and no current job, it sets [current_job] to the first
    matched job and [current_job_id] to that job's id; with a current job,
    or with no matched job, it leaves both.  At the apply step it sets
    [matched_jobs] to the jobs whose id is not the current job's and
    clears [current_job] and [current_job_id].  At every other step the
    three keys are as before, and every other key keeps its value at every
    step. *)
Theorem execute_side_effects now s :
  let s' := SupervisorAgent.execute now s in
  untouched_by_router s s' /\
  (forall now', next_action (SupervisorAgent.execute now' s) = next_action s') /\
  (decision_recorded now s s' \/
   exists e, SupervisorAgent.decide now s = (Raise e, s) /\
     s' = SupervisorAgent.on_error now e s) /\
  (current_step s <> Some "apply" -> matched_jobs s' = matched_jobs s) /\
  (current_step s <> Some "apply" -> current_step s <> Some "match" ->
   current_job s' = current_job s /\ current_job_id s' = current_job_id s) /\
  (current_step s = Some "match" ->
   match matched_jobs s with
   | Held (j :: _) =>
       if truthy_job (current_job s)
       then current_job s' = current_job s /\
            current_job_id s' = current_job_id s
       else current_job s' = Some j /\ current_job_id s' = job_get_id j
   | _ => current_job s' = current_job s /\
          current_job_id s' = current_job_id s
   end) /\
  (current_step s = Some "apply" ->
   match slot_get (matched_jobs s) [] with
   | Some js =>
       matched_jobs s' =
         Held (filter (λ j, job_get_id j ≠ current_job_id s) js) /\
       current_job s' = None /\ current_job_id s' = None
   | None =>
       matched_jobs s' = matched_jobs s /\
       current_job s' = current_job s /\ current_job_id s' = current_job_id s
   end).
Proof.
  intros s'. subst s'.
  split; [apply execute_untouched|].
  split; [intros now'; apply next_action_ignores_clock|].
  split; [apply execute_outcome|].
  by_step s H.
  - assert (current_step s <> Some "match" /\ current_step s <> Some "apply")
      as [N1 N2].
    { destruct (current_step s) as [x|]; simpl in H; subst; split;
        discriminate. }
    destruct (scraped_jobs s) as [| |[|j l]]; simpl; repeat split; tauto.
  - destruct (matched_jobs s) as [| |[|j l]] eqn:E;
      try destruct (truthy_job _) eqn:T;
      simpl; rewrite ?E; repeat split; try tauto; try congruence.
  - simpl; repeat split; try tauto; congruence.
  - simpl; repeat split; try tauto; congruence.
  - destruct (matched_jobs s) as [| |l] eqn:E; simpl; rewrite ?E;
      repeat split; try tauto; try congruence.
  - simpl; repeat split; try tauto; congruence.
  - assert (x <> "match" /\ x <> "apply") as [N1 N2].
    { unfold known_step in Hx. split; intros ->; tauto. }
    simpl; repeat split; try tauto; congruence.
Qed.

(** C5.  On an expired approval the supervisor decides ["match"], but it
    leaves job 1 as the current job and in [matched_jobs].  The matcher's
    next pass lists job 1 first again; [_decide_after_match] then keeps
    job 1 as the current job and sends it to tailoring, and so does
    [execute] on the state as the matcher left it: the expired candidate
    is not excluded. *)
Theorem expired_candidate_is_selected_again :
  next_action Examples.after_expiry = Some "match" /\
  current_job Examples.after_expiry = Some (Examples.job 1) /\
  matched_jobs Examples.after_expiry
    = Held [Examples.job 1; Examples.job 3] /\
  matched_jobs Examples.rescored = Held [Examples.job 1; Examples.job 3] /\
  current_job Examples.rescored = Some (Examples.job 1) /\
  SupervisorAgent._decide_after_match Examples.rescored
    = (Ok "tailor", Examples.rescored) /\
  current_job (SupervisorAgent.execute Examples.now1 Examples.rescored)
    = Some (Examples.job 1) /\
  current_job_id (SupervisorAgent.execute Examples.now1 Examples.rescored)
    = Some "indeed_1".
Proof.
  repeat split; by_evaluation.
Qed.

(** ** Suspension and resumption *)

(** C4, as stated, fails: [resume_workflow] on a run suspended with the
    approval pending starts at the scrape node and goes through
    scrape, supervisor, tailor, supervisor.  Both of two resumptions in a
    row end normally on ["wait"], and each adds four entries to the
    decision history, so the state differs after each. *)
Lemma resume_restarts_at_scrape :
  let path :=
    [JobApplicationWorkflow.scrape; JobApplicationWorkflow.supervisor;
     JobApplicationWorkflow.tailor; JobApplicationWorkflow.supervisor] in
  let s0 := Examples.suspended in
  let s1 := Examples.resumed_once in
  let s2 := Examples.resumed_twice in
  approval_status s0 = Some "pending" /\
  (Examples.resumed s0).2 = path /\ (Examples.resumed s1).2 = path /\
  Examples.ended (Examples.resumed s0) = true /\
  Examples.ended (Examples.resumed s1) = true /\
  next_action s1 = Some "wait" /\ next_action s2 = Some "wait" /\
  approval_status s1 = Some "pending" /\
  decisions_made s0 = 0 /\ decisions_made s1 = 4 /\ decisions_made s2 = 8 /\
  s1 <> s0 /\ s2 <> s1.
Proof.
  intros path s0 s1 s2. subst path s0 s1 s2.
  assert (D0 : decisions_made Examples.suspended = 0) by by_evaluation.
  assert (D1 : decisions_made Examples.resumed_once = 4) by by_evaluation.
  assert (D2 : decisions_made Examples.resumed_twice = 8) by by_evaluation.
  split; [by_evaluation|]. split; [by_evaluation|]. split; [by_evaluation|].
  split; [by_evaluation|]. split; [by_evaluation|]. split; [by_evaluation|].
  split; [by_evaluation|]. split; [by_evaluation|].
  split; [exact D0|]. split; [exact D1|]. split; [exact D2|].
  split; intros C; apply (f_equal decisions_made) in C; congruence.
Qed.

(** ** The matcher's order *)
Section SortFacts.
Variable key : Job -> Q.

Lemma insert_desc_perm x l :
  Permutation (MatcherAgent.insert_desc key x l) (x :: l).
Proof.
  induction l as [|y l IH]; simpl; [reflexivity|].
  destruct (Qlt_le_dec (key x) (key y)); [|reflexivity].
  rewrite IH. apply perm_swap.
Qed.

Lemma sort_desc_perm l : Permutation (MatcherAgent.sort_desc key l) l.
Proof.
  induction l as [|x l IH]; simpl; [reflexivity|].
  unfold MatcherAgent.sort_desc in *. simpl.
  rewrite insert_desc_perm. now rewrite IH.
Qed.

Lemma insert_desc_sorted x l :
  StronglySorted (desc key) l ->
  StronglySorted (desc key) (MatcherAgent.insert_desc key x l).
Proof.
  induction 1 as [|y l Hl IH Hy]; simpl.
  - repeat constructor.
  - destruct (Qlt_le_dec (key x) (key y)) as [Hlt|Hle].
    + constructor; [exact IH|].
      rewrite Forall_forall. intros z Hz.
      rewrite insert_desc_perm in Hz. apply elem_of_cons in Hz.
      destruct Hz as [->|Hz].
      * unfold desc. apply Qlt_le_weak, Hlt.
      * rewrite Forall_forall in Hy. now apply Hy.
    + constructor; [constructor; assumption|].
      constructor; [exact Hle|].
      eapply Forall_impl; [exact Hy|]. unfold desc. intros z Hz.
      eapply Qle_trans; eassumption.
Qed.

(** The sorted list is in descending order of the key. *)
Lemma sort_desc_sorted l :
  StronglySorted (desc key) (MatcherAgent.sort_desc key l).
Proof.
  induction l as [|x l IH]; [constructor|].
  unfold MatcherAgent.sort_desc in *; simpl. now apply insert_desc_sorted.
Qed.

Lemma insert_desc_stable v x l :
  with_key key v (MatcherAgent.insert_desc key x l) = with_key key v (x :: l).
Proof.
  induction l as [|y l IH]; [reflexivity|]. simpl.
  destruct (Qlt_le_dec (key x) (key y)) as [Hlt|Hle]; [|reflexivity].
  unfold with_key in *. simpl in *. rewrite IH.
  destruct (Qeq_bool (key x) v) eqn:Ex; [|reflexivity].
  destruct (Qeq_bool (key y) v) eqn:Ey; [|reflexivity].
  apply Qeq_bool_iff in Ex, Ey. rewrite Ex, Ey in Hlt.
  exfalso. revert Hlt. apply Qlt_irrefl.
Qed.

(** The sort is stable: the jobs of any one score keep their order. *)
Lemma sort_desc_stable v l :
  with_key key v (MatcherAgent.sort_desc key l) = with_key key v l.
Proof.
  induction l as [|x l IH]; [reflexivity|].
  unfold MatcherAgent.sort_desc in *; simpl. rewrite insert_desc_stable.
  unfold with_key in *. simpl. now rewrite IH.
Qed.
End SortFacts.

Lemma ge_threshold_eq sc thr v :
  (sc == v)%Q -> MatcherAgent.ge_threshold sc thr = Qle_bool thr v.
Proof.
  intros E. unfold MatcherAgent.ge_threshold.
  destruct (Qle_bool thr v) eqn:Hv.
  - apply Qle_bool_iff. rewrite E. now apply Qle_bool_iff.
  - destruct (Qle_bool thr sc) eqn:Hs; [|reflexivity].
    apply Qle_bool_iff in Hs. rewrite E in Hs. apply Qle_bool_iff in Hs.
    congruence.
Qed.

Section MatcherFacts.
Import MatcherAgent.
Variable calc : nat -> Job -> slot Prefs -> Q * string.
Variable repr : Q -> string.

(** The loop enters the score of every job it keeps, so the sort key of a
    matched job is always found in the dict. *)
Lemma match_loop_covers thr prefs jobs : forall n m sc rs m' sc' rs',
  match_loop calc thr prefs n jobs (m, sc, rs) = (m', sc', rs') ->
  Forall (fun j => is_Some (sc !! job_get_id j)) m ->
  Forall (fun j => is_Some (sc' !! job_get_id j)) m'.
Proof.
  induction jobs as [|job rest IH]; intros n m sc rs m' sc' rs' Hloop Hm.
  - simpl in Hloop. injection Hloop as <- <- <-. exact Hm.
  - simpl in Hloop. destruct (calc n job prefs) as [score why].
    eapply IH; [exact Hloop|].
    assert (Hm' : Forall
              (fun j => is_Some (<[job_get_id job:=score]> sc !! job_get_id j))
              m).
    { eapply Forall_impl; [exact Hm|]. intros j Hj. simpl in *.
      apply lookup_insert_is_Some'. right. exact Hj. }
    destruct (ge_threshold score thr); [|exact Hm'].
    apply Forall_app. split; [exact Hm'|].
    constructor; [|constructor].
    apply lookup_insert_is_Some'. left. reflexivity.
Qed.

(** What [execute] leaves in the state when there are jobs to score; the
    matched jobs are in place even if a metrics update fails later. *)
Lemma execute_matching self now s j jobs matched scores reasons :
  slot_get (scraped_jobs s) [] = Some (j :: jobs) ->
  match_loop calc (min_score_threshold self) (user_preferences s) 0
    (j :: jobs) ([], ∅, ∅) = (matched, scores, reasons) ->
  let s' := execute calc repr self now s in
  matched_jobs s' = Held (sort_desc (score_of scores) matched) /\
  matching_scores s' = Some scores /\
  matching_reasoning s' = Some reasons /\
  current_job s' = current_job s /\
  current_job_id s' = current_job_id s /\
  scraped_jobs s' = scraped_jobs s.
Proof.
  intros Hjobs Hloop. unfold execute, try_except, body. unfold_m.
  rewrite Hjobs. unfold body_matching. unfold_m. rewrite Hloop.
  unfold update_metrics. simpl.
  destruct (metrics s); simpl; repeat split; reflexivity.
Qed.

(** After any pass of the matcher over a non-empty list, [matched_jobs]
    holds the kept jobs in descending order of their recorded score, jobs
    of equal score in the order they were scraped in. *)
Lemma execute_matched_in_order self now s j jobs matched scores reasons :
  slot_get (scraped_jobs s) [] = Some (j :: jobs) ->
  match_loop calc (min_score_threshold self) (user_preferences s) 0
    (j :: jobs) ([], ∅, ∅) = (matched, scores, reasons) ->
  exists l,
    matched_jobs (execute calc repr self now s) = Held l /\
    Permutation l matched /\
    StronglySorted (desc (score_of scores)) l /\
    forall v, with_key (score_of scores) v l
              = with_key (score_of scores) v matched.
Proof.
  intros Hjobs Hloop.
  destruct (execute_matching self now s j jobs matched scores reasons
              Hjobs Hloop) as (Hm & _).
  exists (sort_desc (score_of scores) matched).
  split; [exact Hm|]. split; [apply sort_desc_perm|].
  split; [apply sort_desc_sorted|]. intros v. apply sort_desc_stable.
Qed.

End MatcherFacts.

(** ** The acceptance threshold *)
Section ThresholdFacts.
Import MatcherAgent.

Lemma py_max_spec a b : (py_max a b == Qmax a b)%Q.
Proof.
  unfold py_max. destruct (Qlt_le_dec a b) as [H|H].
  - symmetry. apply Q.max_r. now apply Qlt_le_weak.
  - symmetry. now apply Q.max_l.
Qed.

Lemma py_min_spec a b : (py_min a b == Qmin a b)%Q.
Proof.
  unfold py_min. destruct (Qlt_le_dec b a) as [H|H].
  - symmetry. apply Q.min_r. now apply Qlt_le_weak.
  - symmetry. now apply Q.min_l.
Qed.



(** The match rate that the learning agent computes is the share of
    matched jobs among the scraped ones. *)
Lemma analyzed_match_rate s scraped matched :
  scraped_jobs s = Held scraped -> matched_jobs s = Held matched ->
  LearningAgent.insights_match_rate (LearningAgent._analyze_workflow s)
  = LearningAgent.rate (length matched) (length scraped).
Proof.
  intros Hs Hm. unfold LearningAgent._analyze_workflow. rewrite Hs, Hm.
  reflexivity.
Qed.
End ThresholdFacts.



(** C2, as stated, fails: with one job matched out of twenty the match rate
    is below 0.10, yet [adjust_threshold] leaves the threshold at 0.70,
    in exact and in binary64 arithmetic, and the learning agent recommends
    0.60; neither is 0.70 lowered by 0.05. *)
Lemma low_rate_is_not_a_step_down :
  (LearningAgent.insights_match_rate
     (LearningAgent._analyze_workflow Examples.one_of_twenty) < 1 # 10)%Q /\
  MatcherAgent.min_score_threshold MatcherAgent.init = (70 # 100)%Q /\
  MatcherAgent.min_score_threshold
    (MatcherAgent.adjust_threshold MatcherAgent.init Examples.one_of_twenty)
    = (70 # 100)%Q /\
  MatcherAgent.adjust_threshold_binary64 0.7 Examples.one_of_twenty
    = 0.7%float /\
  new_threshold
    (adj_matcher
       (LearningAgent._generate_strategy_adjustments Examples.now1
          (LearningAgent._analyze_workflow Examples.one_of_twenty)))
    = Some (60 # 100)%Q /\
  ~ (70 # 100 == Qmax (5 # 10) ((70 # 100) - (5 # 100)))%Q /\
  ~ (60 # 100 == Qmax (5 # 10) ((70 # 100) - (5 # 100)))%Q.
Proof.
  repeat split; try reflexivity; vm_compute; discriminate.
Qed.

(** C2, amended.  [adjust_threshold] goes by the number [n] of matched
    jobs, in binary64 arithmetic: with none the new threshold is
    [max(0.5, thr - 0.05)], with more than 20 it is [min(0.9, thr + 0.05)],
    otherwise the threshold is left as it is.  The learning agent goes by
    the match rate and recommends a fixed value: 0.75 above 0.80, 0.60
    below 0.10, nothing in between. *)
Theorem adjust_threshold_by_count (thr : float) s n :
  py_len (slot_get (matched_jobs s) []) = Ok n ->
  let t' := MatcherAgent.adjust_threshold_binary64 thr s in
  (n = 0 ->
   t' = (if 0.5 <? thr - 0.05 then thr - 0.05 else 0.5)%float) /\
  (20 < n ->
   t' = (if thr + 0.05 <? 0.9 then thr + 0.05 else 0.9)%float) /\
  (0 < n <= 20 -> t' = thr) /\
  (forall now i,
     let r := LearningAgent.insights_match_rate i in
     let rec :=
       new_threshold
         (adj_matcher (LearningAgent._generate_strategy_adjustments now i)) in
     ((8 # 10 < r)%Q -> rec = Some (75 # 100)%Q) /\
     ((r < 1 # 10)%Q -> rec = Some (60 # 100)%Q) /\
     ((1 # 10 <= r)%Q -> (r <= 8 # 10)%Q -> rec = None)).
Proof.
  intros Hn t'. subst t'. unfold MatcherAgent.adjust_threshold_binary64.
  rewrite Hn. repeat split.
  - intros ->. reflexivity.
  - intros H. destruct (Nat.eqb_spec n 0); [lia|].
    destruct (Nat.ltb_spec 20 n); [|lia]. reflexivity.
  - intros H. destruct (Nat.eqb_spec n 0); [lia|].
    destruct (Nat.ltb_spec 20 n); [lia|]. reflexivity.
  - intros H. simpl. unfold LearningAgent.Qltb.
    destruct (Qle_bool _ (8 # 10)) eqn:E; [|reflexivity].
    apply Qle_bool_iff in E. lra.
  - intros H. simpl. unfold LearningAgent.Qltb.
    destruct (Qle_bool _ (8 # 10)) eqn:E.
    + simpl. destruct (Qle_bool (1 # 10) _) eqn:E2; [|reflexivity].
      apply Qle_bool_iff in E2. lra.
    + assert (~ (LearningAgent.insights_match_rate i <= 8 # 10)%Q) as N.
      { intros C. apply Qle_bool_iff in C. congruence. }
      lra.
  - intros H1 H2. simpl. unfold LearningAgent.Qltb.
    apply Qle_bool_iff in H1, H2. rewrite H1, H2. reflexivity.
Qed.

(** The second scenario: from 0.70, none accepted out of ten.  The
    difference [0.7 - 0.05] is rounded to [0.6499999999999999]. *)
Lemma adjust_threshold_by_count_witness :
  py_len (slot_get (matched_jobs Examples.rejected_all) []) = Ok 0 /\
  MatcherAgent.adjust_threshold_binary64 0.7 Examples.rejected_all
    = 0.6499999999999999%float /\
  MatcherAgent.adjust_threshold_binary64 0.7 Examples.rejected_all
    <> 0.65%float.
Proof.
  split; [reflexivity|].
  destruct (adjust_threshold_by_count 0.7 Examples.rejected_all 0 eq_refl)
    as (H & _).
  rewrite (H eq_refl). split; [reflexivity|].
  intros C. apply (f_equal (fun x => PrimFloat.eqb x 0.65)) in C.
  discriminate C.
Defined.

(** ** Failures inside a stage *)
Section StageFacts.
Import JobApplicationWorkflow.
Variable calc : nat -> Job -> slot Prefs -> Q * string.
Variable repr : Q -> string.
Variable tailor_resume :
  string -> Job -> slot Prefs -> string * list string * string.
Variable matcher : MatcherAgent.Agent.

Lemma scraper_raise now s e s1 :
  ScraperAgent.body now s = (Raise e, s1) -> errors s1 = errors s.
Proof.
  unfold ScraperAgent.body. unfold_m.
  destruct (user_preferences s) as [| |p]; simpl; unfold update_metrics;
    simpl.
  - destruct (metrics s); simpl; intros [= <- <-] || intros [=]; reflexivity.
  - intros [= <- <-]; reflexivity.
  - destruct (metrics s); simpl; intros [= <- <-] || intros [=]; reflexivity.
Qed.

Lemma matcher_raise now s e s1 :
  MatcherAgent.body calc repr matcher now s = (Raise e, s1) ->
  errors s1 = errors s.
Proof.
  unfold MatcherAgent.body. unfold_m.
  destruct (slot_get (scraped_jobs s) []) as [[|j l]|]; try discriminate.
  unfold MatcherAgent.body_matching. unfold_m.
  destruct (MatcherAgent.match_loop _ _ _ _ _ _)
    as [[matched scores] reasons].
  unfold update_metrics; simpl.
  destruct (metrics s); simpl; intros [= <- <-] || intros [=]; reflexivity.
Qed.

Lemma tailor_raise now s e s1 :
  ResumeTailorAgent.body tailor_resume now s = (Raise e, s1) ->
  errors s1 = errors s.
Proof.
  unfold ResumeTailorAgent.body. unfold_m.
  destruct (truthy_job (current_job s)); [|discriminate].
  destruct (truthy_str (base_resume s)); [|discriminate].
  unfold ResumeTailorAgent.body_tailoring. unfold_m.
  destruct (tailor_resume _ _ _) as [[tailored changes] why].
  unfold update_metrics; simpl.
  destruct (metrics s); simpl; intros [= <- <-] || intros [=]; reflexivity.
Qed.

Lemma learning_raise now s e s1 :
  LearningAgent.body now s = (Raise e, s1) -> s1 = s.
Proof.
  unfold LearningAgent.body. unfold_m.
  destruct (learning_insights s); simpl; [discriminate|].
  intros [= <- <-]; reflexivity.
Qed.

(** The tailoring stage without a base resume: no exception, one error. *)
Lemma tailor_without_base_resume now s :
  truthy_job (current_job s) = true -> truthy_str (base_resume s) = false ->
  ResumeTailorAgent.execute tailor_resume now s =
    set_current_step (Some "match")
      (add_error now "No base resume available for tailoring" s).
Proof.
  intros Hj Hr. unfold ResumeTailorAgent.execute, try_except,
    ResumeTailorAgent.body. unfold_m. rewrite Hj, Hr. reflexivity.
Qed.

(** The step that an agent leaves in [current_step] names the stage to run
    next, whether the agent failed or not. *)
Lemma scraper_sets_next_step now s :
  current_step (ScraperAgent.execute now s) = Some "match".
Proof.
  unfold ScraperAgent.execute, try_except, ScraperAgent.body. unfold_m.
  destruct (user_preferences s) as [| |p]; simpl; unfold update_metrics;
    simpl; destruct (metrics s); reflexivity.
Qed.

Lemma matcher_sets_next_step now s :
  current_step (MatcherAgent.execute calc repr matcher now s) = Some "tailor"
  \/ current_step (MatcherAgent.execute calc repr matcher now s)
     = Some "learn".
Proof.
  unfold MatcherAgent.execute, try_except, MatcherAgent.body. unfold_m.
  destruct (slot_get (scraped_jobs s) []) as [[|j l]|]; simpl; eauto.
  unfold MatcherAgent.body_matching. unfold_m.
  destruct (MatcherAgent.match_loop _ _ _ _ _ _)
    as [[matched scores] reasons].
  unfold update_metrics; simpl. destruct (metrics s); simpl; eauto.
Qed.

(** Whether it fails or not, a stage (an agent, the approval node or the
    application node) appends at most one error. *)
Lemma stage_appends_at_most_one_error n now s :
  n <> supervisor ->
  let s' := run_node calc repr tailor_resume matcher n now s in
  errors s' = errors s \/ one_more_error s s'.
Proof.
  intros Hn s'. subst s'. unfold one_more_error.
  destruct n; simpl; try congruence.
  - unfold ScraperAgent.execute, try_except, ScraperAgent.body. unfold_m.
    destruct (user_preferences s) as [| |p]; simpl; unfold update_metrics;
      simpl; destruct (metrics s); simpl; eauto.
  - unfold MatcherAgent.execute, try_except, MatcherAgent.body. unfold_m.
    destruct (slot_get (scraped_jobs s) []) as [[|j l]|]; simpl; eauto.
    unfold MatcherAgent.body_matching. unfold_m.
    destruct (MatcherAgent.match_loop _ _ _ _ _ _)
      as [[matched scores] reasons].
    unfold update_metrics; simpl. destruct (metrics s); simpl; eauto.
  - unfold ResumeTailorAgent.execute, try_except, ResumeTailorAgent.body.
    unfold_m.
    destruct (truthy_job (current_job s)); simpl; eauto.
    destruct (truthy_str (base_resume s)); simpl; eauto.
    unfold ResumeTailorAgent.body_tailoring. unfold_m.
    destruct (tailor_resume _ _ _) as [[tailored changes] why].
    unfold update_metrics; simpl. destruct (metrics s); simpl; eauto.
  - left; reflexivity.
  - left; reflexivity.
  - unfold LearningAgent.execute, try_except, LearningAgent.body. unfold_m.
    destruct (learning_insights s); simpl; eauto.
Qed.

End StageFacts.

(** ** The scraper's helpers *)
Section ScraperHelpers.
Import ScraperAgent.

Lemma job_urls_app l1 l2 : job_urls (l1 ++ l2) = job_urls l1 ++ job_urls l2.
Proof. unfold job_urls. apply omap_app. Qed.

Lemma truthy_field_url (j : Job) :
  truthy_field j "url" = true <-> exists u, j !! "url" = Some u /\ u <> "".
Proof.
  unfold truthy_field, truthy_str. destruct (j !! "url") as [u|].
  - destruct (bool_decide_reflect (u = "")); simpl; split.
    + discriminate.
    + intros (u' & [= <-] & Hu). contradiction.
    + intros _. eauto.
    + reflexivity.
  - split; [discriminate|]. intros (u & H & _). discriminate.
Qed.

Lemma dedup_loop_invariant jobs :
  dedup_invariant jobs (foldl dedup_step (∅, []) jobs).
Proof.
  induction jobs as [|job jobs IH] using rev_ind.
  - unfold dedup_invariant. simpl. repeat split; try constructor.
    intros j Hj. inversion Hj.
  - rewrite foldl_app. simpl.
    destruct (foldl dedup_step (∅, []) jobs) as [seen uniq].
    destruct IH as (Hseen & Hsub & Hnd & Htr & Hall). simpl in *.
    unfold dedup_step.
    destruct (job !! "url") as [url|] eqn:Hurl.
    + destruct (bool_decide_reflect (url = "")) as [He|He]; simpl.
      * unfold dedup_invariant; simpl. repeat split; auto.
        { apply sublist_inserts_r. exact Hsub. }
        intros j Hj Ht. apply elem_of_app in Hj as [Hj|Hj]; [now apply Hall|].
        apply list_elem_of_singleton in Hj as ->.
        apply truthy_field_url in Ht as (u & Hu & Hne). congruence.
      * destruct (bool_decide_reflect (url ∉ seen)) as [Hn|Hn]; simpl.
        -- unfold dedup_invariant; simpl. rewrite job_urls_app.
           assert (Hju : job_urls [job] = [url]).
           { unfold job_urls. simpl. rewrite Hurl. reflexivity. }
           rewrite Hju. repeat split.
           ++ rewrite list_to_set_app_L. simpl. rewrite Hseen.
              rewrite (right_id_L ∅ (∪)). apply (comm_L (∪)).
           ++ apply sublist_app; [exact Hsub|reflexivity].
           ++ apply NoDup_app. split; [exact Hnd|]. split.
              ** intros x Hx Hx'. apply list_elem_of_singleton in Hx' as ->.
                 apply Hn. rewrite Hseen. apply elem_of_list_to_set. exact Hx.
              ** apply NoDup_singleton.
           ++ apply Forall_app. split; [exact Htr|].
              constructor; [|constructor]. apply truthy_field_url. eauto.
           ++ intros j Hj Ht. apply elem_of_app in Hj as [Hj|Hj].
              ** destruct (Hall j Hj Ht) as (j' & Hj' & E). exists j'.
                 split; [|exact E]. apply elem_of_app. now left.
              ** apply list_elem_of_singleton in Hj as ->. exists job.
                 split; [|reflexivity]. apply elem_of_app. right.
                 now apply list_elem_of_singleton.
        -- unfold dedup_invariant; simpl. repeat split; auto.
           { apply sublist_inserts_r. exact Hsub. }
           intros j Hj Ht.
           apply elem_of_app in Hj as [Hj|Hj]; [now apply Hall|].
           apply list_elem_of_singleton in Hj as ->.
           apply dec_stable in Hn. rewrite Hseen in Hn.
           apply elem_of_list_to_set in Hn.
           unfold job_urls in Hn.
           apply list_elem_of_omap in Hn as (j' & Hj' & E).
           exists j'. split; [exact Hj'|]. congruence.
    + unfold dedup_invariant; simpl. repeat split; auto.
      { apply sublist_inserts_r. exact Hsub. }
      intros j Hj Ht. apply elem_of_app in Hj as [Hj|Hj]; [now apply Hall|].
      apply list_elem_of_singleton in Hj as ->.
      apply truthy_field_url in Ht as (u & Hu & Hne). congruence.
Qed.

(** On jobs that all have a url, no two the same, the loop keeps every
    job. *)
Lemma dedup_loop_distinct jobs :
  NoDup (job_urls jobs) ->
  Forall (fun j => truthy_field j "url" = true) jobs ->
  foldl dedup_step (∅, []) jobs = (list_to_set (job_urls jobs), jobs).
Proof.
  induction jobs as [|job jobs IH] using rev_ind; intros Hnd Htr.
  - reflexivity.
  - rewrite job_urls_app in *. apply NoDup_app in Hnd as (Hnd1 & Hdisj & _).
    apply Forall_app in Htr as (Htr1 & Htr2).
    rewrite foldl_app, (IH Hnd1 Htr1). simpl.
    rewrite Forall_singleton in Htr2.
    apply truthy_field_url in Htr2 as (u & Hu & Hne).
    unfold dedup_step. rewrite Hu.
    assert (Hju : job_urls [job] = [u]).
    { unfold job_urls. simpl. rewrite Hu. reflexivity. }
    rewrite Hju in *.
    rewrite bool_decide_eq_false_2 by exact Hne. simpl.
    rewrite bool_decide_eq_true_2.
    + f_equal. rewrite list_to_set_app_L. simpl.
      rewrite (right_id_L ∅ (∪)). apply (comm_L (∪)).
    + intros Hin. apply elem_of_list_to_set in Hin.
      apply (Hdisj u Hin). now apply list_elem_of_singleton.
Qed.

(** X1.  [deduplicate_jobs] returns a sub-sequence of its input (the order
    is kept) in which no url occurs twice and every job has a non-empty
    url; and every non-empty url of the input is still there: of the jobs
    that share a url one is kept, a job without a url is dropped. *)
Theorem deduplicate_jobs_keeps_one_per_url jobs :
  let kept := deduplicate_jobs jobs in
  sublist kept jobs /\
  NoDup (job_urls kept) /\
  Forall (fun j => truthy_field j "url" = true) kept /\
  (forall j, j ∈ jobs -> truthy_field j "url" = true ->
     exists j', j' ∈ kept /\ j' !! "url" = j !! "url").
Proof.
  destruct (dedup_loop_invariant jobs) as (_ & H). exact H.
Qed.

(** X2.  Deduplicating twice is deduplicating once. *)
Theorem deduplicate_jobs_idempotent jobs :
  deduplicate_jobs (deduplicate_jobs jobs) = deduplicate_jobs jobs.
Proof.
  destruct (dedup_loop_invariant jobs) as (_ & _ & Hnd & Htr & _).
  unfold deduplicate_jobs.
  rewrite (dedup_loop_distinct _ Hnd Htr). reflexivity.
Qed.

(** X3.  Whatever the preferences, the mock scraper returns five jobs, with
    ids [indeed_1] to [indeed_5], that all pass [validate_job_posting] and
    that [deduplicate_jobs] leaves as they are. *)
Theorem scraped_jobs_are_valid_and_distinct now kws loc jt :
  let jobs := _scrape_indeed now kws loc jt in
  length jobs = 5 /\
  job_ids jobs
    = [Some "indeed_1"; Some "indeed_2"; Some "indeed_3"; Some "indeed_4";
       Some "indeed_5"] /\
  Forall (fun j => validate_job_posting j = true) jobs /\
  deduplicate_jobs jobs = jobs.
Proof.
  intros jobs. subst jobs.
  assert (Hurls : job_urls (_scrape_indeed now kws loc jt)
                  = ["https://www.indeed.com/viewjob?jk=mock1";
                     "https://www.indeed.com/viewjob?jk=mock2";
                     "https://www.indeed.com/viewjob?jk=mock3";
                     "https://www.indeed.com/viewjob?jk=mock4";
                     "https://www.indeed.com/viewjob?jk=mock5"]).
  { vm_compute. reflexivity. }
  assert (Hvalid : Forall (fun j => validate_job_posting j = true)
                     (_scrape_indeed now kws loc jt)).
  { unfold _scrape_indeed. simpl.
    repeat constructor; vm_compute; destruct kws; reflexivity. }
  split; [reflexivity|]. split; [vm_compute; reflexivity|].
  split; [exact Hvalid|].
  unfold deduplicate_jobs. rewrite dedup_loop_distinct; [reflexivity| |].
  - rewrite Hurls. apply (bool_decide_unpack _). vm_compute. reflexivity.
  - eapply Forall_impl; [exact Hvalid|]. intros j Hj.
    unfold validate_job_posting, required_fields in Hj. simpl in Hj.
    repeat (apply andb_prop in Hj as [? Hj]). assumption.
Qed.
End ScraperHelpers.

(** ** What the matcher keeps *)
Section MatchLoopFacts.
Import MatcherAgent.
Variable calc : nat -> Job -> slot Prefs -> Q * string.

Lemma match_loop_sublist thr prefs jobs : forall n m sc rs m' sc' rs',
  match_loop calc thr prefs n jobs (m, sc, rs) = (m', sc', rs') ->
  exists kept, m' = m ++ kept /\ sublist kept jobs /\
    dom sc' = dom sc ∪ list_to_set (job_ids jobs) /\
    dom rs' = dom rs ∪ list_to_set (job_ids jobs).
Proof.
  induction jobs as [|job rest IH]; intros n m sc rs m' sc' rs' Hloop.
  - simpl in Hloop. injection Hloop as <- <- <-. exists [].
    rewrite app_nil_r. simpl. rewrite !(right_id_L ∅ (∪)).
    repeat split. constructor.
  - simpl in Hloop. destruct (calc n job prefs) as [score why].
    apply IH in Hloop as (kept & -> & Hsub & Hdom & Hdom').
    rewrite dom_insert_L in Hdom. rewrite dom_insert_L in Hdom'.
    rewrite Hdom, Hdom'. simpl.
    rewrite !(assoc_L (∪)), !(comm_L (∪) (dom _) {[job_get_id job]}).
    destruct (ge_threshold score thr).
    + exists (job :: kept). rewrite <- app_assoc. simpl.
      repeat split. now constructor.
    + exists kept. repeat split. now constructor.
Qed.

Lemma match_loop_lookup_other thr prefs jobs : forall n m sc rs m' sc' rs' k,
  match_loop calc thr prefs n jobs (m, sc, rs) = (m', sc', rs') ->
  k ∉ job_ids jobs -> sc' !! k = sc !! k.
Proof.
  induction jobs as [|job rest IH]; intros n m sc rs m' sc' rs' k Hloop Hk.
  - simpl in Hloop. injection Hloop as <- <- <-. reflexivity.
  - simpl in Hloop. destruct (calc n job prefs) as [score why].
    simpl in Hk. apply not_elem_of_cons in Hk as [Hne Hk].
    rewrite (IH _ _ _ _ _ _ _ k Hloop Hk).
    apply lookup_insert_ne. congruence.
Qed.

(** With distinct ids, the jobs appended by the loop are those whose
    recorded score reaches the threshold. *)
Lemma match_loop_filter thr prefs jobs : forall n m sc rs m' sc' rs',
  NoDup (job_ids jobs) ->
  match_loop calc thr prefs n jobs (m, sc, rs) = (m', sc', rs') ->
  m' = m ++ List.filter (over_threshold sc' thr) jobs.
Proof.
  induction jobs as [|job rest IH]; intros n m sc rs m' sc' rs' Hnd Hloop.
  - simpl in Hloop. injection Hloop as <- <- <-. simpl. now rewrite app_nil_r.
  - simpl in Hnd. apply NoDup_cons in Hnd as [Hfresh Hnd].
    simpl in Hloop. destruct (calc n job prefs) as [score why].
    pose proof Hloop as Hlook.
    eapply match_loop_lookup_other in Hlook; [|exact Hfresh].
    rewrite lookup_insert_eq in Hlook.
    apply IH in Hloop; [|exact Hnd]. rewrite Hloop. simpl.
    unfold over_threshold at 2. unfold score_of. rewrite Hlook. simpl.
    destruct (ge_threshold score thr); [|reflexivity].
    now rewrite <- app_assoc.
Qed.

(** A scorer that always answers [v], below the threshold: nothing is
    appended and every job gets the score [v]. *)
Lemma match_loop_rejects thr prefs v jobs : forall n m sc rs m' sc' rs',
  (forall i job, (calc i job prefs).1 = v) ->
  ge_threshold v thr = false ->
  match_loop calc thr prefs n jobs (m, sc, rs) = (m', sc', rs') ->
  m' = m /\
  forall k, sc !! k = Some v \/ k ∈ job_ids jobs -> sc' !! k = Some v.
Proof.
  induction jobs as [|job rest IH]; intros n m sc rs m' sc' rs' Hv Hlow Hloop.
  - simpl in Hloop. injection Hloop as <- <- <-. split; [reflexivity|].
    intros k [H|H]; [exact H|]. now apply elem_of_nil in H.
  - simpl in Hloop. specialize (Hv n job) as Hj.
    destruct (calc n job prefs) as [score why]. simpl in Hj. subst score.
    rewrite Hlow in Hloop.
    apply IH in Hloop as [-> Hsc]; [|exact Hv|exact Hlow].
    split; [reflexivity|]. intros k Hk. apply Hsc.
    destruct (decide (k = job_get_id job)) as [->|Hne].
    + left. apply lookup_insert_eq.
    + rewrite lookup_insert_ne by congruence.
      destruct Hk as [Hk|Hk]; [now left|right].
      simpl in Hk. apply elem_of_cons in Hk as [Hk|Hk]; [congruence|exact Hk].
Qed.
End MatchLoopFacts.

Lemma over_threshold_by_key scores thr v x :
  Qeq_bool (MatcherAgent.score_of scores x) v = true -> (thr <= v)%Q ->
  over_threshold scores thr x = true.
Proof.
  intros Hv Hthr. unfold over_threshold, MatcherAgent.ge_threshold.
  apply Qeq_bool_iff in Hv. apply Qle_bool_iff. rewrite Hv. exact Hthr.
Qed.

Lemma with_key_filter scores thr v (jobs : list Job) :
  (thr <= v)%Q ->
  with_key (MatcherAgent.score_of scores) v
    (List.filter (over_threshold scores thr) jobs)
  = with_key (MatcherAgent.score_of scores) v jobs.
Proof.
  intros Hthr. unfold with_key.
  induction jobs as [|x jobs IH]; [reflexivity|]. simpl.
  destruct (Qeq_bool (MatcherAgent.score_of scores x) v) eqn:Hv.
  - rewrite (over_threshold_by_key scores thr v x Hv Hthr). simpl.
    rewrite Hv, IH. reflexivity.
  - destruct (over_threshold scores thr x); simpl; rewrite ?Hv; exact IH.
Qed.

Section MatcherCoverage.
Import MatcherAgent.
Variable calc : nat -> Job -> slot Prefs -> Q * string.
Variable repr : Q -> string.

(** X4.  After a pass of the matcher over a non-empty list, [matched_jobs]
    is made of scraped jobs, each at most as often as it was scraped, and
    [matching_scores] and [matching_reasoning] have an entry for exactly
    the ids of the scraped jobs. *)
Theorem matched_jobs_come_from_scraped_jobs self now s j jobs :
  slot_get (scraped_jobs s) [] = Some (j :: jobs) ->
  exists l scores reasons,
    matched_jobs (execute calc repr self now s) = Held l /\
    matching_scores (execute calc repr self now s) = Some scores /\
    matching_reasoning (execute calc repr self now s) = Some reasons /\
    l ⊆+ j :: jobs /\
    length l <= length (j :: jobs) /\
    dom scores = list_to_set (job_ids (j :: jobs)) /\
    dom reasons = list_to_set (job_ids (j :: jobs)).
Proof.
  intros Hjobs.
  destruct (match_loop calc (min_score_threshold self) (user_preferences s) 0
              (j :: jobs) ([], ∅, ∅)) as [[matched scores] reasons] eqn:Hloop.
  destruct (execute_matching calc repr self now s j jobs matched scores
              reasons Hjobs Hloop) as (Hm & Hs & Hr & _).
  apply match_loop_sublist in Hloop as (kept & -> & Hsub & Hdom & Hdom').
  rewrite app_nil_l in Hm.
  assert (Hsubm : sort_desc (score_of scores) kept ⊆+ j :: jobs).
  { rewrite sort_desc_perm. now apply sublist_submseteq. }
  exists (sort_desc (score_of scores) kept), scores, reasons.
  split; [exact Hm|]. split; [exact Hs|]. split; [exact Hr|].
  split; [exact Hsubm|]. split; [now apply submseteq_length|].
  rewrite Hdom, Hdom', !dom_empty_L, !(left_id_L ∅ (∪)).
  split; reflexivity.
Qed.

(** X5.  When the scraped jobs have distinct ids, the matched jobs are
    the scraped jobs whose recorded score reaches the agent's threshold,
    no other and none left out, sorted by descending score: the score of
    a matched job is at least that of every job behind it, and the jobs of
    one score are in the order they were scraped in. *)
Theorem matched_jobs_are_those_over_threshold self now s j jobs :
  slot_get (scraped_jobs s) [] = Some (j :: jobs) ->
  NoDup (job_ids (j :: jobs)) ->
  exists l scores,
    matched_jobs (execute calc repr self now s) = Held l /\
    matching_scores (execute calc repr self now s) = Some scores /\
    l = sort_desc (score_of scores)
          (List.filter (over_threshold scores (min_score_threshold self))
             (j :: jobs)) /\
    StronglySorted (desc (score_of scores)) l /\
    (forall v, (min_score_threshold self <= v)%Q ->
       with_key (score_of scores) v l
       = with_key (score_of scores) v (j :: jobs)) /\
    forall x, x ∈ l <->
      x ∈ j :: jobs /\ (min_score_threshold self <= score_of scores x)%Q.
Proof.
  intros Hjobs Hnd.
  destruct (match_loop calc (min_score_threshold self) (user_preferences s) 0
              (j :: jobs) ([], ∅, ∅)) as [[matched scores] reasons] eqn:Hloop.
  destruct (execute_matching calc repr self now s j jobs matched scores
              reasons Hjobs Hloop) as (Hm & Hs & _).
  pose proof Hloop as Hf. apply match_loop_filter in Hf; [|exact Hnd].
  rewrite app_nil_l in Hf. subst matched.
  eexists _, scores. split; [exact Hm|]. split; [exact Hs|].
  split; [reflexivity|]. split; [apply sort_desc_sorted|].
  split; [intros v Hv; rewrite sort_desc_stable; now apply with_key_filter|].
  intros x.
  rewrite sort_desc_perm.
  rewrite <- (Qle_bool_iff (min_score_threshold self) (score_of scores x)).
  rewrite !list_elem_of_In.
  apply (filter_In (over_threshold scores (min_score_threshold self))).
Qed.

(** X6.  After a pass over a non-empty list, with a [metrics] dict in
    place (or none yet), [jobs_matched] holds the number of matched jobs
    and [match_rate] their share of the scraped jobs, a number between 0
    and 1; the other metrics are as they were. *)
Theorem matcher_metrics self now s j jobs m :
  slot_get (scraped_jobs s) [] = Some (j :: jobs) ->
  slot_get (metrics s) ∅ = Some m ->
  exists l m',
    matched_jobs (execute calc repr self now s) = Held l /\
    metrics (execute calc repr self now s) = Held m' /\
    m' !! "jobs_matched" = Some (inject_Z (Z.of_nat (length l))) /\
    m' !! "match_rate"
      = Some (Z.of_nat (length l) # Pos.of_nat (length (j :: jobs)))%Q /\
    (0 <= Z.of_nat (length l) # Pos.of_nat (length (j :: jobs)) <= 1)%Q /\
    (forall k, k <> "jobs_matched" -> k <> "match_rate" -> m' !! k = m !! k).
Proof.
  intros Hjobs Hmet.
  destruct (match_loop calc (min_score_threshold self) (user_preferences s) 0
              (j :: jobs) ([], ∅, ∅)) as [[matched scores] reasons] eqn:Hloop.
  assert (Hlen : length (sort_desc (score_of scores) matched)
                 <= length (j :: jobs)).
  { pose proof Hloop as Hsub.
    apply match_loop_sublist in Hsub as (kept & -> & Hsub & _).
    rewrite sort_desc_perm, app_nil_l. now apply sublist_length. }
  assert (Hrate : (0 <= Z.of_nat (length (sort_desc (score_of scores) matched))
                        # Pos.of_nat (length (j :: jobs)) <= 1)%Q).
  { assert (Hpos : Z.pos (Pos.of_nat (length (j :: jobs)))
                   = Z.of_nat (length (j :: jobs))).
    { cbn [length].
      rewrite <- positive_nat_Z, Nat2Pos.id by discriminate. reflexivity. }
    unfold Qle. cbn [Qnum Qden]. rewrite Hpos. split; lia. }
  unfold execute, try_except, body. unfold_m.
  rewrite Hjobs. unfold body_matching. unfold_m. rewrite Hloop.
  unfold update_metrics. simpl.
  destruct (metrics s) as [| |m0]; simpl in Hmet; try discriminate;
    injection Hmet as <-; simpl;
    (eexists _, _; split; [reflexivity|]; split; [reflexivity|];
     split; [|split; [|split; [exact Hrate|]]]);
    [ rewrite lookup_insert_ne by discriminate; apply lookup_insert_eq
    | apply lookup_insert_eq
    | intros k H1 H2; now rewrite !lookup_insert_ne by congruence
    | rewrite lookup_insert_ne by discriminate; apply lookup_insert_eq
    | apply lookup_insert_eq
    | intros k H1 H2; now rewrite !lookup_insert_ne by congruence ].
Qed.

(** X7.  With nothing scraped (the key missing, [None] or empty) the
    matcher only points [current_step] to the learning stage: it records
    no decision and leaves the [matched_jobs] of an earlier pass in place.
    The supervisor that runs next reads the step ["learn"] as done and
    decides ["stop"]. *)
Theorem matcher_without_jobs_skips_learning self now now' s :
  no_scraped_jobs s ->
  execute calc repr self now s = set_current_step (Some "learn") s /\
  next_action (SupervisorAgent.execute now' (execute calc repr self now s))
    = Some "stop".
Proof.
  intros Hno.
  assert (E : execute calc repr self now s = set_current_step (Some "learn") s).
  { unfold execute, try_except, body. unfold_m. unfold no_scraped_jobs in Hno.
    destruct (slot_get (scraped_jobs s) []) as [[|j0 l]|];
      [reflexivity|easy|reflexivity]. }
  split; [exact E|]. rewrite E.
  unfold SupervisorAgent.execute, try_except.
  rewrite (decide_learn now' (set_current_step (Some "learn") s) eq_refl).
  reflexivity.
Qed.
End MatcherCoverage.

Lemma matched_jobs_come_from_scraped_jobs_witness :
  exists l,
    matched_jobs
      (MatcherAgent.execute Examples.scores_A Examples.repr0 MatcherAgent.init
         Examples.now1 Examples.scraped5) = Held l /\
    length l <= 5.
Proof.
  destruct (matched_jobs_come_from_scraped_jobs Examples.scores_A
              Examples.repr0 MatcherAgent.init Examples.now1 Examples.scraped5
              (Examples.job 1)
              [Examples.job 2; Examples.job 3; Examples.job 4; Examples.job 5]
              eq_refl) as (l & _ & _ & Hm & _ & _ & _ & Hlen & _).
  exists l. split; [exact Hm|exact Hlen].
Defined.

Lemma matched_jobs_are_those_over_threshold_witness :
  exists l scores,
    matched_jobs
      (MatcherAgent.execute Examples.scores_A Examples.repr0 MatcherAgent.init
         Examples.now1 Examples.scraped5) = Held l /\
    forall x, x ∈ l -> (70 # 100 <= MatcherAgent.score_of scores x)%Q.
Proof.
  destruct (matched_jobs_are_those_over_threshold Examples.scores_A
              Examples.repr0 MatcherAgent.init Examples.now1 Examples.scraped5
              (Examples.job 1)
              [Examples.job 2; Examples.job 3; Examples.job 4; Examples.job 5]
              eq_refl)
    as (l & scores & Hm & _ & _ & _ & _ & Hin).
  - apply (bool_decide_unpack _). vm_compute. reflexivity.
  - exists l, scores. split; [exact Hm|]. intros x Hx.
    apply Hin in Hx as [_ Hx]. exact Hx.
Defined.

Lemma matcher_metrics_witness :
  exists m',
    metrics
      (MatcherAgent.execute Examples.scores_A Examples.repr0 MatcherAgent.init
         Examples.now1 Examples.scraped5) = Held m' /\
    is_Some (m' !! "match_rate").
Proof.
  destruct (matcher_metrics Examples.scores_A Examples.repr0 MatcherAgent.init
              Examples.now1 Examples.scraped5 (Examples.job 1)
              [Examples.job 2; Examples.job 3; Examples.job 4; Examples.job 5]
              ∅ eq_refl eq_refl)
    as (l & m' & _ & Hm & _ & Hr & _).
  exists m'. split; [exact Hm|]. rewrite Hr. eexists. reflexivity.
Defined.

Lemma matcher_without_jobs_skips_learning_witness :
  no_scraped_jobs Examples.fresh /\
  next_action
    (SupervisorAgent.execute Examples.now1
       (MatcherAgent.execute Examples.scores_A Examples.repr0
          MatcherAgent.init Examples.now1 Examples.fresh)) = Some "stop".
Proof.
  assert (H : no_scraped_jobs Examples.fresh) by exact I.
  split; [exact H|].
  apply (matcher_without_jobs_skips_learning Examples.scores_A Examples.repr0
           MatcherAgent.init Examples.now1 Examples.now1 Examples.fresh H).
Defined.

(** ** When the LLM fails *)
Section FailedScoring.
Variable prompt_text : Job -> Prefs -> string.
Variable invoke_llm : nat -> string -> result string.
Variable _parse_llm_response : string -> Q * string.
Variable repr : Q -> string.

(** X8.  When every call of the LLM raises, or the preferences are
    [None], [_calculate_match_score] swallows the exception: with a
    positive threshold the pass ends with no matched job and the score 0
    for every scraped job, no error is recorded, and [current_step] is
    ["tailor"] as after any other pass. *)
Theorem failed_scoring_matches_nothing self now s j jobs :
  slot_get (scraped_jobs s) [] = Some (j :: jobs) ->
  (forall n prompt, exists e, invoke_llm n prompt = Raise e)
    \/ user_preferences s = Null ->
  (0 < MatcherAgent.min_score_threshold self)%Q ->
  metrics s <> Null ->
  let s' :=
    MatcherAgent.execute
      (MatcherAgent._calculate_match_score prompt_text invoke_llm
         _parse_llm_response) repr self now s in
  matched_jobs s' = Held [] /\
  (exists scores, matching_scores s' = Some scores /\
     forall x, x ∈ j :: jobs -> scores !! job_get_id x = Some 0%Q) /\
  errors s' = errors s /\
  current_step s' = Some "tailor".
Proof.
  intros Hjobs Hfail Hthr Hmet s'.
  set (calc := MatcherAgent._calculate_match_score prompt_text invoke_llm
                 _parse_llm_response) in *.
  assert (Hzero : forall i job, (calc i job (user_preferences s)).1 = 0%Q).
  { intros i job. unfold calc, MatcherAgent._calculate_match_score,
      MatcherAgent._build_matching_prompt.
    destruct Hfail as [Hllm| ->]; [|reflexivity].
    destruct (slot_get (user_preferences s) _); [|reflexivity].
    destruct (Hllm i (prompt_text job p)) as [e ->]. reflexivity. }
  assert (Hlow : MatcherAgent.ge_threshold 0%Q
                   (MatcherAgent.min_score_threshold self) = false).
  { unfold MatcherAgent.ge_threshold.
    destruct (Qle_bool _ 0) eqn:E; [|reflexivity].
    apply Qle_bool_iff in E. exfalso. eapply Qlt_not_le; eassumption. }
  destruct (MatcherAgent.match_loop calc
              (MatcherAgent.min_score_threshold self) (user_preferences s) 0
              (j :: jobs) ([], ∅, ∅)) as [[matched scores] reasons] eqn:Hloop.
  pose proof Hloop as Hrej.
  eapply match_loop_rejects in Hrej as [-> Hsc]; [|exact Hzero|exact Hlow].
  subst s'. unfold MatcherAgent.execute, try_except, MatcherAgent.body.
  unfold_m. rewrite Hjobs. unfold MatcherAgent.body_matching. unfold_m.
  rewrite Hloop. unfold update_metrics. simpl.
  destruct (metrics s); simpl; try contradiction;
    (split; [reflexivity|]; split; [|split; reflexivity]);
    (exists scores; split; [reflexivity|]; intros x Hx; apply Hsc; right;
     unfold job_ids; apply list_elem_of_fmap; eauto).
Qed.
End FailedScoring.

Lemma failed_scoring_matches_nothing_witness :
  matched_jobs
    (MatcherAgent.execute
       (MatcherAgent._calculate_match_score Samples.matching_prompt
          Samples.llm_down Samples.parse_score)
       Examples.repr0 MatcherAgent.init Examples.now1 Examples.scraped5)
    = Held [].
Proof.
  destruct (failed_scoring_matches_nothing Samples.matching_prompt
              Samples.llm_down Samples.parse_score Examples.repr0
              MatcherAgent.init Examples.now1 Examples.scraped5
              (Examples.job 1)
              [Examples.job 2; Examples.job 3; Examples.job 4; Examples.job 5])
    as (Hm & _).
  - reflexivity.
  - left. intros n prompt. exists Samples.connection_error. reflexivity.
  - reflexivity.
  - discriminate.
  - exact Hm.
Defined.

Section FailedTailoring.
Import ResumeTailorAgent.
Variable prompt_text : string -> Job -> string.
Variable invoke_llm : string -> result string.
Variable _parse_tailoring_response : string -> string * list string * string.

(** X9.  When the LLM call of [_tailor_resume] raises, the exception is
    swallowed: [tailored_resume] is the base resume unchanged, with no
    change listed and the exception text as reasoning; no error is
    recorded and [current_step] is ["approve"], so the unmodified resume
    goes to the approval gate. *)
Theorem failed_tailoring_offers_base_resume now s job resume e :
  current_job s = Some job -> truthy_job (Some job) = true ->
  base_resume s = Some resume -> resume <> "" ->
  invoke_llm (prompt_text resume job) = Raise e ->
  metrics s <> Null ->
  let s' :=
    execute (_tailor_resume prompt_text invoke_llm _parse_tailoring_response)
      now s in
  tailored_resume s' = Some resume /\
  resume_changes s' = Some [] /\
  tailoring_reasoning s' = Some ("Error: " +:+ exn_str e) /\
  errors s' = errors s /\
  current_step s' = Some "approve".
Proof.
  intros Hjob Htj Hres Hne Hllm Hmet s'. subst s'.
  unfold execute, try_except, body. unfold_m.
  rewrite Hjob, Htj, Hres. simpl.
  destruct (bool_decide (resume = "")) eqn:E;
    [apply bool_decide_eq_true in E; contradiction|]. simpl.
  unfold body_tailoring. unfold_m. unfold _tailor_resume.
  rewrite Hllm. unfold update_metrics. simpl.
  destruct (metrics s); simpl; try contradiction; repeat split; reflexivity.
Qed.
End FailedTailoring.

Lemma failed_tailoring_offers_base_resume_witness :
  tailored_resume
    (ResumeTailorAgent.execute
       (ResumeTailorAgent._tailor_resume Samples.tailoring_prompt
          Samples.llm_down_once Samples.parse_resume)
       Examples.now1 Samples.ready_to_tailor)
    = Some Examples.base_resume0.
Proof.
  destruct (failed_tailoring_offers_base_resume Samples.tailoring_prompt
              Samples.llm_down_once Samples.parse_resume Examples.now1
              Samples.ready_to_tailor (Examples.job 1) Examples.base_resume0
              Samples.connection_error) as (Ht & _).
  - reflexivity.
  - vm_compute. reflexivity.
  - reflexivity.
  - discriminate.
  - reflexivity.
  - discriminate.
  - exact Ht.
Defined.

Section TailorCount.
Import ResumeTailorAgent.
Variable tailor_resume :
  string -> Job -> slot Prefs -> string * list string * string.

(** X10.  A tailoring pass with a current job and a base resume adds one
    to the [resumes_tailored] metric (counted from 0 when it is not there
    yet), leaves the other metrics alone and records one decision. *)
Theorem tailoring_counts_resumes now s m :
  truthy_job (current_job s) = true -> truthy_str (base_resume s) = true ->
  slot_get (metrics s) ∅ = Some m ->
  exists m',
    metrics (execute tailor_resume now s) = Held m' /\
    m' !! "resumes_tailored"
      = Some (default 0%Q (m !! "resumes_tailored") + 1)%Q /\
    (forall k, k <> "resumes_tailored" -> m' !! k = m !! k) /\
    decisions_made (execute tailor_resume now s) = S (decisions_made s).
Proof.
  intros Hj Hr Hm. unfold execute, try_except, body. unfold_m.
  rewrite Hj, Hr. unfold body_tailoring. unfold_m.
  destruct (tailor_resume _ _ _) as [[tailored changes] why].
  unfold update_metrics, decisions_made. simpl.
  destruct (metrics s) as [| |m0]; simpl in Hm; try discriminate;
    injection Hm as <-; simpl; eexists; (split; [reflexivity|]);
    (split; [apply lookup_insert_eq|]);
    (split; [intros k Hk; now rewrite lookup_insert_ne by congruence|]);
    rewrite length_app; simpl; lia.
Qed.
End TailorCount.

Lemma tailoring_counts_resumes_witness :
  exists m',
    metrics
      (ResumeTailorAgent.execute Examples.tailor0 Examples.now1
         Samples.ready_to_tailor) = Held m' /\
    m' !! "resumes_tailored" = Some (0 + 1)%Q.
Proof.
  destruct (tailoring_counts_resumes Examples.tailor0 Examples.now1
              Samples.ready_to_tailor ∅)
    as (m' & Hm & Hc & _).
  - vm_compute. reflexivity.
  - reflexivity.
  - reflexivity.
  - exists m'. split; [exact Hm|exact Hc].
Defined.

(** ** The supervisor behind each node of the graph *)

Lemma scraper_keeps_matched now s :
  matched_jobs (ScraperAgent.execute now s) = matched_jobs s.
Proof.
  unfold ScraperAgent.execute, try_except, ScraperAgent.body. unfold_m.
  destruct (user_preferences s) as [| |p]; simpl; unfold update_metrics;
    simpl; destruct (metrics s); reflexivity.
Qed.

Lemma learning_keeps_matched now s :
  matched_jobs (LearningAgent.execute now s) = matched_jobs s.
Proof.
  unfold LearningAgent.execute, try_except, LearningAgent.body. unfold_m.
  destruct (learning_insights s); reflexivity.
Qed.

Lemma learning_sets_complete now s :
  current_step (LearningAgent.execute now s) = Some "complete".
Proof.
  unfold LearningAgent.execute, try_except, LearningAgent.body. unfold_m.
  destruct (learning_insights s); reflexivity.
Qed.

Lemma complete_is_not_known : ~ known_step "complete".
Proof. unfold known_step. intros [C|[C|[C|[C|[C|C]]]]]; discriminate. Qed.

Lemma wait_is_not_known : ~ known_step "wait".
Proof. unfold known_step. intros [C|[C|[C|[C|[C|C]]]]]; discriminate. Qed.

Lemma next_action_at_match now s :
  current_step s = Some "match" ->
  next_action (SupervisorAgent.execute now s) = Some (route_at_match s).
Proof.
  intros Hs. unfold SupervisorAgent.execute, try_except, route_at_match.
  rewrite (decide_match now s Hs).
  destruct (matched_jobs s) as [| |[|j l]]; try destruct (truthy_job _);
    reflexivity.
Qed.

Lemma next_action_at_tailor now s :
  current_step s = Some "tailor" ->
  next_action (SupervisorAgent.execute now s) =
    Some (if truthy_str (tailored_resume s) then "approve" else "match").
Proof.
  intros Hs. unfold SupervisorAgent.execute, try_except.
  rewrite (decide_tailor now s Hs). reflexivity.
Qed.

Lemma next_action_at_approve now s :
  current_step s = Some "approve" ->
  next_action (SupervisorAgent.execute now s) = Some (route_at_approve s).
Proof.
  intros Hs. unfold SupervisorAgent.execute, try_except, route_at_approve.
  rewrite (decide_approve now s Hs). reflexivity.
Qed.

Lemma next_action_at_learn now s :
  current_step s = Some "learn" ->
  next_action (SupervisorAgent.execute now s) = Some "stop".
Proof.
  intros Hs. unfold SupervisorAgent.execute, try_except.
  rewrite (decide_learn now s Hs). reflexivity.
Qed.

(** X11.  The scraper leaves [current_step] at ["match"], so the supervisor
    behind the scrape node answers for the match step: it goes by the
    [matched_jobs] that the state held before the scrape, not by what was
    scraped. *)
Theorem supervisor_after_scrape_node now now' s :
  next_action (SupervisorAgent.execute now' (ScraperAgent.execute now s))
    = Some (route_at_match s).
Proof.
  rewrite (next_action_at_match now' _ (scraper_sets_next_step now s)).
  unfold route_at_match. rewrite scraper_keeps_matched. reflexivity.
Qed.

Section AfterNodes.
Variable calc : nat -> Job -> slot Prefs -> Q * string.
Variable repr : Q -> string.
Variable tailor_resume :
  string -> Job -> slot Prefs -> string * list string * string.

(** X12.  The supervisor behind the match node: with nothing scraped, or
    with [metrics] holding [None] (the pass fails), the step is ["learn"]
    and the decision ["stop"]; otherwise the step is ["tailor"] and the
    decision goes by [tailored_resume] alone, ["approve"] with a resume
    from an earlier pass and ["match"] again without one, whether any job
    was matched or not. *)
Theorem supervisor_after_match_node self now now' s :
  next_action (SupervisorAgent.execute now'
                 (MatcherAgent.execute calc repr self now s)) =
    Some match slot_get (scraped_jobs s) [] with
         | Some (_ :: _) =>
             if is_null (metrics s) then "stop"
             else if truthy_str (tailored_resume s) then "approve"
             else "match"
         | _ => "stop"
         end.
Proof.
  unfold MatcherAgent.execute, try_except, MatcherAgent.body. unfold_m.
  destruct (slot_get (scraped_jobs s) []) as [[|j l]|].
  - apply next_action_at_learn. reflexivity.
  - unfold MatcherAgent.body_matching. unfold_m.
    destruct (MatcherAgent.match_loop _ _ _ _ _ _)
      as [[matched scores] reasons].
    unfold update_metrics; simpl.
    destruct (metrics s); cbn [fst snd];
      first [ rewrite next_action_at_tailor by reflexivity; reflexivity
            | apply next_action_at_learn; reflexivity ].
  - apply next_action_at_learn. reflexivity.
Qed.

(** X13.  The supervisor behind the tailor node: when the pass gives up
    (a current job but no base resume, or [metrics] holding [None]) the
    step is ["match"] and the decision goes by [matched_jobs]; otherwise,
    also when there is no current job at all, the step is ["approve"] and
    the decision goes by the [approval_status] already in the state. *)
Theorem supervisor_after_tailor_node now now' s :
  next_action (SupervisorAgent.execute now'
                 (ResumeTailorAgent.execute tailor_resume now s)) =
    Some (if truthy_job (current_job s)
             && (negb (truthy_str (base_resume s)) || is_null (metrics s))
          then route_at_match s
          else route_at_approve s).
Proof.
  unfold ResumeTailorAgent.execute, try_except, ResumeTailorAgent.body.
  unfold_m.
  destruct (truthy_job (current_job s)); cbn [andb].
  - destruct (truthy_str (base_resume s)); cbn [negb orb].
    + unfold ResumeTailorAgent.body_tailoring. unfold_m.
      destruct (tailor_resume _ _ _) as [[tailored changes] why].
      unfold update_metrics; simpl.
      destruct (metrics s); cbn [fst snd];
        first [ rewrite next_action_at_approve by reflexivity; reflexivity
              | rewrite next_action_at_match by reflexivity; reflexivity ].
    + rewrite next_action_at_match by reflexivity. reflexivity.
  - rewrite next_action_at_approve by reflexivity. reflexivity.
Qed.
End AfterNodes.

(** X14.  The supervisor behind the three remaining nodes.  The learning
    agent leaves the step ["complete"] and the approval node the step
    ["wait"]; the supervisor has a branch for neither and answers
    ["scrape"], so the graph starts over where it should end or wait.  The
    application node leaves the step ["learn"], which the supervisor reads
    as done: it answers ["stop"] and the learning stage does not run. *)
Theorem supervisor_after_terminal_nodes now now' s :
  next_action (SupervisorAgent.execute now' (LearningAgent.execute now s))
    = Some "scrape" /\
  next_action
    (SupervisorAgent.execute now' (JobApplicationWorkflow._approve_node s))
    = Some "scrape" /\
  next_action
    (SupervisorAgent.execute now' (JobApplicationWorkflow._apply_node s))
    = Some "stop".
Proof.
  split; [|split].
  - unfold SupervisorAgent.execute, try_except.
    rewrite (decide_other now' _ "complete" (learning_sets_complete now s)
               complete_is_not_known). reflexivity.
  - unfold SupervisorAgent.execute, try_except.
    rewrite (decide_other now' (JobApplicationWorkflow._approve_node s) "wait"
               eq_refl wait_is_not_known). reflexivity.
  - apply next_action_at_learn. reflexivity.
Qed.

(** ** Runs of the graph *)

Lemma grows_refl {A} (l : option (list A)) : grows l l.
Proof. unfold grows. reflexivity. Qed.

Lemma grows_snoc {A} (l : option (list A)) x :
  grows l (Some (default [] l ++ [x])).
Proof. unfold grows. simpl. apply prefix_app_r. reflexivity. Qed.

Lemma grows_trans {A} (a b c : option (list A)) :
  grows a b -> grows b c -> grows a c.
Proof. unfold grows. intros. etrans; eassumption. Qed.

Lemma history_kept_trans a b c :
  history_kept a b -> history_kept b c -> history_kept a c.
Proof. intros [? ?] [? ?]. split; eapply grows_trans; eassumption. Qed.

Create HintDb history.
#[global] Hint Resolve grows_refl grows_snoc : history.

Ltac hist :=
  unfold history_kept; cbn;
  solve [split; auto with history].

Lemma supervisor_keeps_history now s :
  history_kept s (SupervisorAgent.execute now s).
Proof.
  destruct (execute_outcome now s) as [(next & _ & Hd & He)|(e & _ & ->)].
  - split; [rewrite He; apply grows_refl|rewrite Hd; exact (grows_snoc _ _)].
  - hist.
Qed.

Lemma supervisor_decides_known_action now s :
  exists a, next_action (SupervisorAgent.execute now s) = Some a /\
            known_action a.
Proof.
  unfold known_action.
  by_step s H.
  - destruct (scraped_jobs s) as [| |[|j l]]; eexists; (split; [reflexivity|]);
      set_solver.
  - destruct (matched_jobs s) as [| |[|j l]]; try destruct (truthy_job _);
      eexists; (split; [reflexivity|]); set_solver.
  - destruct (truthy_str _); eexists; (split; [reflexivity|]); set_solver.
  - repeat destruct (str_is _ _); eexists; (split; [reflexivity|]); set_solver.
  - destruct (matched_jobs s) as [| |l]; simpl; try destruct (0 <? _)%nat;
      eexists; (split; [reflexivity|]); set_solver.
  - eexists; (split; [reflexivity|]); set_solver.
  - eexists; (split; [reflexivity|]); set_solver.
Qed.

Lemma known_action_has_edge a key :
  known_action a -> JobApplicationWorkflow.edge_of a
                    <> JobApplicationWorkflow.NoEdge key.
Proof.
  unfold known_action. rewrite !elem_of_cons, elem_of_nil.
  intros [->|[->|[->|[->|[->|[->|[->|[->|[]]]]]]]]]; discriminate.
Qed.

Lemma edge_to_end a :
  JobApplicationWorkflow.edge_of a = JobApplicationWorkflow.END ->
  a = "stop" \/ a = "wait".
Proof.
  unfold JobApplicationWorkflow.edge_of.
  repeat match goal with
  | |- context [String.eqb a ?v] =>
      destruct (String.eqb_spec a v) as [->|_]; [try discriminate; auto|]
  end.
  discriminate.
Qed.

Lemma supervisor_on_nothing_matched now s :
  current_step s = Some "match" -> nothing_matched s ->
  SupervisorAgent.execute now s
    = SupervisorAgent.record_decision now "learn" "match" s.
Proof.
  intros Hs Hm. unfold SupervisorAgent.execute, try_except.
  rewrite (decide_match now s Hs). unfold nothing_matched in Hm.
  destruct (matched_jobs s) as [| |[|j l]]; simpl in Hm; try discriminate;
    reflexivity.
Qed.

Lemma supervisor_on_complete now s :
  current_step s = Some "complete" ->
  SupervisorAgent.execute now s
    = SupervisorAgent.record_decision now "scrape" "complete" s.
Proof.
  intros Hs. unfold SupervisorAgent.execute, try_except.
  rewrite (decide_other now s "complete" Hs complete_is_not_known).
  reflexivity.
Qed.

Section Runs.
Import JobApplicationWorkflow.
Variable calc : nat -> Job -> slot Prefs -> Q * string.
Variable repr : Q -> string.
Variable tailor_resume :
  string -> Job -> slot Prefs -> string * list string * string.
Variable matcher : MatcherAgent.Agent.

(** No node rewrites the logs: [errors] and [agent_decisions] are only
    appended to. *)
Lemma node_keeps_history n now s :
  history_kept s (run_node calc repr tailor_resume matcher n now s).
Proof.
  destruct n; simpl.
  - unfold ScraperAgent.execute, try_except, ScraperAgent.body. unfold_m.
    destruct (user_preferences s) as [| |p]; simpl; unfold update_metrics;
      simpl; destruct (metrics s); hist.
  - unfold MatcherAgent.execute, try_except, MatcherAgent.body. unfold_m.
    destruct (slot_get (scraped_jobs s) []) as [[|j l]|]; simpl; try hist.
    unfold MatcherAgent.body_matching. unfold_m.
    destruct (MatcherAgent.match_loop _ _ _ _ _ _)
      as [[matched scores] reasons].
    unfold update_metrics; simpl. destruct (metrics s); hist.
  - unfold ResumeTailorAgent.execute, try_except, ResumeTailorAgent.body.
    unfold_m.
    destruct (truthy_job (current_job s)); simpl; try hist.
    destruct (truthy_str (base_resume s)); simpl; try hist.
    unfold ResumeTailorAgent.body_tailoring. unfold_m.
    destruct (tailor_resume _ _ _) as [[tailored changes] why].
    unfold update_metrics; simpl. destruct (metrics s); hist.
  - hist.
  - hist.
  - unfold LearningAgent.execute, try_except, LearningAgent.body. unfold_m.
    destruct (learning_insights s); hist.
  - apply supervisor_keeps_history.
Qed.

Lemma run_from_finished limit clock : forall k n s visited s' path,
  run_from calc repr tailor_resume matcher limit clock k n s visited
    = (Ok s', path) ->
  (next_action s' = Some "stop" \/ next_action s' = Some "wait") /\
  last path = Some supervisor /\
  history_kept s s'.
Proof.
  induction limit as [|limit IH]; intros k n s visited s' path Hrun.
  - discriminate.
  - simpl in Hrun.
    pose proof (node_keeps_history n (clock k) s) as Hstep.
    destruct (successor _ _) as [|n'|key] eqn:E.
    + injection Hrun as <- <-.
      destruct n; simpl in E; try discriminate.
      unfold _route_next_step in E.
      destruct (supervisor_decides_known_action (clock k) s) as (a & Ha & _).
      simpl. rewrite Ha in *. simpl in E. apply edge_to_end in E.
      split; [destruct E as [->| ->]; auto|].
      split; [apply last_snoc|exact Hstep].
    + apply IH in Hrun as (Hn & Hl & Hh).
      split; [exact Hn|]. split; [exact Hl|].
      eapply history_kept_trans; eassumption.
    + discriminate.
Qed.

(** X15.  A run of the graph that returns a state has ended behind the
    supervisor, on the decision ["stop"] or ["wait"]; and along the run
    the two logs were only appended to: the [errors] and the
    [agent_decisions] that the run started with are a prefix of those it
    ends with. *)
Theorem finished_run_ended_on_stop_or_wait limit clock s :
  let r := ainvoke calc repr tailor_resume matcher limit clock s in
  Examples.ended r = true ->
  (next_action (Examples.final_state r s) = Some "stop"
   \/ next_action (Examples.final_state r s) = Some "wait") /\
  last r.2 = Some supervisor /\
  history_kept s (Examples.final_state r s).
Proof.
  unfold ainvoke, Examples.ended, Examples.final_state. simpl.
  destruct (run_from _ _ _ _ _ _ _ _ _ _) as [[s'|e] path] eqn:E; simpl;
    [|discriminate].
  intros _. eapply run_from_finished. exact E.
Qed.

(** X16.  The supervisor only ever names an action that the conditional
    edges of the graph have a target for: no run fails on a missing
    edge. *)
Theorem run_never_misroutes limit clock s key :
  (ainvoke calc repr tailor_resume matcher limit clock s).1
    <> Raise (KeyError key).
Proof.
  unfold ainvoke. generalize 0 entry_point s (@nil Node).
  induction limit as [|limit IH]; intros k n s0 visited; simpl.
  - discriminate.
  - destruct (successor n _) as [|n'|key'] eqn:E.
    + discriminate.
    + apply IH.
    + exfalso. destruct n; simpl in E; try discriminate.
      unfold _route_next_step in E.
      destruct (supervisor_decides_known_action (clock k) s0) as (a & Ha & Hk).
      rewrite Ha in E. simpl in E.
      eapply known_action_has_edge; eassumption.
Qed.

(** From a state with an empty [matched_jobs], nothing on the cycle
    scrape, supervisor, learn, supervisor leads out of it. *)
Lemma cycle_never_ends limit clock : forall k s visited,
  nothing_matched s ->
  (run_from calc repr tailor_resume matcher limit clock k scrape s visited).1
    = limit_reached /\
  (current_step s = Some "match" ->
   (run_from calc repr tailor_resume matcher limit clock k supervisor s
      visited).1 = limit_reached) /\
  (run_from calc repr tailor_resume matcher limit clock k learn s visited).1
    = limit_reached /\
  (current_step s = Some "complete" ->
   (run_from calc repr tailor_resume matcher limit clock k supervisor s
      visited).1 = limit_reached).
Proof.
  induction limit as [|limit IH]; intros k s visited Hm.
  - split; [|split; [|split]]; reflexivity.
  - assert (Hscr : nothing_matched (ScraperAgent.execute (clock k) s)).
    { unfold nothing_matched. rewrite scraper_keeps_matched. exact Hm. }
    assert (Hlrn : nothing_matched (LearningAgent.execute (clock k) s)).
    { unfold nothing_matched. rewrite learning_keeps_matched. exact Hm. }
    split; [|split; [|split]].
    + cbn [run_from run_node successor].
      destruct (IH (S k) _ (visited ++ [scrape]) Hscr) as (_ & H & _).
      apply H, scraper_sets_next_step.
    + intros Hs. cbn [run_from run_node successor].
      rewrite (supervisor_on_nothing_matched _ s Hs Hm). cbn.
      destruct (IH (S k) (SupervisorAgent.record_decision (clock k) "learn"
                            "match" s) (visited ++ [supervisor]) Hm)
        as (_ & _ & H & _).
      exact H.
    + cbn [run_from run_node successor].
      destruct (IH (S k) _ (visited ++ [learn]) Hlrn) as (_ & _ & _ & H).
      apply H, learning_sets_complete.
    + intros Hs. cbn [run_from run_node successor].
      rewrite (supervisor_on_complete _ s Hs). cbn.
      destruct (IH (S k) (SupervisorAgent.record_decision (clock k) "scrape"
                            "complete" s) (visited ++ [supervisor]) Hm)
        as (H & _).
      exact H.
Qed.

(** X17.  [run] on a fresh state never returns a state: whatever the
    preferences, the answers of the LLM and the engine's recursion limit,
    the graph goes round scrape, supervisor, learn, supervisor (the
    matcher is never reached) until the engine gives up at the limit. *)
Theorem fresh_run_never_ends limit clock prefs :
  (run calc repr tailor_resume matcher limit clock prefs).1 = limit_reached.
Proof.
  unfold run, ainvoke. apply cycle_never_ends. reflexivity.
Qed.
End Runs.

Lemma finished_run_ended_on_stop_or_wait_witness :
  last
    (JobApplicationWorkflow.ainvoke Examples.scores_A Examples.repr0
       Examples.tailor0 MatcherAgent.init 25 (fun _ => Examples.now1)
       Examples.suspended).2
    = Some JobApplicationWorkflow.supervisor.
Proof.
  destruct (finished_run_ended_on_stop_or_wait Examples.scores_A
              Examples.repr0 Examples.tailor0 MatcherAgent.init 25
              (fun _ => Examples.now1) Examples.suspended)
    as (_ & Hl & _).
  - by_evaluation.
  - exact Hl.
Defined.

(** ** The supervisor after an application *)
Section ApplyStep.
Import SupervisorAgent.

(** X18.  At the apply step the supervisor takes out of [matched_jobs]
    exactly the jobs that carry the current job's id, keeping the others
    in their order and as often as they were listed, and clears the
    current job; it decides ["match"] when a job is left and ["learn"]
    when none is. *)
Theorem apply_step_drops_the_current_job now s js :
  current_step s = Some "apply" ->
  matched_jobs s = Held js ->
  exists remaining,
    matched_jobs (execute now s) = Held remaining /\
    remaining `sublist_of` js /\
    remaining = filter (λ j, job_get_id j ≠ current_job_id s) js /\
    (forall j, j ∈ remaining <-> j ∈ js /\ job_get_id j <> current_job_id s) /\
    current_job (execute now s) = None /\
    current_job_id (execute now s) = None /\
    next_action (execute now s)
      = Some (match remaining with [] => "learn" | _ => "match" end).
Proof.
  intros Hs Hm. unfold execute, try_except.
  rewrite (decide_apply now s Hs), Hm. simpl.
  exists (filter (λ j, job_get_id j ≠ current_job_id s) js).
  split; [reflexivity|]. split; [apply sublist_filter|].
  split; [reflexivity|].
  split; [intros j; rewrite list_elem_of_filter; tauto|].
  split; [reflexivity|]. split; [reflexivity|].
  destruct (filter _ js); reflexivity.
Qed.
End ApplyStep.

Lemma apply_step_drops_the_current_job_witness :
  exists remaining,
    matched_jobs (SupervisorAgent.execute Examples.now1 Examples.applied)
      = Held remaining /\
    remaining `sublist_of` [Examples.job 1; Examples.job 3].
Proof.
  destruct (apply_step_drops_the_current_job Examples.now1 Examples.applied
              [Examples.job 1; Examples.job 3] eq_refl eq_refl)
    as (remaining & Hm & Hsub & _).
  exists remaining. split; [exact Hm|exact Hsub].
Defined.

(** ** The learning agent's reports *)
Section LearningReports.
Import LearningAgent.

Lemma stats_of_snoc ds d :
  stats_of (ds ++ [d]) =
    let st := default (mkAgentStats 0 0 0) (stats_of ds) in
    Some (if success d
          then mkAgentStats (S (st_total st)) (S (st_success st))
                 (st_failures st)
          else mkAgentStats (S (st_total st)) (st_success st)
                 (S (st_failures st))).
Proof.
  unfold stats_of. destruct (ds ++ [d]) as [|x l] eqn:E.
  { now apply app_eq_nil in E as [_ ?]. }
  rewrite <- E. rewrite !List.filter_app, !length_app. simpl.
  destruct ds as [|y ds']; simpl; destruct (success d); simpl;
    f_equal; f_equal; lia.
Qed.

Lemma tally_lookup stats d a :
  tally stats d !! a =
    if String.eqb (agent d) a
    then Some (let st := default (mkAgentStats 0 0 0) (stats !! a) in
               if success d
               then mkAgentStats (S (st_total st)) (S (st_success st))
                      (st_failures st)
               else mkAgentStats (S (st_total st)) (st_success st)
                      (S (st_failures st)))
    else stats !! a.
Proof.
  unfold tally. destruct (String.eqb_spec (agent d) a) as [->|Hne].
  - rewrite lookup_insert_eq. reflexivity.
  - rewrite lookup_insert_ne by exact Hne. reflexivity.
Qed.

Lemma success_or_failure (ds : list Decision) :
  length (List.filter success ds)
  + length (List.filter (fun d => negb (success d)) ds) = length ds.
Proof.
  induction ds as [|d ds IH]; simpl; [reflexivity|].
  destruct (success d); simpl; lia.
Qed.

(** X20.  [_analyze_agent_performance] has an entry for exactly the
    agents with a decision on record; the entry counts the agent's
    decisions, the successful ones and the others, so that
    [total = success + failures] and [total > 0]. *)
Theorem agent_performance_counts s a :
  _analyze_agent_performance s !! a
    = stats_of (decisions_of a (default [] (agent_decisions s))) /\
  forall st, _analyze_agent_performance s !! a = Some st ->
    st_total st = st_success st + st_failures st /\ 0 < st_total st.
Proof.
  assert (E : _analyze_agent_performance s !! a
              = stats_of (decisions_of a (default [] (agent_decisions s)))).
  { unfold _analyze_agent_performance.
    induction (default [] (agent_decisions s)) as [|d ds IH] using rev_ind.
    - reflexivity.
    - rewrite foldl_app. simpl. rewrite tally_lookup.
      unfold decisions_of in *. rewrite List.filter_app. simpl.
      destruct (String.eqb (agent d) a).
      + rewrite stats_of_snoc, IH. reflexivity.
      + rewrite app_nil_r. exact IH. }
  split; [exact E|]. rewrite E. intros st. unfold stats_of.
  destruct (decisions_of a _) as [|d ds] eqn:Hds; [discriminate|].
  intros [= <-]. cbn [st_total st_success st_failures].
  split; [symmetry; apply (success_or_failure (d :: ds))|simpl; lia].
Qed.

Lemma count_of_bump k k' counts :
  count_of k' (bump k counts)
    = if String.eqb k k' then S (count_of k' counts) else count_of k' counts.
Proof.
  induction counts as [|[k0 n] rest IH]; simpl.
  - reflexivity.
  - destruct (String.eqb_spec k0 k) as [->|Hne]; simpl.
    + destruct (String.eqb k k'); reflexivity.
    + rewrite IH. destruct (String.eqb_spec k0 k') as [->|Hne'].
      * destruct (String.eqb_spec k k'); [congruence|reflexivity].
      * reflexivity.
Qed.

Lemma bump_keys k counts :
  forall x, x ∈ (bump k counts).*1 <-> x = k \/ x ∈ counts.*1.
Proof.
  induction counts as [|[k0 n] rest IH]; intros x; simpl.
  - rewrite list_elem_of_singleton, elem_of_nil. tauto.
  - destruct (String.eqb_spec k0 k) as [->|Hne]; simpl.
    + rewrite !elem_of_cons. tauto.
    + rewrite !elem_of_cons, IH. tauto.
Qed.

Lemma bump_NoDup k counts : NoDup counts.*1 -> NoDup (bump k counts).*1.
Proof.
  induction counts as [|[k0 n] rest IH]; simpl; intros Hnd.
  - apply NoDup_singleton.
  - apply NoDup_cons in Hnd as [Hk0 Hnd].
    destruct (String.eqb_spec k0 k) as [->|Hne]; simpl.
    + apply NoDup_cons. split; assumption.
    + apply NoDup_cons. split; [|apply IH, Hnd].
      rewrite bump_keys. intros [C|C]; [congruence|contradiction].
Qed.

Lemma count_of_elem k n counts :
  NoDup counts.*1 -> (k, n) ∈ counts -> count_of k counts = n.
Proof.
  induction counts as [|[k0 n0] rest IH]; simpl; intros Hnd Hin.
  - now apply elem_of_nil in Hin.
  - apply NoDup_cons in Hnd as [Hk0 Hnd].
    apply elem_of_cons in Hin as [[= <- <-]|Hin].
    + now rewrite String.eqb_refl.
    + destruct (String.eqb_spec k0 k) as [->|Hne]; [|now apply IH].
      exfalso. apply Hk0. apply list_elem_of_fmap. exists (k, n). auto.
Qed.

Lemma count_of_absent k counts : k ∉ counts.*1 -> count_of k counts = 0.
Proof.
  induction counts as [|[k0 n0] rest IH]; simpl; intros Hk.
  - reflexivity.
  - apply not_elem_of_cons in Hk as [Hne Hk].
    destruct (String.eqb_spec k0 k); [congruence|now apply IH].
Qed.

(** The dict of counts: one key per error type that occurs, with the
    number of its occurrences. *)
Lemma count_errors_spec errs :
  NoDup (count_errors errs).*1 /\
  (forall k, count_of k (count_errors errs) = occurrences k errs) /\
  (forall k, k ∈ (count_errors errs).*1 ->
     exists e, e ∈ errs /\ k = error_type e).
Proof.
  unfold count_errors, occurrences.
  induction errs as [|e errs (Hnd & Hcount & Hkeys)] using rev_ind.
  - simpl. split; [constructor|]. split; [reflexivity|].
    intros k Hk. now apply elem_of_nil in Hk.
  - rewrite foldl_app. simpl. split; [now apply bump_NoDup|]. split.
    + intros k. rewrite count_of_bump, Hcount, List.filter_app, length_app.
      simpl. destruct (String.eqb (error_type e) k); simpl; lia.
    + intros k Hk. apply bump_keys in Hk as [->|Hk].
      * exists e. split; [|reflexivity]. apply elem_of_app. right.
        now apply list_elem_of_singleton.
      * destruct (Hkeys k Hk) as (e' & He' & ->). exists e'.
        split; [|reflexivity]. apply elem_of_app. now left.
Qed.

Lemma insert_by_count_perm x l : insert_by_count x l ≡ₚ x :: l.
Proof.
  induction l as [|y l IH]; simpl; [reflexivity|].
  destruct (x.2 <? y.2)%nat; [|reflexivity].
  rewrite IH. apply Permutation_swap.
Qed.

Lemma sort_by_count_perm l : sort_by_count l ≡ₚ l.
Proof.
  induction l as [|x l IH]; simpl; [reflexivity|].
  rewrite insert_by_count_perm. now rewrite IH.
Qed.

Lemma insert_by_count_sorted x l :
  StronglySorted by_count_desc l ->
  StronglySorted by_count_desc (insert_by_count x l).
Proof.
  induction 1 as [|y l Hl IH Hy]; simpl.
  - repeat constructor.
  - destruct (Nat.ltb_spec x.2 y.2) as [Hlt|Hge].
    + constructor; [exact IH|].
      rewrite insert_by_count_perm. constructor; [|exact Hy].
      unfold by_count_desc. lia.
    + constructor; [now constructor|].
      constructor; [exact Hge|].
      eapply Forall_impl; [exact Hy|]. unfold by_count_desc.
      intros z Hz. simpl in *. lia.
Qed.

Lemma sort_by_count_sorted l : StronglySorted by_count_desc (sort_by_count l).
Proof.
  induction l as [|x l IH]; simpl; [constructor|].
  now apply insert_by_count_sorted.
Qed.

Lemma sorted_take_dominates (l : list (string * nat)) n x y :
  StronglySorted by_count_desc l ->
  x ∈ take n l -> y ∈ drop n l -> y.2 <= x.2.
Proof.
  intros Hs. revert n. induction Hs as [|z l Hl IH Hz]; intros n Hx Hy.
  - rewrite take_nil in Hx. now apply elem_of_nil in Hx.
  - destruct n as [|n]; simpl in *; [now apply elem_of_nil in Hx|].
    apply elem_of_cons in Hx as [->|Hx]; [|now apply (IH n)].
    rewrite Forall_forall in Hz. apply Hz.
    eapply elem_of_sublist; [exact Hy|apply sublist_drop].
Qed.

(** X21.  [_identify_common_errors] returns at most three error types
    (the first 50 characters of a message), all different, each the type
    of an error on the list; no type left out occurs more often than one
    returned; and it returns the empty list only for the empty list. *)
Theorem common_errors_are_the_most_frequent errs :
  let top := _identify_common_errors errs in
  length top <= 3 /\
  NoDup top /\
  (forall t, t ∈ top -> 0 < occurrences t errs) /\
  (forall t t', t ∈ top -> t' ∉ top ->
     occurrences t' errs <= occurrences t errs) /\
  (errs <> [] -> top <> []).
Proof.
  intros top. subst top.
  destruct (count_errors_spec errs) as (Hnd & Hcount & Hkeys).
  pose proof (sort_by_count_perm (count_errors errs)) as Hperm.
  pose proof (sort_by_count_sorted (count_errors errs)) as Hsorted.
  assert (Hnd' : NoDup (sort_by_count (count_errors errs)).*1).
  { now rewrite Hperm. }
  assert (Hin : forall t n, (t, n) ∈ sort_by_count (count_errors errs) ->
            n = occurrences t errs).
  { intros t n Ht. rewrite Hperm in Ht. rewrite <- Hcount. symmetry.
    now apply count_of_elem. }
  assert (Hpos : forall t, t ∈ (count_errors errs).*1 ->
            0 < occurrences t errs).
  { intros t Ht. destruct (Hkeys t Ht) as (e & He & ->).
    unfold occurrences. apply list_elem_of_In in He.
    assert (Hf : In e (List.filter
              (fun e0 => String.eqb (error_type e0) (error_type e)) errs)).
    { apply filter_In. split; [exact He|apply String.eqb_refl]. }
    destruct (List.filter _ errs); [destruct Hf|simpl; lia]. }
  unfold _identify_common_errors.
  destruct errs as [|e0 errs0] eqn:Eerrs.
  { simpl. split; [lia|]. split; [constructor|].
    split; [intros t Ht; now apply elem_of_nil in Ht|].
    split; [intros t t' Ht; now apply elem_of_nil in Ht|]. congruence. }
  rewrite <- Eerrs in *. clear Eerrs e0 errs0.
  set (sorted := sort_by_count (count_errors errs)) in *.
  split; [|split; [|split; [|split]]].
  - rewrite length_fmap, length_take. lia.
  - rewrite <- (take_drop 3 sorted), fmap_app in Hnd'.
    now apply NoDup_app in Hnd' as [? _].
  - intros t Ht. apply Hpos.
    apply list_elem_of_fmap in Ht as ([t0 n] & -> & Ht).
    rewrite <- Hperm. apply list_elem_of_fmap. exists (t0, n).
    split; [reflexivity|]. fold sorted. rewrite <- (take_drop 3 sorted).
    apply elem_of_app. now left.
  - intros t t' Ht Ht'.
    apply list_elem_of_fmap in Ht as ([t0 n] & -> & Ht). simpl.
    assert (Hn : n = occurrences t0 errs).
    { apply Hin. rewrite <- (take_drop 3 sorted). apply elem_of_app. now left. }
    destruct (decide (t' ∈ (count_errors errs).*1)) as [Hk|Hk].
    + rewrite <- Hperm in Hk. fold sorted in Hk.
      apply list_elem_of_fmap in Hk as ([t1 n'] & -> & Hk). simpl in *.
      rewrite <- (take_drop 3 sorted) in Hk.
      apply elem_of_app in Hk as [Hk|Hk].
      * exfalso. apply Ht'. apply list_elem_of_fmap. exists (t1, n'). auto.
      * assert (Hn' : n' = occurrences t1 errs).
        { apply Hin. rewrite <- (take_drop 3 sorted). apply elem_of_app.
          now right. }
        pose proof (sorted_take_dominates sorted 3 _ _ Hsorted Ht Hk) as Hle.
        simpl in Hle. lia.
    + rewrite <- Hcount, (count_of_absent _ _ Hk). lia.
  - intros Hne Htop. apply fmap_nil_inv in Htop.
    destruct sorted as [|x l] eqn:Es; [|discriminate].
    destruct errs as [|e errs'] using rev_ind; [congruence|].
    clear IHerrs'. apply Permutation_nil_l in Hperm.
    unfold count_errors in Hperm. rewrite foldl_app in Hperm. simpl in Hperm.
    destruct (foldl _ [] errs') as [|[k n] r]; simpl in Hperm;
      [discriminate|]. destruct (String.eqb k _); discriminate.
Qed.

(** X22.  An analysis that fails ([scraped_jobs] or [matched_jobs] holds
    [None]) or finds nothing scraped is acted on as a match rate of 0:
    the adjustments ask the scraper to broaden the search and the matcher
    to lower its threshold to 0.60, and no error is recorded. *)
Theorem failed_analysis_lowers_threshold now s li :
  learning_insights s = Some li ->
  scraped_jobs s = Null \/ matched_jobs s = Null
    \/ slot_get (scraped_jobs s) [] = Some [] ->
  exists adj,
    strategy_adjustments (execute now s) = Some adj /\
    action (adj_scraper adj) = Some "broaden_search" /\
    action (adj_matcher adj) = Some "lower_threshold" /\
    new_threshold (adj_matcher adj) = Some (60 # 100)%Q /\
    errors (execute now s) = errors s.
Proof.
  intros Hli Hcase.
  assert (Hrate : insights_match_rate (_analyze_workflow s) = 0%Q).
  { unfold _analyze_workflow.
    destruct Hcase as [E|[E|E]].
    - rewrite E. reflexivity.
    - rewrite E. destruct (py_len (slot_get (scraped_jobs s) [])); reflexivity.
    - rewrite E. simpl.
      destruct (py_len (slot_get (matched_jobs s) [])); reflexivity. }
  unfold execute, try_except, body. unfold_m. rewrite Hli. simpl.
  unfold _generate_strategy_adjustments. rewrite Hrate.
  eexists. split; [reflexivity|]. repeat split; reflexivity.
Qed.
End LearningReports.

Lemma failed_analysis_lowers_threshold_witness :
  exists adj,
    strategy_adjustments
      (LearningAgent.execute Examples.now1 Examples.null_jobs) = Some adj /\
    new_threshold (adj_matcher adj) = Some (60 # 100)%Q.
Proof.
  destruct (failed_analysis_lowers_threshold Examples.now1 Examples.null_jobs
              ∅ eq_refl (or_introl eq_refl))
    as (adj & Ha & _ & _ & Ht & _).
  exists adj. split; [exact Ha|exact Ht].
Defined.

Section SentimentFacts.
Variable invoke_llm : string -> result string.
Variable prompt_text : string -> string.
Variable strip_lower : string -> string.

(** X23.  Whatever the LLM answers, and also when the call raises,
    [_analyze_feedback_sentiment] returns one of ["positive"],
    ["negative"] and ["neutral"]. *)
Theorem sentiment_is_one_of_three feedback :
  LearningAgent._analyze_feedback_sentiment invoke_llm prompt_text
    strip_lower feedback
    ∈ ["positive"; "negative"; "neutral"].
Proof.
  unfold LearningAgent._analyze_feedback_sentiment.
  destruct (invoke_llm _) as [response|e].
  - destruct (bool_decide _) eqn:E.
    + apply bool_decide_eq_true in E. exact E.
    + rewrite !elem_of_cons. auto.
  - rewrite !elem_of_cons. auto.
Qed.
End SentimentFacts.

(** ** The base agent *)
Section BaseAgentFacts.
Import BaseAgent.

Lemma add_to_memory_last memory item :
  add_to_memory memory item = last_items 10 (memory ++ [item]).
Proof.
  unfold add_to_memory, last_items.
  destruct (Nat.ltb_spec 10 (length (memory ++ [item]))) as [H|H].
  - reflexivity.
  - replace (length (memory ++ [item]) - 10) with 0 by lia. reflexivity.
Qed.

Lemma last_items_snoc {A} n (l : list A) x :
  last_items (S n) (last_items (S n) l ++ [x]) = last_items (S n) (l ++ [x]).
Proof.
  unfold last_items. rewrite !length_app, length_drop. simpl.
  destruct (Nat.le_gt_cases (length l) (S n)) as [H|H].
  - replace (length l - S n) with 0 by lia. simpl. rewrite Nat.sub_0_r.
    reflexivity.
  - replace (length l - (length l - S n) + 1 - S n) with 1 by lia.
    replace (length l + 1 - S n) with (S (length l - S n)) by lia.
    rewrite (drop_app_le l [x] (S (length l - S n)))
      by lia.
    rewrite drop_app_le by (rewrite length_drop; lia).
    rewrite drop_drop. f_equal. f_equal. lia.
Qed.

(** X24.  Starting from the empty memory of a new agent, after any
    sequence of [add_to_memory] calls the memory is the last ten items
    added, in the order they were added in (all of them when fewer than
    ten): it never holds more than ten. *)
Theorem memory_keeps_the_last_ten items :
  let memory := foldl add_to_memory [] items in
  memory = last_items 10 items /\ length memory <= 10 /\
  memory `suffix_of` items.
Proof.
  intros memory. subst memory.
  assert (E : foldl add_to_memory [] items = last_items 10 items).
  { induction items as [|x items IH] using rev_ind; [reflexivity|].
    rewrite foldl_app. simpl. rewrite add_to_memory_last, IH.
    apply last_items_snoc. }
  rewrite E. unfold last_items. split; [reflexivity|].
  split; [rewrite length_drop; lia|apply suffix_drop].
Qed.

Lemma retry_loop_success {A} (func : nat -> result A) max k a :
  forall n j slept,
  j + n = max -> j <= k -> k < max ->
  (forall i, j <= i -> i < k -> exists e, func i = Raise e) ->
  func k = Ok a ->
  retry_loop func max (seq j n) slept
    = (Ok (Some a), slept ++ (_wait_before_retry <$> seq j (k - j))).
Proof.
  induction n as [|n IH]; intros j slept Hmax Hjk Hk Hfail Hok.
  - lia.
  - simpl. destruct (decide (j = k)) as [->|Hne].
    + rewrite Hok, Nat.sub_diag. simpl. now rewrite app_nil_r.
    + destruct (Hfail j) as [e ->]; [lia..|].
      destruct (Nat.eqb_spec j (max - 1)); [lia|].
      rewrite (IH (S j)); [|lia..| |exact Hok].
      * replace (k - j) with (S (k - S j)) by lia. simpl.
        now rewrite <- app_assoc.
      * intros i ? ?. apply Hfail; lia.
Qed.

Lemma retry_loop_failure {A} (func : nat -> result A) m e :
  forall n j slept,
  j + n = S m -> j <= m ->
  (forall i, j <= i -> i < m -> exists e', func i = Raise e') ->
  func m = Raise e ->
  retry_loop func (S m) (seq j n) slept
    = (Raise e, slept ++ (_wait_before_retry <$> seq j (m - j))).
Proof.
  induction n as [|n IH]; intros j slept Hmax Hjm Hfail Hlast.
  - lia.
  - simpl. rewrite Nat.sub_0_r. destruct (Nat.eqb_spec j m) as [->|Hne].
    + rewrite Hlast, Nat.sub_diag. simpl. now rewrite app_nil_r.
    + destruct (Hfail j) as [e' ->]; [lia..|].
      rewrite (IH (S j)); [|lia|lia| |exact Hlast].
      * replace (m - j) with (S (m - S j)) by lia. simpl.
        now rewrite <- app_assoc.
      * intros i ? ?. apply Hfail; lia.
Qed.

Lemma sum_list_snoc l x : sum_list (l ++ [x]) = sum_list l + x.
Proof. induction l as [|y l IH]; simpl; lia. Qed.

Lemma waits_total k : sum_list (waits k) = 2 ^ k - 1.
Proof.
  unfold waits. induction k as [|k IH]; [reflexivity|].
  rewrite seq_S, fmap_app. simpl. rewrite sum_list_snoc, IH.
  unfold _wait_before_retry.
  assert (0 < 2 ^ k) by (apply Nat.neq_0_lt_0, Nat.pow_nonzero; lia). lia.
Qed.

(** X25.  When the call fails [k] times and then answers, with
    [k < max_retries], [retry_on_failure] returns that answer after having
    slept 1, 2, 4, ... seconds between the attempts, [2^k - 1] seconds in
    all. *)
Theorem retry_returns_first_success {A} (func : nat -> result A) max k a :
  k < max ->
  (forall i, i < k -> exists e, func i = Raise e) ->
  func k = Ok a ->
  retry_on_failure func max = (Ok (Some a), waits k) /\
  sum_list (retry_on_failure func max).2 = 2 ^ k - 1.
Proof.
  intros Hk Hfail Hok.
  assert (E : retry_on_failure func max = (Ok (Some a), waits k)).
  { unfold retry_on_failure, waits.
    rewrite (retry_loop_success func max k a max 0 []); auto with lia.
    now rewrite Nat.sub_0_r. }
  split; [exact E|]. rewrite E. apply waits_total.
Qed.

(** X26.  When all the [max_retries] attempts fail, [retry_on_failure]
    raises the exception of the last one, having slept between the
    attempts but not after the last; with [max_retries = 0] it makes no
    call and returns [None]. *)
Theorem retry_gives_up_after_last_attempt {A} (func : nat -> result A) m e :
  (forall i, i < m -> exists e', func i = Raise e') ->
  func m = Raise e ->
  retry_on_failure func (S m) = (Raise e, waits m) /\
  retry_on_failure func 0 = (Ok None, []).
Proof.
  intros Hfail Hlast. split; [|reflexivity].
  unfold retry_on_failure, waits.
  rewrite (retry_loop_failure func m e (S m) 0 []); auto with lia.
  now rewrite Nat.sub_0_r.
Qed.
End BaseAgentFacts.

Lemma retry_returns_first_success_witness :
  BaseAgent.retry_on_failure Samples.flaky 3 = (Ok (Some "answer"), [1; 2]).
Proof.
  destruct (retry_returns_first_success Samples.flaky 3 2 "answer")
    as [E _].
  - lia.
  - intros i Hi. exists Samples.connection_error.
    destruct i as [|[|i]]; [reflexivity|reflexivity|lia].
  - reflexivity.
  - exact E.
Defined.

Lemma retry_gives_up_after_last_attempt_witness :
  BaseAgent.retry_on_failure Samples.failing 3
    = (Raise Samples.connection_error, [1; 2]).
Proof.
  destruct (retry_gives_up_after_last_attempt Samples.failing 2
              Samples.connection_error) as [E _].
  - intros i _. exists Samples.connection_error. reflexivity.
  - reflexivity.
  - exact E.
Defined.

(** ** The supervisor behind the scrape node, with nothing scraped *)

Lemma scraper_scraped now s :
  scraped_jobs (ScraperAgent.execute now s) = scraped_jobs s \/
  exists j l, scraped_jobs (ScraperAgent.execute now s) = Held (j :: l).
Proof.
  unfold ScraperAgent.execute, try_except, ScraperAgent.body. unfold_m.
  destruct (user_preferences s) as [| |p]; simpl; unfold update_metrics;
    simpl; destruct (metrics s); simpl; eauto.
Qed.

Lemma tailor_keeps_jobs tailor_resume now s :
  matched_jobs (ResumeTailorAgent.execute tailor_resume now s) = matched_jobs s
  /\ scraped_jobs (ResumeTailorAgent.execute tailor_resume now s)
     = scraped_jobs s.
Proof.
  unfold ResumeTailorAgent.execute, try_except, ResumeTailorAgent.body.
  unfold_m.
  destruct (truthy_job (current_job s)); simpl; [|tauto].
  destruct (truthy_str (base_resume s)); simpl; [|tauto].
  unfold ResumeTailorAgent.body_tailoring. unfold_m.
  destruct (tailor_resume _ _ _) as [[tailored changes] why].
  unfold update_metrics; simpl. destruct (metrics s); simpl; tauto.
Qed.

Lemma learning_keeps_scraped now s :
  scraped_jobs (LearningAgent.execute now s) = scraped_jobs s.
Proof.
  unfold LearningAgent.execute, try_except, LearningAgent.body. unfold_m.
  destruct (learning_insights s); reflexivity.
Qed.

Lemma matcher_keeps_invariant calc repr self now s :
  matched_where_scraped s ->
  matched_where_scraped (MatcherAgent.execute calc repr self now s).
Proof.
  unfold matched_where_scraped.
  unfold MatcherAgent.execute, try_except, MatcherAgent.body. unfold_m.
  destruct (scraped_jobs s) as [| |[|j l]] eqn:E; simpl; rewrite ?E;
    try (intros H; exact H).
  unfold MatcherAgent.body_matching. unfold_m.
  destruct (MatcherAgent.match_loop _ _ _ _ _ _)
    as [[matched scores] reasons].
  unfold update_metrics; simpl. intros _.
  destruct (metrics s); simpl; rewrite ?E;
    destruct (MatcherAgent.sort_desc _ matched); eauto.
Qed.

Lemma supervisor_keeps_invariant now s :
  matched_where_scraped s ->
  matched_where_scraped (SupervisorAgent.execute now s).
Proof.
  unfold matched_where_scraped.
  destruct (execute_untouched now s) as (_ & _ & _ & Hscr & _).
  rewrite Hscr. clear Hscr. intros Hm.
  by_step s H.
  - destruct (scraped_jobs s) as [| |[|j l]] eqn:E; simpl; rewrite ?E;
      exact Hm.
  - destruct (matched_jobs s) as [| |[|j l]] eqn:E;
      try destruct (truthy_job _); simpl; rewrite ?E; exact Hm.
  - simpl; exact Hm.
  - simpl; exact Hm.
  - destruct (matched_jobs s) as [| |l] eqn:E; simpl; rewrite ?E;
      try exact Hm.
    simpl in Hm. destruct (filter _ l) as [|x r] eqn:F; [exact I|].
    destruct l as [|y l']; [discriminate|exact Hm].
  - simpl; exact Hm.
  - simpl; exact Hm.
Qed.

Section AfterScrape.
Variable calc : nat -> Job -> slot Prefs -> Q * string.
Variable repr : Q -> string.
Variable tailor_resume :
  string -> Job -> slot Prefs -> string * list string * string.

Lemma run_keeps_matched_where_scraped s :
  in_a_run calc repr tailor_resume s -> matched_where_scraped s.
Proof.
  induction 1 as [now prefs|matcher n now s Hs IH|status s Hs IH
                 |resume s Hs IH].
  - exact I.
  - destruct n; simpl.
    + unfold matched_where_scraped in *.
      rewrite scraper_keeps_matched.
      destruct (slot_get (matched_jobs s) []) as [[|x r]|]; try exact IH.
      destruct IH as (j & l & E).
      destruct (scraper_scraped now s) as [->|H]; eauto.
    + now apply matcher_keeps_invariant.
    + unfold matched_where_scraped in *.
      destruct (tailor_keeps_jobs tailor_resume now s) as [-> ->]. exact IH.
    + exact IH.
    + exact IH.
    + unfold matched_where_scraped in *.
      rewrite learning_keeps_matched, learning_keeps_scraped. exact IH.
    + now apply supervisor_keeps_invariant.
  - exact IH.
  - exact IH.
Qed.

(** C1.  In a run of the graph, when the scrape node leaves no scraped
    job, the supervisor that runs next decides ["learn"], and so not
    ["match"].  The scraper has set [current_step] to ["match"] by then,
    so the supervisor answers by [_decide_after_match], on the matched
    jobs, and in a run there is no matched job where nothing was
    scraped. *)
Theorem no_jobs_after_scrape_learns now now' s :
  in_a_run calc repr tailor_resume s ->
  let s' := ScraperAgent.execute now s in
  slot_get (scraped_jobs s') [] = Some [] ->
  next_action (SupervisorAgent.execute now' s') = Some "learn" /\
  next_action (SupervisorAgent.execute now' s') <> Some "match".
Proof.
  intros Hrun s' Hnone.
  assert (Hinv : matched_where_scraped s').
  { apply run_keeps_matched_where_scraped.
    apply (node_runs calc repr tailor_resume MatcherAgent.init
             JobApplicationWorkflow.scrape now s Hrun). }
  assert (E : next_action (SupervisorAgent.execute now' s') = Some "learn").
  { rewrite (next_action_at_match now' s' (scraper_sets_next_step now s)).
    unfold route_at_match. unfold matched_where_scraped in Hinv.
    destruct (matched_jobs s') as [| |[|x r]]; simpl in Hinv;
      try reflexivity; try contradiction.
    destruct Hinv as (j & l & E). rewrite E in Hnone. discriminate. }
  split; [exact E|]. rewrite E. discriminate.
Qed.
End AfterScrape.

Lemma no_jobs_after_scrape_learns_witness :
  slot_get (scraped_jobs
              (ScraperAgent.execute Examples.now1 Examples.null_prefs)) []
    = Some [] /\
  next_action
    (SupervisorAgent.execute Examples.now1
       (ScraperAgent.execute Examples.now1 Examples.null_prefs))
    = Some "learn".
Proof.
  assert (H : slot_get (scraped_jobs
                (ScraperAgent.execute Examples.now1 Examples.null_prefs)) []
              = Some []) by reflexivity.
  split; [exact H|].
  destruct (no_jobs_after_scrape_learns Examples.scores_A Examples.repr0
              Examples.tailor0 Examples.now1 Examples.now1 Examples.null_prefs
              (run_starts _ _ _ Examples.now0 Null) H) as [E _].
  exact E.
Defined.

(** ** The matcher's order, and the supervisor behind the match node *)

Section ScoreOrder.
Import MatcherAgent.
Variable calc : nat -> Job -> slot Prefs -> Q * string.
Variable repr : Q -> string.

Lemma matcher_keeps_candidate self now s :
  current_job (execute calc repr self now s) = current_job s /\
  current_job_id (execute calc repr self now s) = current_job_id s /\
  tailored_resume (execute calc repr self now s) = tailored_resume s.
Proof.
  unfold execute, try_except, body. unfold_m.
  destruct (slot_get (scraped_jobs s) []) as [[|j l]|]; simpl; try tauto.
  unfold body_matching. unfold_m.
  destruct (match_loop _ _ _ _ _ _) as [[matched scores] reasons].
  unfold update_metrics; simpl. destruct (metrics s); simpl; tauto.
Qed.

Lemma supervisor_after_matcher_keeps_candidate self now now' s :
  let s1 := execute calc repr self now s in
  let s2 := SupervisorAgent.execute now' s1 in
  current_job s2 = current_job s /\ current_job_id s2 = current_job_id s /\
  next_action s2 <> Some "tailor".
Proof.
  intros s1 s2.
  destruct (matcher_keeps_candidate self now s) as (Hc & Hi & _).
  fold s1 in Hc, Hi.
  destruct (matcher_sets_next_step calc repr self now s) as [Hs|Hs];
    fold s1 in Hs; subst s2; unfold SupervisorAgent.execute, try_except.
  - rewrite (decide_tailor now' s1 Hs). simpl.
    split; [exact Hc|]. split; [exact Hi|].
    destruct (truthy_str (tailored_resume s1)); discriminate.
  - rewrite (decide_learn now' s1 Hs). simpl.
    split; [exact Hc|]. split; [exact Hi|]. discriminate.
Qed.

Lemma matcher_scored_sets_tailor self now s j jobs :
  slot_get (scraped_jobs s) [] = Some (j :: jobs) ->
  metrics s <> Null ->
  current_step (execute calc repr self now s) = Some "tailor".
Proof.
  intros Hjobs Hmet. unfold execute, try_except, body. unfold_m.
  rewrite Hjobs. unfold body_matching. unfold_m.
  destruct (match_loop _ _ _ _ _ _) as [[matched scores] reasons].
  unfold update_metrics; simpl.
  destruct (metrics s); [reflexivity|contradiction|reflexivity].
Qed.

(** C7.  What the match node and the supervisor behind it leave.  After
    any pass of the matcher over scraped jobs with distinct ids,
    [matched_jobs] holds exactly the scraped jobs whose score reaches the
    threshold, each job's score at least that of every job behind it, jobs
    of one score in the order they were scraped in.  With five jobs
    scored 0.9, 0.3, 0.75, 0.6 and 0.1 in this order against 0.70, these
    are the first and the third job, in this order.  The supervisor that
    runs next does not choose a current job: the matcher has set
    [current_step] to ["tailor"] (or ["learn"]), so [current_job] and
    [current_job_id] stay as they were before the pass and the decision is
    never ["tailor"]; after the five jobs it is ["match"] again, or
    ["approve"] when a resume from an earlier pass is in the state. *)
Theorem matcher_accepts_in_score_order self now now' s :
  let s1 := execute calc repr self now s in
  let s2 := SupervisorAgent.execute now' s1 in
  (forall j jobs,
     slot_get (scraped_jobs s) [] = Some (j :: jobs) ->
     NoDup (job_ids (j :: jobs)) ->
     exists l scores,
       matched_jobs s1 = Held l /\ matching_scores s1 = Some scores /\
       (forall x, x ∈ l <->
          x ∈ j :: jobs /\ (min_score_threshold self <= score_of scores x)%Q) /\
       StronglySorted (desc (score_of scores)) l /\
       (forall v, (min_score_threshold self <= v)%Q ->
          with_key (score_of scores) v l
          = with_key (score_of scores) v (j :: jobs))) /\
  (forall j1 j2 j3 j4 j5,
     scraped_jobs s = Held [j1; j2; j3; j4; j5] ->
     NoDup (job_ids [j1; j2; j3; j4; j5]) ->
     ((calc 0 j1 (user_preferences s)).1 == 9 # 10)%Q ->
     ((calc 1 j2 (user_preferences s)).1 == 3 # 10)%Q ->
     ((calc 2 j3 (user_preferences s)).1 == 75 # 100)%Q ->
     ((calc 3 j4 (user_preferences s)).1 == 6 # 10)%Q ->
     ((calc 4 j5 (user_preferences s)).1 == 1 # 10)%Q ->
     min_score_threshold self = MIN_MATCH_SCORE_THRESHOLD ->
     matched_jobs s1 = Held [j1; j3] /\
     (metrics s <> Null ->
      next_action s2
        = Some (if truthy_str (tailored_resume s) then "approve"
                else "match"))) /\
  current_job s2 = current_job s /\
  current_job_id s2 = current_job_id s /\
  next_action s2 <> Some "tailor".
Proof.
  intros s1 s2. split; [|split].
  - intros j jobs Hjobs Hnd.
    destruct (match_loop calc (min_score_threshold self) (user_preferences s)
                0 (j :: jobs) ([], ∅, ∅))
      as [[matched scores] reasons] eqn:Hloop.
    destruct (execute_matching calc repr self now s j jobs matched scores
                reasons Hjobs Hloop) as (Hm & Hs & _).
    pose proof Hloop as Hf. apply match_loop_filter in Hf; [|exact Hnd].
    rewrite app_nil_l in Hf. subst matched.
    eexists _, scores. split; [exact Hm|]. split; [exact Hs|].
    split; [|split].
    + intros x. rewrite sort_desc_perm.
      rewrite <- (Qle_bool_iff (min_score_threshold self) (score_of scores x)).
      rewrite !list_elem_of_In.
      apply (filter_In (over_threshold scores (min_score_threshold self))).
    + apply sort_desc_sorted.
    + intros v Hv. rewrite sort_desc_stable. now apply with_key_filter.
  - intros j1 j2 j3 j4 j5 Hjobs Hids H1 H2 H3 H4 H5 Hthr.
    destruct (calc 0 j1 (user_preferences s)) as [sc1 w1] eqn:E1.
    destruct (calc 1 j2 (user_preferences s)) as [sc2 w2] eqn:E2.
    destruct (calc 2 j3 (user_preferences s)) as [sc3 w3] eqn:E3.
    destruct (calc 3 j4 (user_preferences s)) as [sc4 w4] eqn:E4.
    destruct (calc 4 j5 (user_preferences s)) as [sc5 w5] eqn:E5.
    simpl in H1, H2, H3, H4, H5.
    pose proof (execute_matching calc repr self now s j1 [j2; j3; j4; j5])
      as Hex.
    cbn [match_loop] in Hex. rewrite E1, E2, E3, E4, E5 in Hex.
    rewrite Hthr in Hex.
    rewrite (ge_threshold_eq _ _ _ H1), (ge_threshold_eq _ _ _ H2),
      (ge_threshold_eq _ _ _ H3), (ge_threshold_eq _ _ _ H4),
      (ge_threshold_eq _ _ _ H5) in Hex.
    change (Qle_bool MIN_MATCH_SCORE_THRESHOLD (9 # 10)) with true in Hex.
    change (Qle_bool MIN_MATCH_SCORE_THRESHOLD (3 # 10)) with false in Hex.
    change (Qle_bool MIN_MATCH_SCORE_THRESHOLD (75 # 100)) with true in Hex.
    change (Qle_bool MIN_MATCH_SCORE_THRESHOLD (6 # 10)) with false in Hex.
    change (Qle_bool MIN_MATCH_SCORE_THRESHOLD (1 # 10)) with false in Hex.
    cbn [app] in Hex.
    specialize (Hex _ _ _ ltac:(rewrite Hjobs; reflexivity) eq_refl).
    fold s1 in Hex. destruct Hex as (Hm & _).
    split.
    + rewrite Hm. f_equal. unfold sort_desc. simpl.
      unfold job_ids in Hids. simpl in Hids.
      apply NoDup_cons in Hids as [N1 Hids].
      apply NoDup_cons in Hids as [N2 Hids].
      apply NoDup_cons in Hids as [N3 Hids].
      apply NoDup_cons in Hids as [N4 Hids].
      repeat match goal with
      | N : _ ∉ _ :: _ |- _ => apply not_elem_of_cons in N as [? N]
      end.
      unfold score_of.
      rewrite !lookup_insert_ne by congruence.
      rewrite lookup_insert_eq.
      rewrite !lookup_insert_ne by congruence.
      rewrite lookup_insert_eq. simpl.
      destruct (Qlt_le_dec sc1 sc3) as [Hlt|_]; [|reflexivity].
      exfalso. rewrite H1, H3 in Hlt. revert Hlt. apply Qle_not_lt.
      discriminate.
    + intros Hmet. subst s2.
      rewrite next_action_at_tailor.
      * destruct (matcher_keeps_candidate self now s) as (_ & _ & Ht).
        fold s1 in Ht. rewrite Ht. reflexivity.
      * apply (matcher_scored_sets_tailor self now s j1 [j2; j3; j4; j5]);
          [rewrite Hjobs; reflexivity|exact Hmet].
  - apply supervisor_after_matcher_keeps_candidate.
Qed.
End ScoreOrder.

Lemma matcher_accepts_in_score_order_witness :
  matched_jobs
    (MatcherAgent.execute Examples.scores_A Examples.repr0 MatcherAgent.init
       Examples.now0 Examples.scraped5)
    = Held [Examples.job 1; Examples.job 3] /\
  next_action
    (SupervisorAgent.execute Examples.now1
       (MatcherAgent.execute Examples.scores_A Examples.repr0
          MatcherAgent.init Examples.now0 Examples.scraped5))
    = Some "match" /\
  current_job
    (SupervisorAgent.execute Examples.now1
       (MatcherAgent.execute Examples.scores_A Examples.repr0
          MatcherAgent.init Examples.now0 Examples.scraped5))
    = None.
Proof.
  destruct (matcher_accepts_in_score_order Examples.scores_A Examples.repr0
              MatcherAgent.init Examples.now0 Examples.now1 Examples.scraped5)
    as (_ & Hfive & Hjob & _).
  destruct (Hfive (Examples.job 1) (Examples.job 2) (Examples.job 3)
              (Examples.job 4) (Examples.job 5)) as (Hm & Hnext).
  - reflexivity.
  - apply (bool_decide_unpack _). vm_compute. reflexivity.
  - reflexivity.
  - reflexivity.
  - reflexivity.
  - reflexivity.
  - reflexivity.
  - reflexivity.
  - split; [exact Hm|]. split.
    + apply Hnext. discriminate.
    + exact Hjob.
Defined.

(** ** Resuming a run that waits for an approval *)

Lemma scraper_on_resume now s :
  metrics s <> Null ->
  let s' := ScraperAgent.execute now s in
  current_step s' = Some "match" /\
  approval_status s' = approval_status s /\
  current_job s' = current_job s /\
  current_job_id s' = current_job_id s /\
  base_resume s' = base_resume s /\
  matched_jobs s' = matched_jobs s /\
  metrics s' <> Null /\
  log_size s' = log_size s + 1.
Proof.
  intros Hmet. unfold ScraperAgent.execute, try_except, ScraperAgent.body.
  unfold_m. unfold log_size, decisions_made.
  destruct (user_preferences s) as [| |p]; simpl; unfold update_metrics;
    simpl; destruct (metrics s) eqn:E; simpl; rewrite ?E;
    try contradiction;
    repeat split; try discriminate; try exact Hmet;
    rewrite ?length_app; simpl; lia.
Qed.

Section Resume.
Variable calc : nat -> Job -> slot Prefs -> Q * string.
Variable repr : Q -> string.
Variable tailor_resume :
  string -> Job -> slot Prefs -> string * list string * string.
Variable matcher : MatcherAgent.Agent.

Lemma tailor_on_resume now s :
  truthy_job (current_job s) = true ->
  truthy_str (base_resume s) = true ->
  metrics s <> Null ->
  let s' := ResumeTailorAgent.execute tailor_resume now s in
  current_step s' = Some "approve" /\
  approval_status s' = approval_status s /\
  current_job s' = current_job s /\
  current_job_id s' = current_job_id s /\
  base_resume s' = base_resume s /\
  matched_jobs s' = matched_jobs s /\
  metrics s' <> Null /\
  log_size s' = log_size s + 1.
Proof.
  intros Hjob Hres Hmet.
  unfold ResumeTailorAgent.execute, try_except, ResumeTailorAgent.body.
  unfold_m. rewrite Hjob, Hres.
  unfold ResumeTailorAgent.body_tailoring. unfold_m.
  destruct (tailor_resume _ _ _) as [[tailored changes] why].
  unfold update_metrics, log_size, decisions_made; simpl.
  destruct (metrics s) eqn:E; simpl; rewrite ?E; try contradiction;
    repeat split; try discriminate; rewrite ?length_app; simpl; lia.
Qed.

Lemma supervisor_on_resume now s :
  current_step s = Some "match" ->
  truthy_job (current_job s) = true ->
  match matched_jobs s with Held (_ :: _) => True | _ => False end ->
  SupervisorAgent.execute now s
  = SupervisorAgent.record_decision now "tailor" "match" s.
Proof.
  intros Hs Hjob Hm. unfold SupervisorAgent.execute, try_except.
  rewrite (decide_match now s Hs), Hjob.
  destruct (matched_jobs s) as [| |[|j l]]; try contradiction. reflexivity.
Qed.

Lemma supervisor_at_pending_gate now s :
  current_step s = Some "approve" ->
  approval_status s = Some "pending" ->
  SupervisorAgent.execute now s
  = SupervisorAgent.record_decision now "wait" "approve" s.
Proof.
  intros Hs Hgate. unfold SupervisorAgent.execute, try_except.
  rewrite (decide_approve now s Hs), Hgate. reflexivity.
Qed.

Lemma record_decision_log now next step s :
  log_size (SupervisorAgent.record_decision now next step s)
  = log_size s + 1.
Proof.
  unfold log_size, decisions_made, SupervisorAgent.record_decision. simpl.
  rewrite length_app. simpl. lia.
Qed.

Import JobApplicationWorkflow.

Lemma resume_once limit clock s :
  suspended_pending s -> 4 <= limit ->
  exists s1,
    resume_workflow calc repr tailor_resume matcher limit clock s
    = (Ok s1, [scrape; supervisor; tailor; supervisor]) /\
    next_action s1 = Some "wait" /\
    suspended_pending s1 /\
    current_job s1 = current_job s /\
    current_job_id s1 = current_job_id s /\
    log_size s1 = log_size s + 4.
Proof.
  intros (Hgate & Hjob & Hres & Hm & Hmet) Hlimit.
  destruct limit as [|[|[|[|limit]]]]; try lia.
  unfold resume_workflow, ainvoke, entry_point.
  cbn [run_from successor run_node app].
  destruct (scraper_on_resume (clock 0) s Hmet)
    as (A1 & A2 & A3 & A4 & A5 & A6 & A7 & A8).
  set (sa := ScraperAgent.execute (clock 0) s) in *.
  rewrite (supervisor_on_resume (clock 1) sa A1)
    by (rewrite ?A3, ?A6; assumption).
  set (sb := SupervisorAgent.record_decision (clock 1) "tailor" "match" sa).
  change (edge_of (_route_next_step sb)) with (To tailor).
  cbn [run_from successor run_node app].
  destruct (tailor_on_resume (clock 2) sb)
    as (B1 & B2 & B3 & B4 & B5 & B6 & B7 & B8).
  { change (current_job sb) with (current_job sa). rewrite A3. exact Hjob. }
  { change (base_resume sb) with (base_resume sa). rewrite A5. exact Hres. }
  { exact A7. }
  set (sc := ResumeTailorAgent.execute tailor_resume (clock 2) sb) in *.
  assert (Hgate' : approval_status sc = Some "pending").
  { rewrite B2. change (approval_status sb) with (approval_status sa).
    rewrite A2. exact Hgate. }
  rewrite (supervisor_at_pending_gate (clock 3) sc B1 Hgate').
  set (sd := SupervisorAgent.record_decision (clock 3) "wait" "approve" sc).
  change (edge_of (_route_next_step sd)) with END.
  exists sd. split; [reflexivity|]. split; [reflexivity|].
  assert (Hjob' : current_job sd = current_job s).
  { change (current_job sd) with (current_job sc). rewrite B3.
    change (current_job sb) with (current_job sa). exact A3. }
  split; [|split; [exact Hjob'|split]].
  - unfold suspended_pending. rewrite Hjob'.
    change (approval_status sd) with (approval_status sc).
    change (base_resume sd) with (base_resume sc).
    change (matched_jobs sd) with (matched_jobs sc).
    change (metrics sd) with (metrics sc).
    rewrite B5, B6.
    change (base_resume sb) with (base_resume sa).
    change (matched_jobs sb) with (matched_jobs sa).
    rewrite A5, A6. tauto.
  - change (current_job_id sd) with (current_job_id sc). rewrite B4.
    change (current_job_id sb) with (current_job_id sa). exact A4.
  - unfold sd. rewrite record_decision_log, B8. unfold sb.
    rewrite record_decision_log, A8. lia.
Qed.

(** C4, amended.  [resume_workflow] on a run that waits for a pending
    approval starts at the scrape node, the entry point of the graph: it
    runs scrape, supervisor, tailor, supervisor and ends on the decision
    ["wait"].  Two resumptions in a row both decide ["wait"] and leave the
    approval pending and the current job as it was, and each adds four
    entries to the logs of the state, so the state is not the same after
    any of them. *)
Theorem resume_of_pending_run limit clock clock' s :
  suspended_pending s -> 4 <= limit ->
  exists s1 s2,
    resume_workflow calc repr tailor_resume matcher limit clock s
    = (Ok s1, [scrape; supervisor; tailor; supervisor]) /\
    resume_workflow calc repr tailor_resume matcher limit clock' s1
    = (Ok s2, [scrape; supervisor; tailor; supervisor]) /\
    next_action s1 = Some "wait" /\ next_action s2 = Some "wait" /\
    approval_status s1 = Some "pending" /\
    approval_status s2 = Some "pending" /\
    current_job s1 = current_job s /\ current_job s2 = current_job s /\
    current_job_id s1 = current_job_id s /\
    current_job_id s2 = current_job_id s /\
    log_size s1 = log_size s + 4 /\ log_size s2 = log_size s + 8 /\
    s1 <> s /\ s2 <> s1.
Proof.
  intros Hs Hlimit.
  destruct (resume_once limit clock s Hs Hlimit)
    as (s1 & R1 & N1 & S1 & J1 & I1 & L1).
  destruct (resume_once limit clock' s1 S1 Hlimit)
    as (s2 & R2 & N2 & S2 & J2 & I2 & L2).
  exists s1, s2. repeat split; try assumption; try congruence.
  - apply S1.
  - apply S2.
  - lia.
  - intros C. rewrite C in L1. lia.
  - intros C. rewrite C in L2. lia.
Qed.
End Resume.

Lemma resume_of_pending_run_witness :
  exists s1 s2,
    JobApplicationWorkflow.resume_workflow Examples.scores_A Examples.repr0
      Examples.tailor0 MatcherAgent.init 25 (fun _ => Examples.now1)
      Examples.suspended
    = (Ok s1, [JobApplicationWorkflow.scrape;
               JobApplicationWorkflow.supervisor;
               JobApplicationWorkflow.tailor;
               JobApplicationWorkflow.supervisor]) /\
    JobApplicationWorkflow.resume_workflow Examples.scores_A Examples.repr0
      Examples.tailor0 MatcherAgent.init 25 (fun _ => Examples.now1) s1
    = (Ok s2, [JobApplicationWorkflow.scrape;
               JobApplicationWorkflow.supervisor;
               JobApplicationWorkflow.tailor;
               JobApplicationWorkflow.supervisor]) /\
    next_action s1 = Some "wait" /\ next_action s2 = Some "wait" /\
    approval_status s1 = Some "pending" /\
    approval_status s2 = Some "pending" /\
    current_job s1 = current_job Examples.suspended /\
    current_job s2 = current_job Examples.suspended /\
    current_job_id s1 = current_job_id Examples.suspended /\
    current_job_id s2 = current_job_id Examples.suspended /\
    log_size s1 = log_size Examples.suspended + 4 /\
    log_size s2 = log_size Examples.suspended + 8 /\
    s1 <> Examples.suspended /\ s2 <> s1.
Proof.
  apply (resume_of_pending_run Examples.scores_A Examples.repr0
           Examples.tailor0 MatcherAgent.init 25 (fun _ => Examples.now1)
           (fun _ => Examples.now1) Examples.suspended).
  - repeat split; try reflexivity. discriminate.
  - lia.
Defined.

(** ** Failures inside a stage, recorded or not *)

(** A failing LLM call inside the matcher is answered by the score 0: the
    pass ends as any other, with nothing matched and nothing recorded in
    [errors]. *)
Lemma matcher_swallows_llm_failure
    (prompt_text : Job -> Prefs -> string)
    (invoke_llm : nat -> string -> result string)
    (_parse_llm_response : string -> Q * string) (repr : Q -> string)
    self now s j jobs :
  slot_get (scraped_jobs s) [] = Some (j :: jobs) ->
  (forall n prompt, exists e, invoke_llm n prompt = Raise e) ->
  (0 < MatcherAgent.min_score_threshold self)%Q ->
  metrics s <> Null ->
  let s' :=
    MatcherAgent.execute
      (MatcherAgent._calculate_match_score prompt_text invoke_llm
         _parse_llm_response) repr self now s in
  errors s' = errors s /\ matched_jobs s' = Held [] /\
  current_step s' = Some "tailor".
Proof.
  intros Hjobs Hllm Hthr Hmet s'.
  set (calc := MatcherAgent._calculate_match_score prompt_text invoke_llm
                 _parse_llm_response) in *.
  assert (Hzero : forall i job, (calc i job (user_preferences s)).1 = 0%Q).
  { intros i job. unfold calc, MatcherAgent._calculate_match_score,
      MatcherAgent._build_matching_prompt.
    destruct (slot_get (user_preferences s) _); [|reflexivity].
    destruct (Hllm i (prompt_text job p)) as [e ->]. reflexivity. }
  assert (Hlow : MatcherAgent.ge_threshold 0%Q
                   (MatcherAgent.min_score_threshold self) = false).
  { unfold MatcherAgent.ge_threshold.
    destruct (Qle_bool _ 0) eqn:E; [|reflexivity].
    apply Qle_bool_iff in E. exfalso. eapply Qlt_not_le; eassumption. }
  destruct (MatcherAgent.match_loop calc
              (MatcherAgent.min_score_threshold self) (user_preferences s) 0
              (j :: jobs) ([], ∅, ∅)) as [[matched scores] reasons] eqn:Hloop.
  pose proof Hloop as Hrej.
  eapply match_loop_rejects in Hrej as [-> Hsc]; [|exact Hzero|exact Hlow].
  subst s'. unfold MatcherAgent.execute, try_except, MatcherAgent.body.
  unfold_m. rewrite Hjobs. unfold MatcherAgent.body_matching. unfold_m.
  rewrite Hloop. unfold update_metrics. simpl.
  destruct (metrics s); simpl; try contradiction; repeat split; reflexivity.
Qed.

(** A failing LLM call inside the resume tailor is answered by the base
    resume: the pass ends as any other, with nothing recorded in
    [errors]. *)
Lemma tailor_swallows_llm_failure
    (prompt_text : string -> Job -> string)
    (invoke_llm : string -> result string)
    (_parse_tailoring_response : string -> string * list string * string)
    now s job resume e :
  current_job s = Some job -> truthy_job (Some job) = true ->
  base_resume s = Some resume -> resume <> "" ->
  invoke_llm (prompt_text resume job) = Raise e ->
  metrics s <> Null ->
  let s' :=
    ResumeTailorAgent.execute
      (ResumeTailorAgent._tailor_resume prompt_text invoke_llm
         _parse_tailoring_response) now s in
  errors s' = errors s /\ tailored_resume s' = Some resume /\
  current_step s' = Some "approve".
Proof.
  intros Hjob Htj Hres Hne Hllm Hmet s'. subst s'.
  unfold ResumeTailorAgent.execute, try_except, ResumeTailorAgent.body.
  unfold_m. rewrite Hjob, Htj, Hres. simpl.
  destruct (bool_decide (resume = "")) eqn:E;
    [apply bool_decide_eq_true in E; contradiction|]. simpl.
  unfold ResumeTailorAgent.body_tailoring. unfold_m.
  unfold ResumeTailorAgent._tailor_resume.
  rewrite Hllm. unfold update_metrics. simpl.
  destruct (metrics s); simpl; try contradiction; repeat split; reflexivity.
Qed.

Section StageFailures.
Import JobApplicationWorkflow.
Variable calc : nat -> Job -> slot Prefs -> Q * string.
Variable repr : Q -> string.
Variable tailor_resume :
  string -> Job -> slot Prefs -> string * list string * string.
Variable matcher : MatcherAgent.Agent.

Lemma stage_raise_keeps_errors n now s b e s1 :
  stage_body calc repr tailor_resume matcher n now = Some b ->
  b s = (Raise e, s1) -> errors s1 = errors s.
Proof.
  intros Hb Hraise.
  destruct n; simpl in Hb; try discriminate; injection Hb as <-.
  - eapply scraper_raise; eassumption.
  - eapply (matcher_raise calc repr matcher); eassumption.
  - eapply (tailor_raise tailor_resume); eassumption.
  - apply learning_raise in Hraise. now subst.
Qed.

Lemma stage_raise_handled n now s b e s1 :
  stage_body calc repr tailor_resume matcher n now = Some b ->
  b s = (Raise e, s1) ->
  run_node calc repr tailor_resume matcher n now s
  = set_current_step (Some (stage_fallback n))
      (add_error now (stage_error_prefix n +:+ exn_str e) s1).
Proof.
  intros Hb Hraise.
  destruct n; simpl in Hb; try discriminate; injection Hb as <-; simpl.
  - unfold ScraperAgent.execute, try_except. rewrite Hraise. reflexivity.
  - unfold MatcherAgent.execute, try_except. rewrite Hraise. reflexivity.
  - unfold ResumeTailorAgent.execute, try_except. rewrite Hraise.
    reflexivity.
  - unfold LearningAgent.execute, try_except. rewrite Hraise. reflexivity.
Qed.

(** C9, amended.  When the [try] block of a stage (scraper, matcher,
    resume tailor, learning) raises [e], with the state at [s1] by then,
    the stage's [execute] returns [s1] with exactly one entry appended to
    [errors] (the stage's prefix followed by [str(e)]) and [current_step]
    set to the stage's fallback.  This is what the [except] clause does on
    a dict whose [errors] key is missing or holds a list; on a dict whose
    [errors] key holds [None] the clause raises [AttributeError] and the
    exception leaves the stage.  A failure of the LLM call does not reach
    the [try] block: the matcher scores the job 0 and the resume tailor
    hands back the base resume, the stage ends as after any other pass and
    [errors] is as before. *)
Theorem stage_failure_is_recorded n now s b e s1 :
  stage_body calc repr tailor_resume matcher n now = Some b ->
  b s = (Raise e, s1) ->
  let s' := run_node calc repr tailor_resume matcher n now s in
  (s' = set_current_step (Some (stage_fallback n))
          (add_error now (stage_error_prefix n +:+ exn_str e) s1) /\
   errors s' =
     Some (default [] (errors s)
           ++ [mkErrorEntry (stage_error_prefix n +:+ exn_str e) now
                 (default "unknown" (current_step s1))]) /\
   length (default [] (errors s')) = S (length (default [] (errors s)))) /\
  (forall dn,
     stage_handler n now e (mkLoose s1 false dn) = Ok (mkLoose s' false dn) /\
     stage_handler n now e (mkLoose s1 true dn) = Raise none_has_no_append) /\
  (forall prompt_text invoke_llm _parse_llm_response self now' s0 j jobs,
     slot_get (scraped_jobs s0) [] = Some (j :: jobs) ->
     (forall k prompt, exists e', invoke_llm k prompt = Raise e') ->
     (0 < MatcherAgent.min_score_threshold self)%Q ->
     metrics s0 <> Null ->
     let s0' :=
       MatcherAgent.execute
         (MatcherAgent._calculate_match_score prompt_text invoke_llm
            _parse_llm_response) repr self now' s0 in
     errors s0' = errors s0 /\ matched_jobs s0' = Held [] /\
     current_step s0' = Some "tailor") /\
  (forall prompt_text invoke_llm _parse_tailoring_response now' s0 job
          resume e',
     current_job s0 = Some job -> truthy_job (Some job) = true ->
     base_resume s0 = Some resume -> resume <> "" ->
     invoke_llm (prompt_text resume job) = Raise e' ->
     metrics s0 <> Null ->
     let s0' :=
       ResumeTailorAgent.execute
         (ResumeTailorAgent._tailor_resume prompt_text invoke_llm
            _parse_tailoring_response) now' s0 in
     errors s0' = errors s0 /\ tailored_resume s0' = Some resume /\
     current_step s0' = Some "approve").
Proof.
  intros Hb Hraise s'.
  pose proof (stage_raise_keeps_errors n now s b e s1 Hb Hraise) as Herr.
  pose proof (stage_raise_handled n now s b e s1 Hb Hraise) as Hs'.
  fold s' in Hs'.
  split; [|split; [|split]].
  - split; [exact Hs'|]. rewrite Hs'. simpl. rewrite Herr.
    split; [reflexivity|]. rewrite length_app. simpl. lia.
  - intros dn. unfold stage_handler, add_error_loose. simpl.
    rewrite Hs'. split; reflexivity.
  - intros. eapply matcher_swallows_llm_failure; eassumption.
  - intros. eapply tailor_swallows_llm_failure; eassumption.
Qed.
End StageFailures.

Lemma stage_failure_is_recorded_witness :
  JobApplicationWorkflow.stage_body Examples.scores_A Examples.repr0
    Examples.tailor0 MatcherAgent.init JobApplicationWorkflow.scrape
    Examples.now1 = Some (ScraperAgent.body Examples.now1) /\
  ScraperAgent.body Examples.now1 Examples.null_prefs
    = (Raise Examples.get_of_none, Examples.null_prefs) /\
  errors (ScraperAgent.execute Examples.now1 Examples.null_prefs) =
    Some [mkErrorEntry
            "Scraper error: 'NoneType' object has no attribute 'get'"
            Examples.now1 "scrape"] /\
  JobApplicationWorkflow.stage_handler JobApplicationWorkflow.scrape
    Examples.now1 Examples.get_of_none
    (mkLoose Examples.null_prefs true false) = Raise none_has_no_append.
Proof.
  split; [reflexivity|]. split; [vm_compute; reflexivity|].
  destruct (stage_failure_is_recorded Examples.scores_A Examples.repr0
              Examples.tailor0 MatcherAgent.init JobApplicationWorkflow.scrape
              Examples.now1 Examples.null_prefs
              (ScraperAgent.body Examples.now1) Examples.get_of_none
              Examples.null_prefs) as ((_ & He & _) & Hh & _).
  - reflexivity.
  - vm_compute; reflexivity.
  - split; [exact He|]. exact (proj2 (Hh false)).
Defined.

(** C9, as stated, fails: with the LLM client down, every scoring call of
    the matcher fails and every tailoring call fails, and neither stage
    adds an entry to [errors]. *)
Lemma llm_failure_is_not_recorded :
  (forall n prompt, Samples.llm_down n prompt = Raise Samples.connection_error)
  /\
  errors Examples.scraped5 = Some [] /\
  errors
    (MatcherAgent.execute
       (MatcherAgent._calculate_match_score Samples.matching_prompt
          Samples.llm_down Samples.parse_score)
       Examples.repr0 MatcherAgent.init Examples.now1 Examples.scraped5)
    = Some [] /\
  errors Samples.ready_to_tailor = Some [] /\
  errors
    (ResumeTailorAgent.execute
       (ResumeTailorAgent._tailor_resume Samples.tailoring_prompt
          Samples.llm_down_once Samples.parse_resume)
       Examples.now1 Samples.ready_to_tailor)
    = Some [].
Proof.
  split; [reflexivity|]. repeat split; by_evaluation.
Qed.
